(** * YIN PIMS: CSV import reconciliation and export formatting

    A shallow embedding of the reconciliation code of the three CSV import
    dialogs ([ImportMembersModal], [ImportParticipantsModal],
    [ImportVolunteersModal]) and of the export dialog
    ([ExportParticipantsModal]), with the properties of their row
    classification, their sequential import loops and the export cell
    formatting.

    Conventions of the embedding.
    - A JavaScript string is a [string]; [trim] and [toLowerCase] are the
      JavaScript methods on the ASCII range (other code units are kept).
    - A value that may be [undefined] is an [option]; [truthy] is the
      JavaScript truthiness of such a string and [or_else] is [||].
    - A parsed CSV row ([Record<string, any>]) is a [gmap string string].
    - An awaited call of the persistence layer either returns or throws; the
      layer itself is a parameter of the import loops, which log every call
      they make. *)

From Stdlib Require Import ZArith Ascii String List.
From stdpp Require Import gmap strings list fin_maps.

Open Scope string_scope.

(** ** JavaScript strings *)

Module JS.

(** White space removed by [String.prototype.trim] (ASCII range). *)
Definition is_white_space (c : ascii) : bool :=
  match N_of_ascii c with
  | 9%N | 10%N | 11%N | 12%N | 13%N | 32%N => true
  | _ => false
  end.

Fixpoint trimStart (s : string) : string :=
  match s with
  | EmptyString => EmptyString
  | String c s' => if is_white_space c then trimStart s' else s
  end.

Fixpoint trimEnd (s : string) : string :=
  match s with
  | EmptyString => EmptyString
  | String c s' =>
      match trimEnd s' with
      | EmptyString => if is_white_space c then EmptyString else String c EmptyString
      | t => String c t
      end
  end.

Definition trim (s : string) : string := trimEnd (trimStart s).

Definition lower_char (c : ascii) : ascii :=
  let n := N_of_ascii c in
  if ((65 <=? n) && (n <=? 90))%N then ascii_of_N (n + 32) else c.

Fixpoint toLowerCase (s : string) : string :=
  match s with
  | EmptyString => EmptyString
  | String c s' => String (lower_char c) (toLowerCase s')
  end.

(** Truthiness of a string that may be [undefined]. *)
Definition truthy (v : option string) : bool :=
  match v with
  | Some (String _ _) => true
  | _ => false
  end.

(** [a || b]. *)
Definition or_else (a b : option string) : option string :=
  if truthy a then a else b.

(** [a === b] for a string [a] and a possibly undefined [b]. *)
Definition strict_eq (a : string) (b : option string) : bool :=
  match b with
  | Some b' => String.eqb a b'
  | None => false
  end.

(** The outcome of an awaited call: the promise is fulfilled with a value or
    rejected. *)
Inductive result (A : Type) : Type :=
  | Returns (a : A)
  | Throws.
Arguments Returns {A} a.
Arguments Throws {A}.

(** [new Map(entries)]: a later entry with the same key replaces an earlier
    one. *)
Definition Map_new {V : Type} (entries : list (string * V)) : gmap string V :=
  foldl (fun m kv => <[kv.1 := kv.2]> m) ∅ entries.

(** [s.startsWith(sub)] and [s.includes(sub)]. *)
Fixpoint startsWith (s sub : string) : bool :=
  match sub, s with
  | EmptyString, _ => true
  | String a sub', String b s' => Ascii.eqb a b && startsWith s' sub'
  | String _ _, EmptyString => false
  end.

Fixpoint includes (s sub : string) : bool :=
  startsWith s sub
  || match s with
     | EmptyString => false
     | String _ s' => includes s' sub
     end.

(** A [Set] of strings that is iterated or counted: its elements in insertion
    order, without duplicates. [Set_has], [Set_add] and [Set_delete] are
    [has], [add] and [delete]; [Set_of] is [new Set(array)]; the size is the
    length. *)
Definition Set_has (s : list string) (x : string) : bool := bool_decide (x ∈ s).

Definition Set_add (s : list string) (x : string) : list string :=
  if Set_has s x then s else (s ++ [x])%list.

Definition Set_delete (s : list string) (x : string) : list string :=
  List.filter (fun y => negb (String.eqb y x)) s.

Definition Set_of (array : list string) : list string := foldl Set_add [] array.

(** [array.sort(compareFn)]: the sort is stable, so for a comparator that
    orders the elements consistently its result is what inserting the
    elements one after the other, each behind the elements it does not
    precede, gives. *)
Fixpoint sort_insert {A} (compareFn : A -> A -> Z) (x : A) (sorted : list A) : list A :=
  match sorted with
  | [] => [x]
  | y :: rest =>
      if (compareFn x y <? 0)%Z then x :: sorted else y :: sort_insert compareFn x rest
  end.

Definition sort {A} (compareFn : A -> A -> Z) (array : list A) : list A :=
  foldl (fun sorted x => sort_insert compareFn x sorted) [] array.

End JS.

(** ** types.ts *)

Definition UUID := string.

(** A [Date] as its time value in milliseconds. *)
Definition JSDate := Z.

Inductive Gender := Male | Female | Other.

Inductive Region := Ashanti | GreaterAccra | Volta | Western | Eastern | Central.

Definition Gender_value (g : Gender) : string :=
  match g with Male => "Male" | Female => "Female" | Other => "Other" end.

Definition Region_value (r : Region) : string :=
  match r with
  | Ashanti => "Ashanti" | GreaterAccra => "Greater Accra" | Volta => "Volta"
  | Western => "Western" | Eastern => "Eastern" | Central => "Central"
  end.

Definition Gender_values : list Gender := [Male; Female; Other].
Definition Region_values : list Region :=
  [Ashanti; GreaterAccra; Volta; Western; Eastern; Central].

(** [Object.values(E).includes(v) ? v : fallback] for an enum [E]. *)
Definition enum_or {E : Type} (values : list E) (value_of : E -> string)
    (v : option string) (fallback : E) : E :=
  match List.find (fun e => JS.strict_eq (value_of e) v) values with
  | Some e => e
  | None => fallback
  end.

Module Participant.
Record t := mk {
  id : UUID;
  name : string;
  gender : Gender;
  institution : string;
  region : Region;
  contact : string;
  membershipStatus : bool;
  certificateIssued : bool;
  isContestant : option bool;
  notes : string;
  createdAt : JSDate;
  membershipId : string;
  ghanaCardNumber : option string;
  engagementScore : option Z;
  lastMembershipCardGeneratedAt : option JSDate;
  photoUrl : option string
}.
End Participant.

Module Club.
Record t := mk {
  id : UUID;
  name : string;
  description : string;
  institution : string;
  createdAt : JSDate
}.
End Club.

Module ClubMembership.
Record t := mk {
  participantId : UUID;
  clubId : UUID;
  joinDate : JSDate
}.
End ClubMembership.

Inductive VolunteerRole := EventStaff | Mentor | Logistics | Administrative | Fundraising.

Definition VolunteerRole_value (r : VolunteerRole) : string :=
  match r with
  | EventStaff => "Event Staff" | Mentor => "Mentor" | Logistics => "Logistics"
  | Administrative => "Administrative" | Fundraising => "Fundraising"
  end.

Inductive VolunteerStatus := Active | Inactive | Pending.

Module Volunteer.
Record t := mk {
  id : UUID;
  participantId : UUID;
  role : VolunteerRole;
  status : VolunteerStatus;
  startDate : JSDate
}.
End Volunteer.

Module Event.
Record t := mk {
  id : UUID;
  title : string;
  date : JSDate;
  year : Z;
  location : string;
  category : string
}.
End Event.

Module Participation.
Record t := mk {
  participantId : UUID;
  eventId : UUID
}.
End Participation.

Inductive UserRole :=
  | SuperAdmin | Admin | Organizer | ClubExecutive | VolunteerCoordinator | Viewer.

Definition UserRole_value (role : UserRole) : string :=
  match role with
  | SuperAdmin => "Super Admin" | Admin => "Admin" | Organizer => "Organizer"
  | ClubExecutive => "Club Executive" | VolunteerCoordinator => "Volunteer Coordinator"
  | Viewer => "Viewer"
  end.

(** A parsed CSV row: column name to cell. *)
Abbreviation Row := (gmap string string).

(** The argument of [addParticipant]
    ([Omit<Participant, 'id' | 'createdAt' | 'membershipId'>]); the importers
    copy [name] and [contact] from cells that may be absent. *)
Module NewParticipant.
Record t := mk {
  name : option string;
  contact : option string;
  gender : Gender;
  region : Region;
  institution : string;
  ghanaCardNumber : string;
  isContestant : option bool;
  membershipStatus : bool;
  certificateIssued : bool;
  notes : string
}.
End NewParticipant.

(** The argument of [addVolunteer] ([Omit<Volunteer, 'id'>]); [role] is the
    raw cell. *)
Module NewVolunteer.
Record t := mk {
  participantId : UUID;
  role : option string;
  status : VolunteerStatus;
  startDate : JSDate
}.
End NewVolunteer.

(** ** The collaborators of the dialogs

    The dialogs receive the persistence operations as props
    ([addParticipant], [addClubMembership], [addVolunteer],
    [addMultipleParticipants]); their code is the persistence layer's, so
    they are methods of an interface over its state [W]. Each awaited call
    maps the state to an outcome and a new state. *)

Class Persistence (W : Type) := {
  addParticipant :
    NewParticipant.t -> option UUID -> W -> JS.result (option Participant.t) * W;
  addClubMembership : UUID -> UUID -> W -> JS.result bool * W;
  addVolunteer : NewVolunteer.t -> W -> JS.result unit * W;
  addMultipleParticipants : list NewParticipant.t -> W -> JS.result nat * W;
  (** [new Date()] *)
  Date_now : W -> JSDate
}.

(** The parts of the JavaScript runtime that depend on the host:
    [new Date(s).getTime()], with [None] for [NaN], and
    [Date.prototype.toLocaleDateString]. *)
Class Runtime := {
  Date_parse : string -> option JSDate;
  toLocaleDateString : JSDate -> string
}.

(** [String.prototype.localeCompare], which depends on the locale of the
    host: negative, zero or positive. *)
Class Locale := {
  localeCompare : string -> string -> Z
}.

(** The calls a dialog makes, with their outcomes, in program order. *)
Inductive Call :=
  | CallAddParticipant (fields : NewParticipant.t) (clubId : option UUID)
      (r : JS.result (option Participant.t))
  | CallAddClubMembership (participantId clubId : UUID) (r : JS.result bool)
  | CallAddVolunteer (fields : NewVolunteer.t) (r : JS.result unit)
  | CallAddMultipleParticipants (fields : list NewParticipant.t) (r : JS.result nat).

Record IOState (W : Type) := mkIO { world : W; calls : list Call }.
Arguments mkIO {W} world calls.
Arguments world {W} _.
Arguments calls {W} _.

(** An [async] computation: it runs on the state of the persistence layer and
    the log of calls, and returns or throws. *)
Definition Async (W A : Type) : Type := IOState W -> JS.result A * IOState W.

Definition ret {W A} (a : A) : Async W A := fun st => (JS.Returns a, st).

Definition bind {W A B} (m : Async W A) (k : A -> Async W B) : Async W B :=
  fun st =>
    match m st with
    | (JS.Returns a, st') => k a st'
    | (JS.Throws, st') => (JS.Throws, st')
    end.

Definition throw {W A} : Async W A := fun st => (JS.Throws, st).

(** [try { body } catch (e) { handler }] *)
Definition try_catch {W A} (body handler : Async W A) : Async W A :=
  fun st =>
    match body st with
    | (JS.Returns a, st') => (JS.Returns a, st')
    | (JS.Throws, st') => handler st'
    end.

Declare Scope async_scope.
Delimit Scope async_scope with async.
Notation "x <- m ;; k" := (bind m (fun x => k))
  (at level 100, m at next level, right associativity) : async_scope.

(** [for (const row of rows) { acc = body(acc, row) }] with awaits inside the
    body: a throw leaves the loop. *)
Fixpoint for_of {W A R} (body : A -> R -> Async W A) (rows : list R) (acc : A)
    : Async W A :=
  match rows with
  | [] => ret acc
  | row :: rows' => bind (body acc row) (for_of body rows')
  end.

Section Awaited.
Context {W : Type} `{Persistence W}.

Definition await_addParticipant (fields : NewParticipant.t) (clubId : option UUID)
    : Async W (option Participant.t) :=
  fun st =>
    let '(r, w) := addParticipant fields clubId (world st) in
    (r, mkIO w ((calls st ++ [CallAddParticipant fields clubId r])%list)).

Definition await_addClubMembership (participantId clubId : UUID) : Async W bool :=
  fun st =>
    let '(r, w) := addClubMembership participantId clubId (world st) in
    (r, mkIO w ((calls st ++ [CallAddClubMembership participantId clubId r])%list)).

Definition await_addVolunteer (fields : NewVolunteer.t) : Async W unit :=
  fun st =>
    let '(r, w) := addVolunteer fields (world st) in
    (r, mkIO w ((calls st ++ [CallAddVolunteer fields r])%list)).

Definition await_addMultipleParticipants (fields : list NewParticipant.t)
    : Async W nat :=
  fun st =>
    let '(r, w) := addMultipleParticipants fields (world st) in
    (r, mkIO w ((calls st ++ [CallAddMultipleParticipants fields r])%list)).

Definition new_Date : Async W JSDate := fun st => (JS.Returns (Date_now (world st)), st).
End Awaited.

(** ** components/ImportMembersModal.tsx *)

Module ImportMembersModal.

Inductive ImportStatus :=
  | NewParticipant      (* 'New Participant' *)
  | ExistingParticipant (* 'Existing Participant' *)
  | AlreadyAMember      (* 'Already a Member' *)
  | InvalidData.        (* 'Invalid Data' *)

Record PreviewRow := mkRow { data : Row; status : ImportStatus; message : string }.

Record Stats := mkStats { new : nat; existing : nat; skipped : nat }.

Section Dialog.
Variable club : Club.t.
Variable participants : list Participant.t.
Variable clubMemberships : list ClubMembership.t.

(** [p => p.name === row.Name && p.contact === row.Contact] *)
Definition same_person (row : Row) (p : Participant.t) : bool :=
  JS.strict_eq (Participant.name p) (row !! "Name")
  && JS.strict_eq (Participant.contact p) (row !! "Contact").

Definition clubMemberIds : gset UUID :=
  list_to_set
    (map ClubMembership.participantId
       (filter (fun cm => ClubMembership.clubId cm = Club.id club) clubMemberships)).

(** The callback of [data.map] in [processFile]. *)
Definition validate (row : Row) : PreviewRow :=
  if negb (JS.truthy (row !! "Name")) || negb (JS.truthy (row !! "Contact")) then
    mkRow row InvalidData "Missing Name or Contact"
  else
    match List.find (same_person row) participants with
    | Some existingParticipant =>
        if bool_decide (Participant.id existingParticipant ∈ clubMemberIds) then
          mkRow row AlreadyAMember "Will be skipped"
        else
          mkRow row ExistingParticipant "Will be added to club"
    | None => mkRow row NewParticipant "Will be created and added"
    end.

(** [processFile], from the parsed rows to the preview. *)
Definition processFile (data : list Row) : list PreviewRow := map validate data.

(** The participant fields [handleImport] builds for a new row. *)
Definition new_participant_fields (row : Row) : NewParticipant.t :=
  let contestantValue := (fun s => JS.toLowerCase (JS.trim s)) <$> row !! "Contestant" in
  let isContestant := bool_decide (contestantValue = Some "yes") in
  NewParticipant.mk
    (row !! "Name")
    (row !! "Contact")
    (enum_or Gender_values Gender_value (row !! "Gender") Other)
    (enum_or Region_values Region_value (row !! "Region") GreaterAccra)
    (Club.institution club)
    (default "" (JS.or_else (row !! "Ghana Card") (Some "")))
    (Some isContestant)
    true
    false
    "Imported via club CSV upload.".

Context {W : Type} `{Persistence W}.

(** The body of the [for] loop of [handleImport] on the loop state
    [(stats, tempParticipants)]. *)
Definition import_row (acc : Stats * list Participant.t) (row : PreviewRow)
    : Async W (Stats * list Participant.t) :=
  let '(stats, tempParticipants) := acc in
  match status row with
  | InvalidData | AlreadyAMember =>
      ret (mkStats (new stats) (existing stats) (S (skipped stats)), tempParticipants)
  | NewParticipant =>
      (newParticipant <- await_addParticipant (new_participant_fields (data row))
                           (Some (Club.id club)) ;;
       match newParticipant with
       | Some p =>
           ret (mkStats (S (new stats)) (existing stats) (skipped stats),
                (tempParticipants ++ [p])%list)
       | None =>
           (* Failed creation *)
           ret (mkStats (new stats) (existing stats) (S (skipped stats)),
                tempParticipants)
       end)%async
  | ExistingParticipant =>
      match List.find (same_person (data row)) tempParticipants with
      | Some participant =>
          (success <- await_addClubMembership (Participant.id participant)
                        (Club.id club) ;;
           if success : bool then
             ret (mkStats (new stats) (S (existing stats)) (skipped stats),
                  tempParticipants)
           else
             ret (mkStats (new stats) (existing stats) (S (skipped stats)),
                  tempParticipants))%async
      | None =>
          ret (mkStats (new stats) (existing stats) (S (skipped stats)),
               tempParticipants)
      end
  end.

(** [handleImport]: the statistics of the final toast when the promise is
    fulfilled; [Throws] when an awaited call rejects, which leaves the
    loop with no toast. *)
Definition handleImport (previewData : list PreviewRow) : Async W Stats :=
  (acc <- for_of import_row previewData (mkStats 0 0 0, participants) ;;
   ret (fst acc))%async.

(** [importSummary] *)
Definition importSummary (previewData : list PreviewRow) : Stats :=
  foldl (fun acc row =>
           match status row with
           | NewParticipant => mkStats (S (new acc)) (existing acc) (skipped acc)
           | ExistingParticipant => mkStats (new acc) (S (existing acc)) (skipped acc)
           | _ => mkStats (new acc) (existing acc) (S (skipped acc))
           end)
        (mkStats 0 0 0) previewData.
End Dialog.

End ImportMembersModal.

(** ** components/ImportParticipantsModal.tsx (unnamed/part_004) *)

Module ImportParticipantsModal.

Inductive ImportStatus :=
  | NewParticipant            (* 'New Participant' *)
  | ParticipantAlreadyExists  (* 'Participant Already Exists' *)
  | InvalidData.              (* 'Invalid Data' *)

Record PreviewRow := mkRow { data : Row; status : ImportStatus; message : string }.

(** What the dialog reports when [handleImport] is over. *)
Inductive Toast :=
  | NoNewParticipants             (* 'No new participants to import.' *)
  | ImportSuccessful (created : nat)
  | ImportFailed.                 (* 'An error occurred during the import process.' *)

(** [`${p.name.trim().toLowerCase()}_${p.contact.trim()}`] *)
Definition participant_key (p : Participant.t) : string :=
  JS.toLowerCase (JS.trim (Participant.name p)) ++ "_" ++ JS.trim (Participant.contact p).

(** [row.NAMES?.trim() || row.Name?.trim()] *)
Definition row_name (row : Row) : option string :=
  JS.or_else (JS.trim <$> row !! "NAMES") (JS.trim <$> row !! "Name").

(** [row.CONTACT?.trim() || row.Contact?.trim()] *)
Definition row_contact (row : Row) : option string :=
  JS.or_else (JS.trim <$> row !! "CONTACT") (JS.trim <$> row !! "Contact").

(** [Object.values(row).every(val => !val)] *)
Definition every_cell_empty (row : Row) : bool :=
  bool_decide (map_Forall (fun _ val => val = "") row).

Section Dialog.
Variable participants : list Participant.t.

Definition participantMap : gmap string Participant.t :=
  JS.Map_new (map (fun p => (participant_key p, p)) participants).

(** The callback of [parsedRows.map] in [processFile]; [None] is the
    [null] that [filter(Boolean)] removes. *)
Definition validate (row : Row) : option PreviewRow :=
  let name := row_name row in
  let contact := row_contact row in
  if negb (JS.truthy name) && negb (JS.truthy contact) && every_cell_empty row then
    None
  else
    match name, contact with
    | Some (String _ _ as name), Some (String _ _ as contact) =>
        let key := JS.toLowerCase name ++ "_" ++ contact in
        if bool_decide (is_Some (participantMap !! key)) then
          Some (mkRow row ParticipantAlreadyExists "Will be skipped")
        else
          Some (mkRow row NewParticipant "Will be created")
    | _, _ => Some (mkRow row InvalidData "Missing NAMES or CONTACT column")
    end.

(** [processFile], from the parsed rows to the preview; [None] when the
    file has no row ('CSV file is empty or invalid.'). *)
Definition processFile (parsedRows : list Row) : option (list PreviewRow) :=
  match parsedRows with
  | [] => None
  | _ => Some (omap validate parsedRows)
  end.
End Dialog.

(** The object [handleImport] builds for a row to create. *)
Definition new_participant_fields (data : Row) : NewParticipant.t :=
  let lower_trim := fun s => JS.toLowerCase (JS.trim s) in
  let membersValue :=
    JS.or_else (lower_trim <$> data !! "MEMBERS") (lower_trim <$> data !! "Members") in
  let membershipStatus := bool_decide (membersValue = Some "yes") in
  NewParticipant.mk
    (JS.or_else (data !! "NAMES") (data !! "Name"))
    (JS.or_else (data !! "CONTACT") (data !! "Contact"))
    (enum_or Gender_values Gender_value
       (JS.or_else (data !! "GENDER") (data !! "Gender")) Other)
    (enum_or Region_values Region_value
       (JS.or_else (data !! "REGION") (data !! "Region")) GreaterAccra)
    (default ""
       (JS.or_else (JS.or_else (data !! "INSTITUTION") (data !! "Institution"))
          (Some "N/A")))
    (default "" (JS.or_else (data !! "GHANA CARD") (Some "")))
    None
    membershipStatus
    false
    (default ""
       (JS.or_else (JS.or_else (data !! "NOTES") (data !! "Notes"))
          (Some "Imported via CSV."))).

Definition is_new (row : PreviewRow) : bool :=
  match status row with NewParticipant => true | _ => false end.

Definition participantsToCreate (previewData : list PreviewRow) : list NewParticipant.t :=
  map (fun row => new_participant_fields (data row)) (List.filter is_new previewData).

Section Handler.
Context {W : Type} `{Persistence W}.

Definition handleImport (previewData : list PreviewRow) : Async W Toast :=
  match participantsToCreate previewData with
  | [] => ret NoNewParticipants
  | toCreate =>
      try_catch
        (created <- await_addMultipleParticipants toCreate ;;
         ret (ImportSuccessful created))%async
        (ret ImportFailed)
  end.
End Handler.

(** [importSummary], as (new, skipped). *)
Definition importSummary (previewData : list PreviewRow) : nat * nat :=
  foldl (fun acc row => if is_new row then (S acc.1, acc.2) else (acc.1, S acc.2))
    (0, 0) previewData.

End ImportParticipantsModal.

(** ** components/ImportVolunteersModal.tsx (unnamed/part_005) *)

Module ImportVolunteersModal.

Definition VOLUNTEER_ROLES_LIST : list string :=
  ["Event Staff"; "Mentor"; "Logistics"; "Administrative"; "Fundraising"].

Inductive ImportStatus :=
  | NewParticipant      (* 'New Participant' *)
  | ExistingParticipant (* 'Existing Participant' *)
  | AlreadyAVolunteer   (* 'Already a Volunteer' *)
  | InvalidData.        (* 'Invalid Data' *)

Record PreviewRow := mkRow { data : Row; status : ImportStatus; message : string }.

Record Stats := mkStats { new : nat; existing : nat; skipped : nat; failed : nat }.

(** [`${p.name.toLowerCase()}_${p.contact.toLowerCase()}`] *)
Definition participant_key (p : Participant.t) : string :=
  JS.toLowerCase (Participant.name p) ++ "_" ++ JS.toLowerCase (Participant.contact p).

Section Dialog.
Variable participants : list Participant.t.
Variable volunteers : list Volunteer.t.

Definition volunteerParticipantIds : gset UUID :=
  list_to_set (map Volunteer.participantId volunteers).

Definition participantMap : gmap string Participant.t :=
  JS.Map_new (map (fun p => (participant_key p, p)) participants).

(** The callback of [data.map] in [processFile]. *)
Definition validate (row : Row) : PreviewRow :=
  let name := JS.trim <$> row !! "Name" in
  let contact := JS.trim <$> row !! "Contact" in
  let role := JS.trim <$> row !! "Role" in
  match name, contact, role with
  | Some (String _ _ as name), Some (String _ _ as contact), Some (String _ _ as role) =>
      if negb (bool_decide (role ∈ VOLUNTEER_ROLES_LIST)) then
        mkRow row InvalidData ("Invalid role: " ++ role)
      else
        let key := JS.toLowerCase name ++ "_" ++ JS.toLowerCase contact in
        match participantMap !! key with
        | Some existingParticipant =>
            if bool_decide (Participant.id existingParticipant ∈ volunteerParticipantIds)
            then mkRow row AlreadyAVolunteer "This person is already a volunteer."
            else mkRow row ExistingParticipant "Will be converted to a volunteer."
        | None => mkRow row NewParticipant "Will be created and added as a volunteer."
        end
  | _, _, _ => mkRow row InvalidData "Missing Name, Contact, or Role"
  end.

(** [processFile], from the parsed rows to the preview; [None] when the
    file has no row. *)
Definition processFile (data : list Row) : option (list PreviewRow) :=
  match data with
  | [] => None
  | _ => Some (map validate data)
  end.

(** The participant fields [handleImport] builds for a new row. *)
Definition new_participant_fields (row : Row) : NewParticipant.t :=
  NewParticipant.mk
    (row !! "Name")
    (row !! "Contact")
    (enum_or Gender_values Gender_value (row !! "Gender") Other)
    (enum_or Region_values Region_value (row !! "Region") GreaterAccra)
    (default "" (JS.or_else (row !! "Institution") (Some "N/A")))
    (default "" (JS.or_else (row !! "Ghana Card") (Some "")))
    None
    true
    false
    "Imported via volunteer CSV upload.".

Context {W : Type} `{Persistence W} `{Runtime}.

(** [row.data.StartDate ? new Date(row.data.StartDate) : new Date()],
    followed by the [isNaN] check that throws. *)
Definition start_date (row : Row) : Async W JSDate :=
  match row !! "StartDate" with
  | Some (String _ _ as s) =>
      match Date_parse s with
      | Some d => ret d
      | None => throw
      end
  | _ => new_Date
  end.

(** The body of the [try] block for a row that is not skipped. No
    statement follows an update of [stats] in the block, so nothing that
    throws has changed [stats]. *)
Definition try_row (stats : Stats) (row : PreviewRow) : Async W Stats :=
  (startDate <- start_date (data row) ;;
   match status row with
   | NewParticipant =>
       newParticipant <- await_addParticipant (new_participant_fields (data row)) None ;;
       match newParticipant with
       | Some p =>
           _ <- await_addVolunteer
                  (NewVolunteer.mk (Participant.id p) (data row !! "Role") Active startDate) ;;
           ret (mkStats (S (new stats)) (existing stats) (skipped stats) (failed stats))
       | None =>
           ret (mkStats (new stats) (existing stats) (skipped stats) (S (failed stats)))
       end
   | ExistingParticipant =>
       match data row !! "Name", data row !! "Contact" with
       | Some name, Some contact =>
           let key := JS.toLowerCase name ++ "_" ++ JS.toLowerCase contact in
           match participantMap !! key with
           | Some participant =>
               _ <- await_addVolunteer
                      (NewVolunteer.mk (Participant.id participant) (data row !! "Role")
                         Active startDate) ;;
               ret (mkStats (new stats) (S (existing stats)) (skipped stats) (failed stats))
           | None =>
               ret (mkStats (new stats) (existing stats) (skipped stats) (S (failed stats)))
           end
       | _, _ => throw (* TypeError: toLowerCase of undefined *)
       end
   | _ => ret stats
   end)%async.

(** The body of the [for] loop of [handleImport]. *)
Definition import_row (stats : Stats) (row : PreviewRow) : Async W Stats :=
  match status row with
  | InvalidData | AlreadyAVolunteer =>
      ret (mkStats (new stats) (existing stats) (S (skipped stats)) (failed stats))
  | _ =>
      try_catch (try_row stats row)
        (ret (mkStats (new stats) (existing stats) (skipped stats) (S (failed stats))))
  end.

Definition handleImport (previewData : list PreviewRow) : Async W Stats :=
  for_of import_row previewData (mkStats 0 0 0 0).
End Dialog.

(** [importSummary], as (new, existing, skipped). *)
Definition importSummary (previewData : list PreviewRow) : nat * nat * nat :=
  foldl (fun acc row =>
           match status row with
           | NewParticipant => (S acc.1.1, acc.1.2, acc.2)
           | ExistingParticipant => (acc.1.1, S acc.1.2, acc.2)
           | _ => (acc.1.1, acc.1.2, S acc.2)
           end)
        (0, 0, 0) previewData.

End ImportVolunteersModal.

(** ** components/ExportParticipantsModal.tsx *)

Module ExportParticipantsModal.

(** [keyof typeof ALL_COLUMNS] *)
Inductive ColumnKey :=
  | membershipId | name | contact | institution | membershipStatus
  | engagementScore | isContestant | ghanaCardNumber | gender | region
  | createdAt | certificateIssued | notes | lastMembershipCardGeneratedAt.

#[global] Instance ColumnKey_eq_dec : EqDecision ColumnKey.
Proof. solve_decision. Defined.

Definition ColumnKey_index (key : ColumnKey) : nat :=
  match key with
  | membershipId => 0 | name => 1 | contact => 2 | institution => 3
  | membershipStatus => 4 | engagementScore => 5 | isContestant => 6
  | ghanaCardNumber => 7 | gender => 8 | region => 9 | createdAt => 10
  | certificateIssued => 11 | notes => 12 | lastMembershipCardGeneratedAt => 13
  end.

(** [ALL_COLUMNS], in the order of its keys: key, label, default. *)
Definition ALL_COLUMNS : list (ColumnKey * (string * bool)) :=
  [ (membershipId, ("Membership ID", true));
    (name, ("Name", true));
    (contact, ("Contact", true));
    (institution, ("Institution", true));
    (membershipStatus, ("Membership Status", true));
    (engagementScore, ("Engagement Score", true));
    (isContestant, ("Is Contestant", false));
    (ghanaCardNumber, ("Ghana Card", false));
    (gender, ("Gender", false));
    (region, ("Region", false));
    (createdAt, ("Date Joined", false));
    (certificateIssued, ("Certificate Issued", false));
    (notes, ("Notes", false));
    (lastMembershipCardGeneratedAt, ("Last Card Generated", false)) ].

Definition ColumnKey_of_index (n : nat) : option ColumnKey := fst <$> ALL_COLUMNS !! n.

#[global] Instance ColumnKey_countable : Countable ColumnKey.
Proof.
  apply (inj_countable ColumnKey_index ColumnKey_of_index).
  intros []; reflexivity.
Defined.

(** [ALL_COLUMNS[key].label] *)
Definition label (key : ColumnKey) : string :=
  match List.find (fun c => bool_decide (c.1 = key)) ALL_COLUMNS with
  | Some c => c.2.1
  | None => ""
  end.

(** The values a field of a participant holds at run time. *)
Inductive value :=
  | VString (s : string)
  | VNumber (n : Z)
  | VBoolean (b : bool)
  | VDate (d : JSDate)
  | VUndefined
  | VNull.

Definition optional {A} (inj : A -> value) (o : option A) : value :=
  match o with Some a => inj a | None => VUndefined end.

(** [participant[key as keyof Participant]] *)
Definition field (participant : Participant.t) (key : ColumnKey) : value :=
  match key with
  | membershipId => VString (Participant.membershipId participant)
  | name => VString (Participant.name participant)
  | contact => VString (Participant.contact participant)
  | institution => VString (Participant.institution participant)
  | membershipStatus => VBoolean (Participant.membershipStatus participant)
  | engagementScore => optional VNumber (Participant.engagementScore participant)
  | isContestant => optional VBoolean (Participant.isContestant participant)
  | ghanaCardNumber => optional VString (Participant.ghanaCardNumber participant)
  | gender => VString (Gender_value (Participant.gender participant))
  | region => VString (Region_value (Participant.region participant))
  | createdAt => VDate (Participant.createdAt participant)
  | certificateIssued => VBoolean (Participant.certificateIssued participant)
  | notes => VString (Participant.notes participant)
  | lastMembershipCardGeneratedAt =>
      optional VDate (Participant.lastMembershipCardGeneratedAt participant)
  end.

(** [exportedRow[header] = value] on an object kept in the order in which
    its keys were first set. *)
Fixpoint set_property (o : list (string * value)) (header : string) (v : value)
    : list (string * value) :=
  match o with
  | [] => [(header, v)]
  | (h, v') :: o' =>
      if String.eqb h header then (h, v) :: o' else (h, v') :: set_property o' header v
  end.

(** [exportedRow[header]] *)
Fixpoint get_property (o : list (string * value)) (header : string) : option value :=
  match o with
  | [] => None
  | (h, v) :: o' => if String.eqb h header then Some v else get_property o' header
  end.

Inductive Outcome :=
  | NoParticipants   (* 'There are no participants to export with the current filters.' *)
  | NoColumns        (* 'Please select at least one column to export.' *)
  | Exported (dataToExport : list (list (string * value))).

Section Dialog.
Context `{Runtime}.

(** The [if] chain that formats a value in [handleExport]. *)
Definition format (v : value) : value :=
  match v with
  | VDate d => VString (toLocaleDateString d)
  | VBoolean b => VString (if b then "Yes" else "No")
  | VUndefined | VNull => VString ""
  | _ => v
  end.

Definition orderedColumns (selectedColumns : gset ColumnKey) : list ColumnKey :=
  List.filter (fun key => bool_decide (key ∈ selectedColumns)) (map fst ALL_COLUMNS).

(** The callback of [participantsToExport.map]. *)
Definition exportedRow (selectedColumns : gset ColumnKey) (participant : Participant.t)
    : list (string * value) :=
  foldl (fun row key => set_property row (label key) (format (field participant key)))
    [] (orderedColumns selectedColumns).

Definition handleExport (participantsToExport : list Participant.t)
    (selectedColumns : gset ColumnKey) : Outcome :=
  if Nat.eqb (length participantsToExport) 0 then NoParticipants
  else if Nat.eqb (size selectedColumns) 0 then NoColumns
  else Exported (map (exportedRow selectedColumns) participantsToExport).
End Dialog.

(** The initial selection and [handleColumnChange]. *)
Definition default_columns : gset ColumnKey :=
  list_to_set (map fst (List.filter (fun c => c.2.2) ALL_COLUMNS)).

Definition handleColumnChange (key : ColumnKey) (prev : gset ColumnKey) : gset ColumnKey :=
  if bool_decide (key ∈ prev) then prev ∖ {[key]} else prev ∪ {[key]}.

End ExportParticipantsModal.

(** ** components/AddMemberModal.tsx (unnamed/part_001) *)

Module AddMemberModal.

Section Dialog.
Context `{Locale}.
Variable club : Club.t.
Variable participants : list Participant.t.
Variable currentMemberIds : gset UUID.

(** The callback of [participants.filter] in [availableParticipants]. *)
Definition is_available (searchTerm : string) (p : Participant.t) : bool :=
  String.eqb (Participant.institution p) (Club.institution club)
  && negb (bool_decide (Participant.id p ∈ currentMemberIds))
  && JS.includes (JS.toLowerCase (Participant.name p)) (JS.toLowerCase searchTerm).

Definition availableParticipants (searchTerm : string) : list Participant.t :=
  JS.sort (fun a b => localeCompare (Participant.name a) (Participant.name b))
    (List.filter (is_available searchTerm) participants).

Definition handleSelect (id : UUID) (prev : list UUID) : list UUID :=
  if JS.Set_has prev id then JS.Set_delete prev id else JS.Set_add prev id.

Context {W : Type} `{Persistence W}.

(** [handleAddExisting]: the count of the final toast. *)
Definition handleAddExisting (selectedIds : list UUID) : Async W nat :=
  for_of (fun addedCount pid =>
            (success <- await_addClubMembership pid (Club.id club) ;;
             ret (if success : bool then S addedCount else addedCount))%async)
    selectedIds 0.

(** [handleCreateNew]: the name in the success toast, [None] for the error
    toast. *)
Definition handleCreateNew (data : NewParticipant.t) : Async W (option string) :=
  (newParticipant <- await_addParticipant data (Some (Club.id club)) ;;
   ret (Participant.name <$> newParticipant))%async.
End Dialog.

End AddMemberModal.

(** ** components/EventDetailPanel.tsx (unnamed/part_003) *)

Module EventDetailPanel.

Definition canManageEvent (currentUserRole : UserRole) : bool :=
  bool_decide (UserRole_value currentUserRole ∈ ["Super Admin"; "Admin"; "Organizer"]).

Definition handleSelectForRegistration (participantId : UUID) (isSelected : bool)
    (prev : list UUID) : list UUID :=
  if isSelected then JS.Set_add prev participantId else JS.Set_delete prev participantId.

Section Panel.
Context `{Locale}.
Variable event : Event.t.
Variable participants : list Participant.t.
Variable participations : list Participation.t.

Definition by_name (a b : Participant.t) : Z :=
  localeCompare (Participant.name a) (Participant.name b).

Definition attendees : list Participant.t :=
  let attendeeIds : gset UUID :=
    list_to_set
      (map Participation.participantId
         (List.filter (fun p => String.eqb (Participation.eventId p) (Event.id event))
            participations)) in
  JS.sort by_name
    (List.filter (fun p => bool_decide (Participant.id p ∈ attendeeIds)) participants).

Definition availableToRegister (searchExisting : string) : list Participant.t :=
  let attendeeIds : gset UUID := list_to_set (map Participant.id attendees) in
  JS.sort by_name
    (List.filter
       (fun p => negb (bool_decide (Participant.id p ∈ attendeeIds))
                 && JS.includes (JS.toLowerCase (Participant.name p))
                      (JS.toLowerCase searchExisting))
       participants).

Definition filteredAttendees (searchAttendees : string) : list Participant.t :=
  List.filter
    (fun a => JS.includes (JS.toLowerCase (Participant.name a))
                (JS.toLowerCase searchAttendees))
    attendees.
End Panel.

End EventDetailPanel.

(** ** components/ParticipantsView.tsx (unnamed/part_005) *)

Module ParticipantsView.

Definition canManage (currentUserRole : UserRole) : bool :=
  bool_decide (UserRole_value currentUserRole ∈ ["Super Admin"; "Admin"]).

(** [availableClubs] of [ParticipantForm]. *)
Definition availableClubs (clubs : list Club.t) (institution : string) : list Club.t :=
  match institution with
  | EmptyString => []
  | _ => List.filter (fun c => String.eqb (Club.institution c) institution) clubs
  end.

Section View.
Context `{Locale}.
Variable participants : list Participant.t.
Variable participations : list Participation.t.

(** [selectedEventId] is the id of an event or ['all']. *)
Definition filteredParticipants (searchTerm selectedEventId : string)
    : list Participant.t :=
  let filtered :=
    if negb (String.eqb selectedEventId "all") then
      let attendeeIds : gset UUID :=
        list_to_set
          (map Participation.participantId
             (List.filter (fun p => String.eqb (Participation.eventId p) selectedEventId)
                participations)) in
      List.filter (fun p => bool_decide (Participant.id p ∈ attendeeIds)) participants
    else participants in
  let filtered :=
    match searchTerm with
    | EmptyString => filtered
    | _ =>
        let lowercasedFilter := JS.toLowerCase searchTerm in
        List.filter
          (fun p => JS.includes (JS.toLowerCase (Participant.name p)) lowercasedFilter
                    || JS.includes (JS.toLowerCase (Participant.institution p))
                         lowercasedFilter)
          filtered
    end in
  JS.sort (fun a b => localeCompare (Participant.name a) (Participant.name b)) filtered.
End View.

Definition handleSelectAll (checked : bool) (filteredParticipants : list Participant.t)
    : list UUID :=
  if checked then JS.Set_of (map Participant.id filteredParticipants) else [].

Definition handleSelectOne (id : UUID) (prev : list UUID) : list UUID :=
  if JS.Set_has prev id then JS.Set_delete prev id else JS.Set_add prev id.

Definition allVisibleSelected (filteredParticipants : list Participant.t)
    (selectedIds : list UUID) : bool :=
  (0 <? length filteredParticipants)%nat
  && (length selectedIds =? length filteredParticipants)%nat.

Definition isIndeterminate (filteredParticipants : list Participant.t)
    (selectedIds : list UUID) : bool :=
  (0 <? length selectedIds)%nat
  && negb (allVisibleSelected filteredParticipants selectedIds).

End ParticipantsView.

(** ** An in-memory persistence layer

    The dialogs are verified against every persistence layer. The examples,
    and the properties of importing a file a second time, need one that
    runs. *)

Module Store.

(** Modelled from the spec: the persistence layer ([hooks/usePIMSData]) is not
    among the sources. The spec gives its operations as
    [addParticipant(fields, clubId?) -> Participant|null],
    [addClubMembership(participantId, clubId) -> bool],
    [addVolunteer(fields) -> any] and
    [addMultipleParticipants(fields[]) -> {created}], with at most one
    membership row per participant and club; the dialogs that call
    [addParticipant] with a club report the participant as created and added
    to the club. [Store.t] holds the three collections, and the operations
    below append to them. *)
Record t := mk {
  participants : list Participant.t;
  clubMemberships : list ClubMembership.t;
  volunteers : list Volunteer.t;
  clock : JSDate
}.

Fixpoint tally (n : nat) : string :=
  match n with
  | O => ""
  | S n' => String "I" (tally n')
  end.

Definition create (fields : NewParticipant.t) (s : t) : Participant.t :=
  Participant.mk
    ("p-" ++ tally (length (participants s)))
    (default "" (NewParticipant.name fields))
    (NewParticipant.gender fields)
    (NewParticipant.institution fields)
    (NewParticipant.region fields)
    (default "" (NewParticipant.contact fields))
    (NewParticipant.membershipStatus fields)
    (NewParticipant.certificateIssued fields)
    (NewParticipant.isContestant fields)
    (NewParticipant.notes fields)
    (clock s)
    ("YIN-" ++ tally (length (participants s)))
    (Some (NewParticipant.ghanaCardNumber fields))
    None None None.

Definition is_member (participantId clubId : UUID) (s : t) : bool :=
  existsb (fun cm => String.eqb (ClubMembership.participantId cm) participantId
                     && String.eqb (ClubMembership.clubId cm) clubId)
    (clubMemberships s).

Definition join (participantId clubId : UUID) (s : t) : t :=
  mk (participants s)
     (clubMemberships s ++ [ClubMembership.mk participantId clubId (clock s)])%list
     (volunteers s) (clock s).

Definition add_participant (fields : NewParticipant.t) (clubId : option UUID) (s : t)
    : Participant.t * t :=
  let p := create fields s in
  let s' := mk (participants s ++ [p])%list (clubMemberships s) (volunteers s) (clock s) in
  (p, match clubId with Some c => join (Participant.id p) c s' | None => s' end).

Definition add_club_membership (participantId clubId : UUID) (s : t) : bool * t :=
  if is_member participantId clubId s then (false, s)
  else (true, join participantId clubId s).

Definition add_volunteer (fields : NewVolunteer.t) (s : t) : t :=
  let role :=
    enum_or [EventStaff; Mentor; Logistics; Administrative; Fundraising]
      VolunteerRole_value (NewVolunteer.role fields) EventStaff in
  let v :=
    Volunteer.mk ("v-" ++ tally (length (volunteers s)))
      (NewVolunteer.participantId fields) role
      (NewVolunteer.status fields) (NewVolunteer.startDate fields) in
  mk (participants s) (clubMemberships s) (volunteers s ++ [v])%list (clock s).

Definition add_multiple_participants (fields : list NewParticipant.t) (s : t) : nat * t :=
  (length fields, foldl (fun s f => snd (add_participant f None s)) s fields).

#[global] Instance persistence : Persistence t := {
  addParticipant fields clubId s :=
    let '(p, s') := add_participant fields clubId s in (JS.Returns (Some p), s');
  addClubMembership participantId clubId s :=
    let '(b, s') := add_club_membership participantId clubId s in (JS.Returns b, s');
  addVolunteer fields s := (JS.Returns tt, add_volunteer fields s);
  addMultipleParticipants fields s :=
    let '(n, s') := add_multiple_participants fields s in (JS.Returns n, s');
  Date_now := clock
}.

Definition empty : t := mk [] [] [] 0%Z.

End Store.

Module Faulty.

(** Modelled from the spec: the operations of the persistence layer are
    fallible, returning the created entity, a success flag, or throwing.
    [Faulty] runs a [Store] under a script that says what each next call
    does: succeed, return a falsy value and write nothing, or reject. *)
Inductive Fault := Pass | Falsy | Reject.

Definition t : Type := Store.t * list Fault.

Definition next (w : t) : Fault * t :=
  match w.2 with
  | [] => (Pass, w)
  | f :: script => (f, (w.1, script))
  end.

Definition call {A} (run : Store.t -> JS.result A * Store.t) (falsy : A) (w : t)
    : JS.result A * t :=
  let '(f, (s, script)) := next w in
  match f with
  | Pass => let '(r, s') := run s in (r, (s', script))
  | Falsy => (JS.Returns falsy, (s, script))
  | Reject => (JS.Throws, (s, script))
  end.

#[global] Instance persistence : Persistence t := {
  addParticipant fields clubId := call (addParticipant fields clubId) None;
  addClubMembership participantId clubId :=
    call (addClubMembership participantId clubId) false;
  addVolunteer fields := call (addVolunteer fields) tt;
  addMultipleParticipants fields := call (addMultipleParticipants fields) 0;
  Date_now w := Store.clock w.1
}.

End Faulty.

(** A host for the examples: it parses one date string, and prints dates as
    en-US does for that date. *)
Module ExampleHost.

#[global] Instance runtime : Runtime := {
  Date_parse s := if String.eqb s "2024-08-01" then Some 1722470400000%Z else None;
  toLocaleDateString d := if Z.eqb d 1722470400000 then "8/1/2024" else "Invalid Date"
}.

End ExampleHost.

(** A locale for the examples: strings compare by their code units. *)
Module ExampleLocale.

#[global] Instance locale : Locale := {
  localeCompare a b :=
    match String.compare a b with
    | Lt => (-1)%Z
    | Eq => 0%Z
    | Gt => 1%Z
    end
}.

End ExampleLocale.

(** Running a dialog's computation from a state of the persistence layer,
    with an empty log. *)
Definition run {W A} (m : Async W A) (w : W) : JS.result A * IOState W := m (mkIO w []).

(** ** The vocabulary of the specification *)

Module Spec.

(** The composite key of the specification:
    [lowercase(trim(name)) + "_" + trim(contact)]. *)
Definition composite_key (name contact : string) : string :=
  JS.toLowerCase (JS.trim name) ++ "_" ++ JS.trim contact.

(** A cell that is missing or consists only of white space. *)
Definition blank (cell : option string) : Prop :=
  match cell with
  | Some s => JS.trim s = ""
  | None => True
  end.

(** A row in which every cell is empty. *)
Definition fully_blank (row : Row) : Prop := map_Forall (fun _ cell => cell = "") row.

(** The rows counted by the summary of the club import and of the
    volunteers import. *)
Definition club_total (stats : ImportMembersModal.Stats) : nat :=
  ImportMembersModal.new stats + ImportMembersModal.existing stats
  + ImportMembersModal.skipped stats.

Definition volunteers_total (stats : ImportVolunteersModal.Stats) : nat :=
  ImportVolunteersModal.new stats + ImportVolunteersModal.existing stats
  + ImportVolunteersModal.skipped stats + ImportVolunteersModal.failed stats.

(** Each awaited call of the club import returns rather than throws. *)
Definition club_calls_return (W : Type) `{Persistence W} : Prop :=
  (forall fields clubId w, fst (addParticipant fields clubId w) <> JS.Throws)
  /\ (forall participantId clubId w,
        fst (addClubMembership participantId clubId w) <> JS.Throws).

(** The participants that the calls of a log created. *)
Definition created_participants (log : list Call) : list Participant.t :=
  omap (fun c => match c with
                 | CallAddParticipant _ _ (JS.Returns (Some p)) => Some p
                 | _ => None
                 end) log.

(** A row of the club import that a further import would leave alone. *)
Definition settled (status : ImportMembersModal.ImportStatus) : Prop :=
  status = ImportMembersModal.InvalidData \/ status = ImportMembersModal.AlreadyAMember.

(** A participant and a club with their institution replaced. *)
Definition move_participant (institution : string) (p : Participant.t) : Participant.t :=
  Participant.mk (Participant.id p) (Participant.name p) (Participant.gender p)
    institution (Participant.region p) (Participant.contact p)
    (Participant.membershipStatus p) (Participant.certificateIssued p)
    (Participant.isContestant p) (Participant.notes p) (Participant.createdAt p)
    (Participant.membershipId p) (Participant.ghanaCardNumber p)
    (Participant.engagementScore p) (Participant.lastMembershipCardGeneratedAt p)
    (Participant.photoUrl p).

Definition move_club (institution : string) (club : Club.t) : Club.t :=
  Club.mk (Club.id club) (Club.name club) (Club.description club) institution
    (Club.createdAt club).

(** The name and contact cells that the participants importer reads when it
    classifies a row are the cells that it writes when it creates the
    participant. *)
Definition reads_what_it_writes (row : Row) : Prop :=
  ImportParticipantsModal.row_name row
  = JS.trim <$> JS.or_else (row !! "NAMES") (row !! "Name")
  /\ ImportParticipantsModal.row_contact row
     = JS.trim <$> JS.or_else (row !! "CONTACT") (row !! "Contact").

(** A call that the club import makes for [club]: a participant is created
    in the club, at the institution of the club and as a member, or a
    membership of the club is added. *)
Definition club_call (club : Club.t) (c : Call) : Prop :=
  match c with
  | CallAddParticipant fields clubId _ =>
      clubId = Some (Club.id club)
      /\ NewParticipant.institution fields = Club.institution club
      /\ NewParticipant.membershipStatus fields = true
  | CallAddClubMembership _ clubId _ => clubId = Club.id club
  | _ => False
  end.

(** A call that the volunteers import makes: a participant is created
    outside any club, or an active volunteer is added. *)
Definition volunteers_call (c : Call) : Prop :=
  match c with
  | CallAddParticipant fields clubId _ =>
      clubId = None /\ NewParticipant.membershipStatus fields = true
  | CallAddVolunteer fields _ => NewVolunteer.status fields = Active
  | _ => False
  end.

(** A call that returned, with the entity it created or with [true]. *)
Definition call_succeeded (c : Call) : Prop :=
  match c with
  | CallAddParticipant _ _ r => exists p, r = JS.Returns (Some p)
  | CallAddClubMembership _ _ r => r = JS.Returns true
  | CallAddVolunteer _ r => r = JS.Returns tt
  | CallAddMultipleParticipants _ r => r <> JS.Throws
  end.

(** The participants for whom a log asks a club membership, a volunteer. *)
Definition joined_ids (log : list Call) : list UUID :=
  omap (fun c => match c with
                 | CallAddClubMembership participantId _ _ => Some participantId
                 | _ => None
                 end) log.

Definition volunteered_ids (log : list Call) : list UUID :=
  omap (fun c => match c with
                 | CallAddVolunteer fields _ => Some (NewVolunteer.participantId fields)
                 | _ => None
                 end) log.

(** A call that adds a volunteer adds it with this role and start date. *)
Definition volunteer_call_with (role : option string) (startDate : JSDate) (c : Call)
    : Prop :=
  match c with
  | CallAddVolunteer fields _ =>
      NewVolunteer.role fields = role /\ NewVolunteer.startDate fields = startDate
  | _ => True
  end.

End Spec.

(** ** Sample data *)

Module Sample.

Definition jane : Participant.t :=
  Participant.mk "p1" "Jane Doe" Female "KNUST" Ashanti "X" true false None ""
    0%Z "YIN-1" None None None None.

Definition debate : Club.t := Club.mk "c1" "Debate" "" "UG" 0%Z.

Definition jane_in_debate : ClubMembership.t := ClubMembership.mk "p1" "c1" 0%Z.

Definition row_jane : Row := {[ "Name" := "Jane Doe"; "Contact" := "X" ]}.
Definition row_jane_lower : Row := {[ "Name" := "jane doe"; "Contact" := "X" ]}.
Definition row_jane_mentor : Row :=
  {[ "Name" := "Jane Doe"; "Contact" := "X"; "Role" := "Mentor" ]}.
Definition row_jane_mentor_small_x : Row :=
  {[ "Name" := "Jane Doe"; "Contact" := "x"; "Role" := "Mentor" ]}.
Definition row_bob_mentor : Row :=
  {[ "Name" := "Bob"; "Contact" := "1"; "Role" := "Mentor" ]}.
Definition row_padded_bob_mentor : Row :=
  {[ "Name" := " Bob"; "Contact" := "1"; "Role" := "Mentor" ]}.
Definition row_empty_cells : Row := {[ "Name" := ""; "Contact" := "" ]}.
Definition row_empty_cells_upper : Row := {[ "NAMES" := ""; "CONTACT" := "" ]}.
Definition row_white_name : Row := {[ "Name" := "  "; "Contact" := "1" ]}.
Definition row_two_name_columns : Row :=
  {[ "NAMES" := "  "; "Name" := "Bob"; "CONTACT" := "1" ]}.

Definition row_bob : Row := {[ "Name" := "Bob"; "Contact" := "1" ]}.

(** Preview rows of the club import. *)
Definition club_new_jane : ImportMembersModal.PreviewRow :=
  ImportMembersModal.mkRow row_jane ImportMembersModal.NewParticipant
    "Will be created and added".
Definition club_new_bob : ImportMembersModal.PreviewRow :=
  ImportMembersModal.mkRow row_bob ImportMembersModal.NewParticipant
    "Will be created and added".
Definition club_existing_jane : ImportMembersModal.PreviewRow :=
  ImportMembersModal.mkRow row_jane ImportMembersModal.ExistingParticipant
    "Will be added to club".

(** Preview rows of the volunteers import. *)
Definition volunteer_new_bob : ImportVolunteersModal.PreviewRow :=
  ImportVolunteersModal.mkRow row_bob_mentor ImportVolunteersModal.NewParticipant
    "Will be created and added as a volunteer.".
Definition volunteer_existing_bob : ImportVolunteersModal.PreviewRow :=
  ImportVolunteersModal.mkRow row_bob_mentor ImportVolunteersModal.ExistingParticipant
    "Will be converted to a volunteer.".
Definition volunteer_existing_jane : ImportVolunteersModal.PreviewRow :=
  ImportVolunteersModal.mkRow row_jane_mentor ImportVolunteersModal.ExistingParticipant
    "Will be converted to a volunteer.".

Definition bob : Participant.t :=
  Participant.mk "p2" "Bob" Male "UG" GreaterAccra "1" true false None ""
    0%Z "YIN-2" None None None None.

Definition gala : Event.t := Event.mk "e1" "Gala" 0%Z 2024%Z "Accra" "Social".

Definition jane_at_gala : Participation.t := Participation.mk "p1" "e1".

Definition row_bob_lower : Row := {[ "Name" := "bob"; "Contact" := "1" ]}.

Definition club_existing_bob : ImportMembersModal.PreviewRow :=
  ImportMembersModal.mkRow row_bob ImportMembersModal.ExistingParticipant
    "Will be added to club".

End Sample.

(** * Properties *)

(** ** Strings and maps *)

Module JSFacts.
Import JS.

Lemma trimEnd_head s c t : trimEnd s = String c t -> exists s', s = String c s'.
Proof.
  destruct s as [|a s']; simpl; [discriminate|].
  destruct (trimEnd s'); [destruct (is_white_space a)|]; intros E;
    inversion E; subst; eauto.
Qed.

Lemma trimStart_head s c t : trimStart s = String c t -> is_white_space c = false.
Proof.
  induction s as [|a s' IH]; simpl; [discriminate|].
  destruct (is_white_space a) eqn:Ea; [exact IH|].
  intros E; inversion E; subst; exact Ea.
Qed.

Lemma trimEnd_idem s : trimEnd (trimEnd s) = trimEnd s.
Proof.
  induction s as [|a s' IH]; simpl; [reflexivity|].
  destruct (trimEnd s') as [|b t] eqn:Et.
  - destruct (is_white_space a) eqn:Ea; simpl; [reflexivity|]. now rewrite Ea.
  - change (trimEnd (String a (String b t))) with
      (match trimEnd (String b t) with
       | EmptyString => if is_white_space a then EmptyString else String a EmptyString
       | u => String a u
       end).
    now rewrite IH.
Qed.

Lemma trimStart_trim s : trimStart (trim s) = trim s.
Proof.
  unfold trim. destruct (trimEnd (trimStart s)) as [|c t] eqn:E; [reflexivity|].
  destruct (trimEnd_head _ _ _ E) as [u Hu].
  apply trimStart_head in Hu. simpl. now rewrite Hu.
Qed.

Lemma trim_idem s : trim (trim s) = trim s.
Proof.
  unfold trim at 1. rewrite trimStart_trim. unfold trim. apply trimEnd_idem.
Qed.

Lemma truthy_Some s : truthy (Some s) = true <-> s <> "".
Proof. destruct s; simpl; split; intros; congruence. Qed.

Lemma truthy_spec v : truthy v = true <-> exists c s, v = Some (String c s).
Proof.
  destruct v as [[|c s]|]; simpl; split; try discriminate; eauto;
    intros (? & ? & ?); discriminate.
Qed.

Lemma strict_eq_true a b : strict_eq a b = true <-> b = Some a.
Proof.
  destruct b as [b|]; simpl; [|split; discriminate].
  rewrite String.eqb_eq. split; congruence.
Qed.

(** A key is in [new Map(entries)] exactly when an entry has it. *)
Lemma Map_new_is_Some {V} (entries : list (string * V)) (k : string) :
  is_Some (Map_new entries !! k) <-> k ∈ entries.*1.
Proof.
  unfold Map_new.
  enough (forall m : gmap string V,
             is_Some (foldl (fun m kv => <[kv.1 := kv.2]> m) m entries !! k)
             <-> is_Some (m !! k) \/ k ∈ entries.*1) as Hgen.
  { rewrite Hgen, lookup_empty. split; [intros [[? ?]|]; [discriminate|done]|auto]. }
  induction entries as [|[k' v] entries IH]; intros m; simpl.
  - rewrite elem_of_nil. tauto.
  - rewrite IH, lookup_insert_is_Some, elem_of_cons.
    simpl. destruct (decide (k' = k)) as [->|Hne]; [tauto|].
    split; [intros [[?|[_ ?]]|?]|intros [?|[?|?]]]; auto; congruence.
Qed.

(** What [get] finds is the value of an entry with that key. *)
Lemma Map_new_lookup_Some {V} (entries : list (string * V)) (k : string) (v : V) :
  Map_new entries !! k = Some v -> (k, v) ∈ entries.
Proof.
  unfold Map_new.
  enough (forall m : gmap string V,
             foldl (fun m kv => <[kv.1 := kv.2]> m) m entries !! k = Some v ->
             m !! k = Some v \/ (k, v) ∈ entries) as Hgen.
  { intros E. destruct (Hgen _ E) as [E'|]; [|done]. now rewrite lookup_empty in E'. }
  induction entries as [|[k' v'] entries IH]; intros m; simpl; [auto|].
  intros E. destruct (IH _ E) as [E'|E']; [|right; now apply elem_of_cons; right].
  rewrite lookup_insert in E'. case_decide; [|auto].
  right. apply elem_of_cons; left. congruence.
Qed.

Lemma keyed_entries {V} (key : V -> string) (l : list V) (k : string) :
  k ∈ (map (fun p => (key p, p)) l).*1 <-> exists p, p ∈ l /\ key p = k.
Proof.
  induction l as [|q l IH]; simpl.
  - rewrite elem_of_nil. split; [tauto|]. intros (p & Hp & _). now apply elem_of_nil in Hp.
  - rewrite elem_of_cons, IH. split.
    + intros [->|(p & Hp & <-)]; [exists q|exists p]; rewrite elem_of_cons; auto.
    + intros (p & Hp & <-). apply elem_of_cons in Hp as [->|Hp]; eauto.
Qed.

Lemma find_some_iff {A} (f : A -> bool) (l : list A) :
  (exists x, List.find f l = Some x) <-> exists x, x ∈ l /\ f x = true.
Proof.
  split.
  - intros (x & Hx). apply find_some in Hx as [Hin Hf]. exists x.
    split; [now apply list_elem_of_In|done].
  - intros (x & Hin & Hf). destruct (List.find f l) eqn:E; [eauto|].
    apply list_elem_of_In in Hin. pose proof (find_none _ _ E _ Hin). congruence.
Qed.

End JSFacts.

(** ** Row classification *)

Module ClassifyFacts.
Import JS JSFacts.

Lemma fully_blank_cell (row : Row) (k : string) :
  Spec.fully_blank row -> truthy (row !! k) = false /\ truthy (trim <$> row !! k) = false.
Proof.
  intros Hb. destruct (row !! k) as [v|] eqn:E; [|done].
  apply Hb in E. now subst v.
Qed.

Lemma blank_falsy (cell : option string) :
  Spec.blank cell <-> truthy (trim <$> cell) = false.
Proof.
  destruct cell as [s|]; simpl; [|done].
  destruct (trim s); split; intros; congruence.
Qed.

Lemma or_else_falsy a b : truthy (or_else a b) = false <-> truthy a = false /\ truthy b = false.
Proof. unfold or_else. destruct (truthy a) eqn:Ea; rewrite ?Ea; intuition congruence. Qed.

Lemma or_else_trimmed (a b : option string) n :
  or_else (trim <$> a) (trim <$> b) = Some n -> trim n = n.
Proof.
  unfold or_else. destruct (truthy (trim <$> a)); intros E;
    [destruct a as [x|]|destruct b as [x|]]; simplify_eq/=; apply trim_idem.
Qed.

(** *** The club importer *)
Section Club.
Import ImportMembersModal.
Variable club : Club.t.
Variable participants : list Participant.t.
Variable clubMemberships : list ClubMembership.t.

Lemma club_invalid (row : Row) :
  truthy (row !! "Name") = false \/ truthy (row !! "Contact") = false ->
  validate club participants clubMemberships row
  = mkRow row InvalidData "Missing Name or Contact".
Proof. unfold validate. intros [-> | ->]; simpl; [|rewrite orb_true_r]; reflexivity. Qed.

Lemma club_valid (row : Row) :
  truthy (row !! "Name") = true -> truthy (row !! "Contact") = true ->
  validate club participants clubMemberships row
  = match List.find (same_person row) participants with
    | Some p =>
        if bool_decide (Participant.id p ∈ clubMemberIds club clubMemberships)
        then mkRow row AlreadyAMember "Will be skipped"
        else mkRow row ExistingParticipant "Will be added to club"
    | None => mkRow row NewParticipant "Will be created and added"
    end.
Proof. unfold validate. now intros -> ->. Qed.

Lemma same_person_spec (row : Row) (p : Participant.t) :
  same_person row p = true
  <-> row !! "Name" = Some (Participant.name p)
      /\ row !! "Contact" = Some (Participant.contact p).
Proof. unfold same_person. now rewrite andb_true_iff, !strict_eq_true. Qed.

(** The preview keeps every row. *)
Lemma club_preview_length (data : list Row) :
  length (processFile club participants clubMemberships data) = length data.
Proof. apply length_map. Qed.

Lemma club_preview_data (data : list Row) :
  map ImportMembersModal.data (processFile club participants clubMemberships data) = data.
Proof.
  unfold processFile. rewrite map_map. rewrite <- (map_id data) at 2.
  apply map_ext. intros row. unfold validate.
  repeat (case_match; simpl); reflexivity.
Qed.

(** A row matches an existing participant exactly when its two cells
    equal the participant's name and contact. *)
Lemma club_matches (row : Row) (n c : string) :
  row !! "Name" = Some n -> row !! "Contact" = Some c -> n <> "" -> c <> "" ->
  let s := status (validate club participants clubMemberships row) in
  (s = ExistingParticipant \/ s = AlreadyAMember
   <-> exists p, p ∈ participants /\ Participant.name p = n /\ Participant.contact p = c)
  /\ (s = NewParticipant \/ s = ExistingParticipant \/ s = AlreadyAMember).
Proof.
  intros Hn Hc Hn' Hc'. cbn zeta.
  rewrite club_valid by (rewrite ?Hn, ?Hc; now apply truthy_Some).
  destruct (List.find (same_person row) participants) as [p|] eqn:E.
  - assert (Hp : exists p, p ∈ participants /\ Participant.name p = n
                           /\ Participant.contact p = c).
    { apply find_some in E as [Hin Hsame]. apply same_person_spec in Hsame as [E1 E2].
      exists p. rewrite list_elem_of_In. split; [done|]. split; congruence. }
    case_bool_decide; simpl; (split; [split; [intros _; exact Hp|intros _; auto]|auto]).
  - simpl. split; [|auto]. split; [intros [?|?]; discriminate|].
    intros (p & Hin & <- & <-). apply list_elem_of_In in Hin.
    pose proof (find_none _ _ E _ Hin) as Hf.
    assert (same_person row p = true) by now apply same_person_spec.
    congruence.
Qed.
End Club.

(** *** The participants importer *)
Section Participants.
Import ImportParticipantsModal.
Variable participants : list Participant.t.

Lemma fully_blank_no_name (row : Row) :
  Spec.fully_blank row ->
  truthy (row_name row) = false /\ truthy (row_contact row) = false.
Proof.
  intros Hb. unfold row_name, row_contact. rewrite !or_else_falsy.
  repeat split; apply (fully_blank_cell row _ Hb).
Qed.

(** [validate] returns [null] exactly for the rows whose cells are all
    empty. *)
Lemma participants_dropped_iff (row : Row) :
  validate participants row = None <-> Spec.fully_blank row.
Proof.
  unfold validate, every_cell_empty. split.
  - case_bool_decide as Hb; [done|]. rewrite andb_false_r.
    repeat case_match; discriminate.
  - intros Hb. destruct (fully_blank_no_name row Hb) as [-> ->].
    now rewrite bool_decide_eq_true_2.
Qed.

Lemma participants_invalid (row : Row) :
  truthy (row_name row) = false \/ truthy (row_contact row) = false ->
  ~ Spec.fully_blank row ->
  validate participants row
  = Some (mkRow row InvalidData "Missing NAMES or CONTACT column").
Proof.
  intros Hf Hb. unfold validate, every_cell_empty.
  rewrite bool_decide_eq_false_2, andb_false_r by done.
  destruct (row_name row) as [[|? ?]|], (row_contact row) as [[|? ?]|];
    try reflexivity; destruct Hf; discriminate.
Qed.

Lemma participants_valid (row : Row) (n c : string) :
  row_name row = Some n -> row_contact row = Some c -> n <> "" -> c <> "" ->
  validate participants row
  = if bool_decide (is_Some (participantMap participants !! (toLowerCase n ++ "_" ++ c)))
    then Some (mkRow row ParticipantAlreadyExists "Will be skipped")
    else Some (mkRow row NewParticipant "Will be created").
Proof.
  intros Hn Hc Hn' Hc'. unfold validate. rewrite Hn, Hc.
  destruct n; [done|]. destruct c; [done|]. reflexivity.
Qed.

Lemma participants_new_has_cells (row : Row) :
  status <$> validate participants row = Some NewParticipant ->
  exists n c, row_name row = Some n /\ row_contact row = Some c /\ n <> "" /\ c <> "".
Proof.
  unfold validate. destruct (negb _ && negb _ && _); [discriminate|].
  destruct (row_name row) as [[|a n]|], (row_contact row) as [[|b c]|]; try discriminate.
  intros _. eexists _, _. repeat split; discriminate.
Qed.

(** The key of a row with name [n] and contact [c] is the composite key
    of the specification. *)
Lemma participants_row_key (row : Row) (n c : string) :
  row_name row = Some n -> row_contact row = Some c ->
  toLowerCase n ++ "_" ++ c = Spec.composite_key n c.
Proof.
  intros Hn Hc. unfold Spec.composite_key.
  now rewrite (or_else_trimmed _ _ _ Hn), (or_else_trimmed _ _ _ Hc).
Qed.

Lemma participantMap_has (k : string) :
  is_Some (participantMap participants !! k)
  <-> exists p, p ∈ participants
                /\ Spec.composite_key (Participant.name p) (Participant.contact p) = k.
Proof. unfold participantMap. now rewrite Map_new_is_Some, keyed_entries. Qed.

Lemma participants_matches (row : Row) (n c : string) :
  row_name row = Some n -> row_contact row = Some c -> n <> "" -> c <> "" ->
  let s := status <$> validate participants row in
  (s = Some ParticipantAlreadyExists
   <-> exists p, p ∈ participants
                 /\ Spec.composite_key (Participant.name p) (Participant.contact p)
                    = Spec.composite_key n c)
  /\ (s = Some ParticipantAlreadyExists \/ s = Some NewParticipant).
Proof.
  intros Hn Hc Hn' Hc'. cbn zeta.
  rewrite (participants_valid row n c) by done.
  rewrite (participants_row_key row n c) by done.
  rewrite <- participantMap_has.
  case_bool_decide; simpl; (split; [split|]); auto; try done.
Qed.

Lemma length_omap_le {A B} (f : A -> option B) (l : list A) :
  length (omap f l) <= length l.
Proof. induction l as [|x l IH]; csimpl; [lia|]. destruct (f x); csimpl; lia. Qed.

Lemma length_omap_lt {A B} (f : A -> option B) (l : list A) (x : A) :
  x ∈ l -> f x = None -> length (omap f l) < length l.
Proof.
  induction l as [|y l IH]; intros Hin Hx; [now apply elem_of_nil in Hin|].
  apply elem_of_cons in Hin as [<-|Hin]; csimpl.
  - rewrite Hx. pose proof (length_omap_le f l). lia.
  - specialize (IH Hin Hx). destruct (f y); csimpl; lia.
Qed.

Lemma omap_data (l : list Row) (r : PreviewRow) :
  r ∈ omap (validate participants) l -> data r ∈ l /\ ~ Spec.fully_blank (data r).
Proof.
  intros Hin. apply list_elem_of_omap in Hin as (row' & Hin & Hv).
  assert (data r = row') as ->.
  { revert Hv. unfold validate. repeat case_match; intros; simplify_eq; reflexivity. }
  split; [done|]. intros Hb. apply participants_dropped_iff in Hb. congruence.
Qed.
End Participants.

(** *** The volunteers importer *)
Section Volunteers.
Import ImportVolunteersModal.
Variable participants : list Participant.t.
Variable volunteers : list Volunteer.t.

Lemma volunteers_invalid (row : Row) :
  Spec.blank (row !! "Name") \/ Spec.blank (row !! "Contact")
  \/ Spec.blank (row !! "Role") ->
  validate participants volunteers row
  = mkRow row InvalidData "Missing Name, Contact, or Role".
Proof.
  rewrite !blank_falsy. unfold validate. intros Hb.
  destruct (trim <$> row !! "Name") as [[|? ?]|], (trim <$> row !! "Contact") as [[|? ?]|],
    (trim <$> row !! "Role") as [[|? ?]|]; try reflexivity;
    simpl in Hb; intuition discriminate.
Qed.

Lemma volunteers_present (row : Row) (n c r : string) :
  row !! "Name" = Some n -> row !! "Contact" = Some c -> row !! "Role" = Some r ->
  trim n <> "" -> trim c <> "" -> trim r <> "" ->
  validate participants volunteers row
  = if negb (bool_decide (trim r ∈ VOLUNTEER_ROLES_LIST)) then
      mkRow row InvalidData ("Invalid role: " ++ trim r)
    else
      match participantMap participants
            !! (toLowerCase (trim n) ++ "_" ++ toLowerCase (trim c)) with
      | Some existingParticipant =>
          if bool_decide (Participant.id existingParticipant
                          ∈ volunteerParticipantIds volunteers)
          then mkRow row AlreadyAVolunteer "This person is already a volunteer."
          else mkRow row ExistingParticipant "Will be converted to a volunteer."
      | None => mkRow row NewParticipant "Will be created and added as a volunteer."
      end.
Proof.
  intros Hn Hc Hr Hn' Hc' Hr'. unfold validate. rewrite Hn, Hc, Hr. simpl.
  destruct (trim n); [done|]. destruct (trim c); [done|]. destruct (trim r); [done|].
  reflexivity.
Qed.

Lemma volunteers_invalid_role (row : Row) (r : string) :
  row !! "Role" = Some r -> trim r ∉ VOLUNTEER_ROLES_LIST ->
  status (validate participants volunteers row) = InvalidData.
Proof.
  intros Hr Hnot.
  destruct (row !! "Name") as [n|] eqn:Hn; [|now rewrite volunteers_invalid; [|left; rewrite Hn]].
  destruct (row !! "Contact") as [c|] eqn:Hc;
    [|now rewrite volunteers_invalid; [|right; left; rewrite Hc]].
  destruct (decide (trim n = "")) as [En|En];
    [now rewrite volunteers_invalid; [|left; rewrite Hn]|].
  destruct (decide (trim c = "")) as [Ec|Ec];
    [now rewrite volunteers_invalid; [|right; left; rewrite Hc]|].
  destruct (decide (trim r = "")) as [Er|Er];
    [now rewrite volunteers_invalid; [|right; right; rewrite Hr]|].
  rewrite (volunteers_present row n c r) by done.
  now rewrite bool_decide_eq_false_2.
Qed.

Lemma volunteers_preview_length (data : list Row) (preview : list PreviewRow) :
  processFile participants volunteers data = Some preview ->
  length preview = length data.
Proof.
  destruct data; [discriminate|]. intros [= <-]. simpl. now rewrite length_map.
Qed.

Lemma volunteers_participantMap_has (k : string) :
  is_Some (participantMap participants !! k)
  <-> exists p, p ∈ participants /\ participant_key p = k.
Proof. unfold participantMap. now rewrite Map_new_is_Some, keyed_entries. Qed.

Lemma volunteers_matches (row : Row) (n c r : string) :
  row !! "Name" = Some n -> row !! "Contact" = Some c -> row !! "Role" = Some r ->
  trim n <> "" -> trim c <> "" -> trim r ∈ VOLUNTEER_ROLES_LIST ->
  let s := status (validate participants volunteers row) in
  (s = ExistingParticipant \/ s = AlreadyAVolunteer
   <-> exists p, p ∈ participants
                 /\ toLowerCase (Participant.name p) ++ "_"
                    ++ toLowerCase (Participant.contact p)
                    = toLowerCase (trim n) ++ "_" ++ toLowerCase (trim c))
  /\ (s = NewParticipant \/ s = ExistingParticipant \/ s = AlreadyAVolunteer).
Proof.
  intros Hn Hc Hr Hn' Hc' Hr'. cbn zeta.
  assert (trim r <> "") as Hr''.
  { intros E. rewrite E in Hr'. unfold VOLUNTEER_ROLES_LIST in Hr'.
    repeat (apply elem_of_cons in Hr' as [Hr'|Hr']; [discriminate|]).
    now apply elem_of_nil in Hr'. }
  rewrite (volunteers_present row n c r) by done.
  rewrite bool_decide_eq_true_2 by done. simpl.
  pose proof (volunteers_participantMap_has
                (toLowerCase (trim n) ++ "_" ++ toLowerCase (trim c))) as Hhas.
  unfold participant_key in Hhas. rewrite <- Hhas.
  destruct (participantMap participants !! _) as [p|]; simpl.
  - case_bool_decide; simpl; (split; [split; [intros _; eauto|auto]|auto]).
  - split; [|auto]. split; [intros [?|?]; discriminate|].
    intros [? ?]; discriminate.
Qed.
End Volunteers.

End ClassifyFacts.

(** ** The claims on row classification *)

(** The club importer does not read institutions: the club's institution and
    the participants' institutions leave the classification unchanged. *)
Lemma club_validate_ignores_institution
    (club : Club.t) (participants : list Participant.t)
    (clubMemberships : list ClubMembership.t) (row : Row)
    (relabel : Participant.t -> string) (institution : string) :
  ImportMembersModal.validate (Spec.move_club institution club)
    (map (fun p => Spec.move_participant (relabel p) p) participants) clubMemberships row
  = ImportMembersModal.validate club participants clubMemberships row.
Proof.
  unfold ImportMembersModal.validate.
  destruct (negb _ || negb _); [reflexivity|].
  induction participants as [|p ps IH]; simpl; [reflexivity|].
  unfold ImportMembersModal.same_person at 1 3. simpl.
  destruct (JS.strict_eq _ _ && JS.strict_eq _ _); [reflexivity|exact IH].
Qed.

(** C1, counterexample: Bob is stored as "Bob" with contact "1", at the
    institution of the club. A row naming "bob" with contact "1" has his
    composite key, and the participants importer matches it, yet the club
    importer classifies it as new. Jane is stored as "Jane Doe" with contact
    "X". A row naming "Jane Doe" with contact "x" does not have her composite
    key, and the participants importer classifies it as new, yet the
    volunteers importer matches it. *)
Lemma C1_counterexample :
  Participant.institution Sample.bob = Club.institution Sample.debate
  /\ Spec.composite_key (Participant.name Sample.bob) (Participant.contact Sample.bob)
     = Spec.composite_key "bob" "1"
  /\ ImportParticipantsModal.status
       <$> ImportParticipantsModal.validate [Sample.bob] Sample.row_bob_lower
     = Some ImportParticipantsModal.ParticipantAlreadyExists
  /\ ImportMembersModal.status
       (ImportMembersModal.validate Sample.debate [Sample.bob] [] Sample.row_bob_lower)
     = ImportMembersModal.NewParticipant
  /\ Spec.composite_key (Participant.name Sample.jane) (Participant.contact Sample.jane)
     <> Spec.composite_key "Jane Doe" "x"
  /\ ImportParticipantsModal.status
       <$> ImportParticipantsModal.validate [Sample.jane] Sample.row_jane_mentor_small_x
     = Some ImportParticipantsModal.NewParticipant
  /\ ImportVolunteersModal.status
       (ImportVolunteersModal.validate [Sample.jane] [] Sample.row_jane_mentor_small_x)
     = ImportVolunteersModal.ExistingParticipant.
Proof. repeat split; vm_compute; solve [reflexivity | discriminate]. Qed.

(** C1, as amended: for a row with a name and a contact, the participants
    importer matches an existing participant exactly when the composite keys
    [lowercase(trim(name)) + "_" + trim(contact)] of the two are equal; the
    volunteers importer, on participants stored without surrounding white
    space, matches exactly when the role of the row, trimmed, is one of the
    volunteer roles and the keys
    [lowercase(trim(name)) + "_" + lowercase(trim(contact))] of the two are
    equal, the contact being compared without regard to case as well (a row
    whose role is missing or is not a volunteer role matches nobody); the
    club importer, on participants of the institution of the club, matches
    exactly when the row's Name and Contact equal the participant's name and
    contact. *)
Theorem C1_matching_rules :
  (forall (participants : list Participant.t) (row : Row) (n c : string),
      ImportParticipantsModal.row_name row = Some n ->
      ImportParticipantsModal.row_contact row = Some c -> n <> "" -> c <> "" ->
      ImportParticipantsModal.status <$> ImportParticipantsModal.validate participants row
      = Some ImportParticipantsModal.ParticipantAlreadyExists
      <-> exists p, p ∈ participants
                    /\ Spec.composite_key (Participant.name p) (Participant.contact p)
                       = Spec.composite_key n c)
  /\ (forall (participants : list Participant.t) (volunteers : list Volunteer.t)
        (row : Row) (n c : string),
      (forall p, p ∈ participants ->
                 JS.trim (Participant.name p) = Participant.name p
                 /\ JS.trim (Participant.contact p) = Participant.contact p) ->
      row !! "Name" = Some n -> row !! "Contact" = Some c ->
      JS.trim n <> "" -> JS.trim c <> "" ->
      let s := ImportVolunteersModal.status
                 (ImportVolunteersModal.validate participants volunteers row) in
      s = ImportVolunteersModal.ExistingParticipant
      \/ s = ImportVolunteersModal.AlreadyAVolunteer
      <-> (exists r, row !! "Role" = Some r
                     /\ JS.trim r ∈ ImportVolunteersModal.VOLUNTEER_ROLES_LIST)
          /\ exists p, p ∈ participants
                       /\ JS.toLowerCase (JS.trim (Participant.name p)) ++ "_"
                          ++ JS.toLowerCase (JS.trim (Participant.contact p))
                          = JS.toLowerCase (JS.trim n) ++ "_"
                            ++ JS.toLowerCase (JS.trim c))
  /\ (forall (club : Club.t) (participants : list Participant.t)
        (clubMemberships : list ClubMembership.t) (row : Row) (n c : string),
      (forall p, p ∈ participants -> Participant.institution p = Club.institution club) ->
      row !! "Name" = Some n -> row !! "Contact" = Some c -> n <> "" -> c <> "" ->
      let s := ImportMembersModal.status
                 (ImportMembersModal.validate club participants clubMemberships row) in
      s = ImportMembersModal.ExistingParticipant \/ s = ImportMembersModal.AlreadyAMember
      <-> exists p, p ∈ participants
                    /\ Participant.name p = n /\ Participant.contact p = c).
Proof.
  split; [|split].
  - intros participants row n c Hn Hc Hn' Hc'.
    exact (proj1 (ClassifyFacts.participants_matches participants row n c Hn Hc Hn' Hc')).
  - intros participants volunteers row n c Htrimmed Hn Hc Hn' Hc'. cbn zeta.
    assert ((exists p, p ∈ participants
                       /\ JS.toLowerCase (Participant.name p) ++ "_"
                          ++ JS.toLowerCase (Participant.contact p)
                          = JS.toLowerCase (JS.trim n) ++ "_" ++ JS.toLowerCase (JS.trim c))
            <-> exists p, p ∈ participants
                          /\ JS.toLowerCase (JS.trim (Participant.name p)) ++ "_"
                             ++ JS.toLowerCase (JS.trim (Participant.contact p))
                             = JS.toLowerCase (JS.trim n) ++ "_"
                               ++ JS.toLowerCase (JS.trim c)) as Hkeys.
    { split; intros (p & Hp & Hkey); exists p; (split; [exact Hp|]);
        destruct (Htrimmed p Hp) as [En Ec]; [rewrite En, Ec|rewrite En, Ec in Hkey];
        exact Hkey. }
    rewrite <- Hkeys.
    destruct (row !! "Role") as [r|] eqn:Hr.
    + destruct (decide (JS.trim r ∈ ImportVolunteersModal.VOLUNTEER_ROLES_LIST))
        as [Hrole|Hrole].
      * rewrite (proj1 (ClassifyFacts.volunteers_matches participants volunteers row n c r
                          Hn Hc Hr Hn' Hc' Hrole)).
        split; [intros Hp; split; [eauto|exact Hp]|intros [_ Hp]; exact Hp].
      * rewrite (ClassifyFacts.volunteers_invalid_role participants volunteers row r
                   Hr Hrole).
        split; [intros [E|E]; discriminate|].
        intros [(r' & [= <-] & Hin) _]. contradiction.
    + rewrite ClassifyFacts.volunteers_invalid by (right; right; rewrite Hr; exact I).
      split; [intros [E|E]; discriminate|]. intros [(r' & [=] & _) _].
  - intros club participants clubMemberships row n c _ Hn Hc Hn' Hc'.
    exact (proj1 (ClassifyFacts.club_matches club participants clubMemberships row n c
                    Hn Hc Hn' Hc')).
Qed.

Lemma C1_matching_rules_witness :
  (ImportParticipantsModal.status
     <$> ImportParticipantsModal.validate [Sample.jane] Sample.row_jane_lower
   = Some ImportParticipantsModal.ParticipantAlreadyExists
   <-> exists p, p ∈ [Sample.jane]
                 /\ Spec.composite_key (Participant.name p) (Participant.contact p)
                    = Spec.composite_key "jane doe" "X")
  /\ (let s := ImportVolunteersModal.status
                 (ImportVolunteersModal.validate [Sample.jane] []
                    Sample.row_jane_mentor_small_x) in
      s = ImportVolunteersModal.ExistingParticipant
      \/ s = ImportVolunteersModal.AlreadyAVolunteer
      <-> (exists r, Sample.row_jane_mentor_small_x !! "Role" = Some r
                     /\ JS.trim r ∈ ImportVolunteersModal.VOLUNTEER_ROLES_LIST)
          /\ exists p, p ∈ [Sample.jane]
                       /\ JS.toLowerCase (JS.trim (Participant.name p)) ++ "_"
                          ++ JS.toLowerCase (JS.trim (Participant.contact p))
                          = JS.toLowerCase (JS.trim "Jane Doe") ++ "_"
                            ++ JS.toLowerCase (JS.trim "x"))
  /\ (let s := ImportVolunteersModal.status
                 (ImportVolunteersModal.validate [Sample.jane] [] Sample.row_jane) in
      s = ImportVolunteersModal.ExistingParticipant
      \/ s = ImportVolunteersModal.AlreadyAVolunteer
      <-> (exists r, Sample.row_jane !! "Role" = Some r
                     /\ JS.trim r ∈ ImportVolunteersModal.VOLUNTEER_ROLES_LIST)
          /\ exists p, p ∈ [Sample.jane]
                       /\ JS.toLowerCase (JS.trim (Participant.name p)) ++ "_"
                          ++ JS.toLowerCase (JS.trim (Participant.contact p))
                          = JS.toLowerCase (JS.trim "Jane Doe") ++ "_"
                            ++ JS.toLowerCase (JS.trim "X"))
  /\ (let s := ImportMembersModal.status
                 (ImportMembersModal.validate Sample.debate [Sample.bob] []
                    Sample.row_bob) in
      s = ImportMembersModal.ExistingParticipant \/ s = ImportMembersModal.AlreadyAMember
      <-> exists p, p ∈ [Sample.bob]
                    /\ Participant.name p = "Bob" /\ Participant.contact p = "1").
Proof.
  assert (forall p, p ∈ [Sample.jane] ->
                    JS.trim (Participant.name p) = Participant.name p
                    /\ JS.trim (Participant.contact p) = Participant.contact p)
    as Htrimmed.
  { intros p Hp. apply list_elem_of_singleton in Hp as ->. split; vm_compute; reflexivity. }
  split; [|split; [|split]].
  - apply (proj1 C1_matching_rules [Sample.jane] Sample.row_jane_lower "jane doe" "X");
      [vm_compute; reflexivity|vm_compute; reflexivity|discriminate|discriminate].
  - apply (proj1 (proj2 C1_matching_rules) [Sample.jane] [] Sample.row_jane_mentor_small_x
             "Jane Doe" "x");
      [exact Htrimmed|vm_compute; reflexivity|vm_compute; reflexivity
       |vm_compute; discriminate|vm_compute; discriminate].
  - apply (proj1 (proj2 C1_matching_rules) [Sample.jane] [] Sample.row_jane
             "Jane Doe" "X");
      [exact Htrimmed|vm_compute; reflexivity|vm_compute; reflexivity
       |vm_compute; discriminate|vm_compute; discriminate].
  - apply (proj2 (proj2 C1_matching_rules) Sample.debate [Sample.bob] [] Sample.row_bob
             "Bob" "1");
      [|vm_compute; reflexivity|vm_compute; reflexivity|discriminate|discriminate].
    intros p Hp. apply list_elem_of_singleton in Hp as ->. reflexivity.
Defined.

(** C2: the club belongs to "UG" and Jane to "KNUST". A row with Jane's name
    and contact is not classified as new: the preview calls her an existing
    participant (already a member once she has joined), and the import adds
    her to the club with one call of [addClubMembership]. The add-member
    dialog of the same club keeps to the institution of the club: it never
    offers Jane, whoever the members are and whatever is searched. *)
Theorem C2_cross_institution_match :
  Participant.institution Sample.jane <> Club.institution Sample.debate
  /\ Sample.row_jane !! "Name" = Some (Participant.name Sample.jane)
  /\ Sample.row_jane !! "Contact" = Some (Participant.contact Sample.jane)
  /\ ImportMembersModal.processFile Sample.debate [Sample.jane] [] [Sample.row_jane]
     = [Sample.club_existing_jane]
  /\ ImportMembersModal.status
       (ImportMembersModal.validate Sample.debate [Sample.jane] [Sample.jane_in_debate]
          Sample.row_jane)
     = ImportMembersModal.AlreadyAMember
  /\ (let out :=
        run (ImportMembersModal.handleImport Sample.debate [Sample.jane]
               (ImportMembersModal.processFile Sample.debate [Sample.jane] []
                  [Sample.row_jane]))
          Store.empty in
      fst out = JS.Returns (ImportMembersModal.mkStats 0 1 0)
      /\ calls (snd out)
         = [CallAddClubMembership (Participant.id Sample.jane) (Club.id Sample.debate)
              (JS.Returns true)])
  /\ (forall (L : Locale) (currentMemberIds : gset UUID) (searchTerm : string),
        AddMemberModal.availableParticipants Sample.debate [Sample.jane] currentMemberIds
          searchTerm
        = []).
Proof.
  split; [discriminate|]. split; [vm_compute; reflexivity|].
  split; [vm_compute; reflexivity|]. split; [vm_compute; reflexivity|].
  split; [vm_compute; reflexivity|]. split.
  - cbn zeta. split; vm_compute; reflexivity.
  - intros L currentMemberIds searchTerm. reflexivity.
Qed.

(** C7, counterexample: a row whose cells are all empty stays in the preview
    of the club importer and of the volunteers importer, as invalid data. *)
Lemma C7_counterexample :
  Spec.fully_blank Sample.row_empty_cells
  /\ ImportMembersModal.processFile Sample.debate [] [] [Sample.row_empty_cells]
     = [ImportMembersModal.mkRow Sample.row_empty_cells ImportMembersModal.InvalidData
          "Missing Name or Contact"]
  /\ ImportVolunteersModal.processFile [] [] [Sample.row_empty_cells]
     = Some [ImportVolunteersModal.mkRow Sample.row_empty_cells
               ImportVolunteersModal.InvalidData "Missing Name, Contact, or Role"].
Proof.
  split; [|split; vm_compute; reflexivity].
  unfold Spec.fully_blank, Sample.row_empty_cells.
  apply map_Forall_insert_2; [reflexivity|].
  apply map_Forall_insert_2; [reflexivity|]. apply map_Forall_empty.
Qed.

(** C7, as amended: the participants importer drops every row whose cells
    are all empty, so its preview is strictly shorter than the input when
    there is such a row; the club importer and the volunteers importer keep
    such a row in the preview, classified as invalid data, and their preview
    is as long as the input. *)
Theorem C7_blank_rows :
  (forall (participants : list Participant.t) (rows : list Row) (row : Row),
      row ∈ rows -> Spec.fully_blank row ->
      exists preview,
        ImportParticipantsModal.processFile participants rows = Some preview
        /\ (forall r, r ∈ preview -> ImportParticipantsModal.data r <> row)
        /\ length preview < length rows)
  /\ (forall (club : Club.t) (participants : list Participant.t)
        (clubMemberships : list ClubMembership.t) (rows : list Row) (row : Row),
      row ∈ rows -> Spec.fully_blank row ->
      let preview := ImportMembersModal.processFile club participants clubMemberships rows in
      ImportMembersModal.mkRow row ImportMembersModal.InvalidData "Missing Name or Contact"
        ∈ preview
      /\ length preview = length rows)
  /\ (forall (participants : list Participant.t) (volunteers : list Volunteer.t)
        (rows : list Row) (row : Row),
      row ∈ rows -> Spec.fully_blank row ->
      exists preview,
        ImportVolunteersModal.processFile participants volunteers rows = Some preview
        /\ ImportVolunteersModal.mkRow row ImportVolunteersModal.InvalidData
             "Missing Name, Contact, or Role" ∈ preview
        /\ length preview = length rows).
Proof.
  split; [|split].
  - intros participants rows row Hin Hb.
    exists (omap (ImportParticipantsModal.validate participants) rows).
    split; [|split].
    + destruct rows; [now apply elem_of_nil in Hin|reflexivity].
    + intros r Hr E. apply ClassifyFacts.omap_data in Hr as [_ Hnb]. now rewrite E in Hnb.
    + apply (ClassifyFacts.length_omap_lt _ _ row Hin).
      now apply ClassifyFacts.participants_dropped_iff.
  - intros club participants clubMemberships rows row Hin Hb. cbn zeta. split.
    + rewrite <- (ClassifyFacts.club_invalid club participants clubMemberships row)
        by (left; apply (ClassifyFacts.fully_blank_cell row "Name" Hb)).
      apply list_elem_of_In, in_map. now apply list_elem_of_In.
    + apply ClassifyFacts.club_preview_length.
  - intros participants volunteers rows row Hin Hb.
    exists (map (ImportVolunteersModal.validate participants volunteers) rows).
    split; [|split].
    + destruct rows; [now apply elem_of_nil in Hin|reflexivity].
    + rewrite <- (ClassifyFacts.volunteers_invalid participants volunteers row).
      * apply list_elem_of_In, in_map. now apply list_elem_of_In.
      * left. apply ClassifyFacts.blank_falsy.
        apply (ClassifyFacts.fully_blank_cell row "Name" Hb).
    + apply length_map.
Qed.

Lemma C7_blank_rows_witness :
  (exists preview,
      ImportParticipantsModal.processFile [Sample.jane]
        [Sample.row_jane_lower; Sample.row_empty_cells_upper] = Some preview
      /\ (forall r, r ∈ preview
                    -> ImportParticipantsModal.data r <> Sample.row_empty_cells_upper)
      /\ length preview < 2)
  /\ (let preview :=
        ImportMembersModal.processFile Sample.debate [Sample.jane] []
          [Sample.row_jane; Sample.row_empty_cells] in
      ImportMembersModal.mkRow Sample.row_empty_cells ImportMembersModal.InvalidData
        "Missing Name or Contact" ∈ preview
      /\ length preview = 2)
  /\ (exists preview,
        ImportVolunteersModal.processFile [Sample.jane] []
          [Sample.row_jane_mentor; Sample.row_empty_cells] = Some preview
        /\ ImportVolunteersModal.mkRow Sample.row_empty_cells
             ImportVolunteersModal.InvalidData "Missing Name, Contact, or Role" ∈ preview
        /\ length preview = 2).
Proof.
  assert (forall a b : string, Spec.fully_blank ({[ a := ""; b := "" ]} : Row)) as Hblank.
  { intros a b. unfold Spec.fully_blank.
    apply map_Forall_insert_2; [reflexivity|].
    apply map_Forall_insert_2; [reflexivity|]. apply map_Forall_empty. }
  split; [|split].
  - apply (proj1 C7_blank_rows [Sample.jane]
             [Sample.row_jane_lower; Sample.row_empty_cells_upper]
             Sample.row_empty_cells_upper); [|apply Hblank].
    apply elem_of_cons; right. apply elem_of_cons; left. reflexivity.
  - apply (proj1 (proj2 C7_blank_rows) Sample.debate [Sample.jane] []
             [Sample.row_jane; Sample.row_empty_cells] Sample.row_empty_cells);
      [|apply Hblank].
    apply elem_of_cons; right. apply elem_of_cons; left. reflexivity.
  - apply (proj2 (proj2 C7_blank_rows) [Sample.jane] []
             [Sample.row_jane_mentor; Sample.row_empty_cells] Sample.row_empty_cells);
      [|apply Hblank].
    apply elem_of_cons; right. apply elem_of_cons; left. reflexivity.
Defined.

(** C8, counterexample: a name of two spaces is empty after trimming, yet the
    club importer classifies the row as a new participant; and the
    participants importer returns no classification for a row whose cells are
    all empty. *)
Lemma C8_counterexample :
  Spec.blank (Sample.row_white_name !! "Name")
  /\ ImportMembersModal.status
       (ImportMembersModal.validate Sample.debate [] [] Sample.row_white_name)
     = ImportMembersModal.NewParticipant
  /\ Spec.blank (Sample.row_empty_cells_upper !! "NAMES")
  /\ ImportParticipantsModal.validate [] Sample.row_empty_cells_upper = None.
Proof. repeat split; vm_compute; reflexivity. Qed.

(** C8, as amended: the volunteers importer classifies as invalid data every
    row whose Name, Contact or Role is missing or empty after trimming, or
    whose trimmed Role is not a volunteer role; the participants importer
    classifies as invalid data every row whose name (NAMES and Name) or
    contact (CONTACT and Contact) is missing or empty after trimming, unless
    every cell of the row is empty, in which case the row is dropped
    ([validate] returns [None]); the
    club importer classifies as invalid data every row whose Name or Contact
    is missing or the empty string. *)
Theorem C8_required_fields :
  (forall (participants : list Participant.t) (volunteers : list Volunteer.t) (row : Row),
      Spec.blank (row !! "Name") \/ Spec.blank (row !! "Contact")
      \/ Spec.blank (row !! "Role")
      \/ (exists r, row !! "Role" = Some r
                    /\ JS.trim r ∉ ImportVolunteersModal.VOLUNTEER_ROLES_LIST) ->
      ImportVolunteersModal.status
        (ImportVolunteersModal.validate participants volunteers row)
      = ImportVolunteersModal.InvalidData)
  /\ (forall (participants : list Participant.t) (row : Row),
      Spec.blank (row !! "NAMES") /\ Spec.blank (row !! "Name")
      \/ Spec.blank (row !! "CONTACT") /\ Spec.blank (row !! "Contact") ->
      ImportParticipantsModal.validate participants row
      = if ImportParticipantsModal.every_cell_empty row then None
        else Some (ImportParticipantsModal.mkRow row ImportParticipantsModal.InvalidData
                     "Missing NAMES or CONTACT column"))
  /\ (forall (club : Club.t) (participants : list Participant.t)
        (clubMemberships : list ClubMembership.t) (row : Row),
      row !! "Name" = None \/ row !! "Name" = Some ""
      \/ row !! "Contact" = None \/ row !! "Contact" = Some "" ->
      ImportMembersModal.status
        (ImportMembersModal.validate club participants clubMemberships row)
      = ImportMembersModal.InvalidData).
Proof.
  split; [|split].
  - intros participants volunteers row [Hb|[Hb|[Hb|(r & Hr & Hnot)]]].
    + rewrite ClassifyFacts.volunteers_invalid; auto.
    + rewrite ClassifyFacts.volunteers_invalid; auto.
    + rewrite ClassifyFacts.volunteers_invalid; auto.
    + now apply (ClassifyFacts.volunteers_invalid_role participants volunteers row r).
  - intros participants row Hb. unfold ImportParticipantsModal.every_cell_empty.
    case_bool_decide as Hblank.
    + now apply ClassifyFacts.participants_dropped_iff.
    + apply ClassifyFacts.participants_invalid; [|exact Hblank].
      unfold ImportParticipantsModal.row_name, ImportParticipantsModal.row_contact.
      rewrite !ClassifyFacts.or_else_falsy, <- !ClassifyFacts.blank_falsy. tauto.
  - intros club participants clubMemberships row Hb.
    rewrite ClassifyFacts.club_invalid; [reflexivity|].
    destruct Hb as [E|[E|[E|E]]]; rewrite E; auto.
Qed.

Lemma C8_required_fields_witness :
  ImportVolunteersModal.status
    (ImportVolunteersModal.validate [Sample.jane] [] Sample.row_white_name)
  = ImportVolunteersModal.InvalidData
  /\ ImportParticipantsModal.validate [Sample.jane] Sample.row_white_name
     = Some (ImportParticipantsModal.mkRow Sample.row_white_name
               ImportParticipantsModal.InvalidData "Missing NAMES or CONTACT column")
  /\ ImportMembersModal.status
       (ImportMembersModal.validate Sample.debate [Sample.jane] [] Sample.row_empty_cells)
     = ImportMembersModal.InvalidData.
Proof.
  split; [|split].
  - apply (proj1 C8_required_fields [Sample.jane] [] Sample.row_white_name).
    left. vm_compute. reflexivity.
  - refine (proj1 (proj2 C8_required_fields) [Sample.jane] Sample.row_white_name _).
    left. split; vm_compute; reflexivity.
  - apply (proj2 (proj2 C8_required_fields) Sample.debate [Sample.jane] []
             Sample.row_empty_cells).
    right; left. vm_compute. reflexivity.
Defined.

(** ** The import loops *)

Module ImportFacts.
Import JS.

Ltac async_unfold :=
  unfold bind, ret, throw, try_catch, await_addParticipant, await_addClubMembership,
    await_addVolunteer, await_addMultipleParticipants, new_Date in *.

(** *** The club import *)
Section Club.
Import ImportMembersModal.
Context {W : Type} `{Persistence W}.
Variable club : Club.t.

(** A row that is skipped makes no call. *)
Lemma club_row_skipped stats temp row st :
  status row = InvalidData \/ status row = AlreadyAMember ->
  import_row club (stats, temp) row st
  = (Returns (mkStats (new stats) (existing stats) (S (skipped stats)), temp), st).
Proof. unfold import_row. now intros [-> | ->]. Qed.

(** A new row makes one call, [addParticipant]; the participant it
    returns joins the shadow copy. *)
Lemma club_row_new stats temp row (st : IOState W) :
  status row = NewParticipant ->
  let fields := new_participant_fields club (data row) in
  let '(r, w) := addParticipant fields (Some (Club.id club)) (world st) in
  import_row club (stats, temp) row st
  = (match r with
     | Returns (Some p) =>
         Returns (mkStats (S (new stats)) (existing stats) (skipped stats),
                  (temp ++ [p])%list)
     | Returns None =>
         Returns (mkStats (new stats) (existing stats) (S (skipped stats)), temp)
     | Throws => Throws
     end,
     mkIO w (calls st ++ [CallAddParticipant fields (Some (Club.id club)) r])%list).
Proof.
  intros Hs. cbn zeta. unfold import_row. rewrite Hs. async_unfold.
  destruct (addParticipant _ _ _) as [[[p|]|] w]; reflexivity.
Qed.

(** An existing row is looked up in the shadow copy; when it is found the
    only call is [addClubMembership], and when it is not the row is
    skipped. *)
Lemma club_row_existing stats temp row (st : IOState W) :
  status row = ExistingParticipant ->
  import_row club (stats, temp) row st
  = match List.find (same_person (data row)) temp with
    | Some participant =>
        let '(r, w) :=
          addClubMembership (Participant.id participant) (Club.id club) (world st) in
        (match r with
         | Returns true =>
             Returns (mkStats (new stats) (S (existing stats)) (skipped stats), temp)
         | Returns false =>
             Returns (mkStats (new stats) (existing stats) (S (skipped stats)), temp)
         | Throws => Throws
         end,
         mkIO w (calls st ++ [CallAddClubMembership (Participant.id participant)
                                (Club.id club) r])%list)
    | None =>
        (Returns (mkStats (new stats) (existing stats) (S (skipped stats)), temp), st)
    end.
Proof.
  intros Hs. unfold import_row. rewrite Hs.
  destruct (List.find _ temp) as [p|]; [|reflexivity]. async_unfold.
  destruct (addClubMembership _ _ _) as [[[|]|] w]; reflexivity.
Qed.

(** A row that is processed is counted once, the log grows, and the
    shadow copy grows by the participants the row created. *)
Lemma club_row_returns stats temp row (st : IOState W) stats' temp' st' :
  import_row club (stats, temp) row st = (Returns (stats', temp'), st') ->
  Spec.club_total stats' = S (Spec.club_total stats)
  /\ exists log, calls st' = (calls st ++ log)%list
                 /\ temp' = (temp ++ Spec.created_participants log)%list.
Proof.
  unfold Spec.club_total. destruct (status row) eqn:Hs.
  - pose proof (club_row_new stats temp row st Hs) as E. cbn zeta in E.
    destruct (addParticipant _ _ _) as [[[p|]|] w]; rewrite E; intros [= <- <- <-];
      simpl; (split; [lia|]); eexists [_]; split; try reflexivity.
    simpl. now rewrite app_nil_r.
  - rewrite (club_row_existing stats temp row st Hs).
    destruct (List.find _ temp) as [p|].
    + destruct (addClubMembership _ _ _) as [[[|]|] w]; intros [= <- <- <-];
        simpl; (split; [lia|]); eexists [_]; split; try reflexivity;
        simpl; now rewrite app_nil_r.
    + intros [= <- <- <-]. simpl. split; [lia|]. exists []. now rewrite !app_nil_r.
  - rewrite club_row_skipped by auto. intros [= <- <- <-]. simpl.
    split; [lia|]. exists []. now rewrite !app_nil_r.
  - rewrite club_row_skipped by auto. intros [= <- <- <-]. simpl.
    split; [lia|]. exists []. now rewrite !app_nil_r.
Qed.

(** A row that is processed increments exactly one counter. *)
Lemma club_row_one_counter stats temp row (st : IOState W) stats' temp' st' :
  import_row club (stats, temp) row st = (Returns (stats', temp'), st') ->
  stats' = mkStats (S (new stats)) (existing stats) (skipped stats)
  \/ stats' = mkStats (new stats) (S (existing stats)) (skipped stats)
  \/ stats' = mkStats (new stats) (existing stats) (S (skipped stats)).
Proof.
  destruct (status row) eqn:Hs.
  - pose proof (club_row_new stats temp row st Hs) as E. cbn zeta in E.
    destruct (addParticipant _ _ _) as [[[p|]|] w]; rewrite E; intros [= <- <- <-]; auto.
  - rewrite (club_row_existing stats temp row st Hs).
    destruct (List.find _ temp) as [p|].
    + destruct (addClubMembership _ _ _) as [[[|]|] w]; intros [= <- <- <-]; auto.
    + intros [= <- <- <-]. auto.
  - rewrite club_row_skipped by auto. intros [= <- <- <-]. auto.
  - rewrite club_row_skipped by auto. intros [= <- <- <-]. auto.
Qed.

(** When the awaited calls return, so does the processing of a row. *)
Lemma club_row_total stats temp row (st : IOState W) :
  Spec.club_calls_return W ->
  exists acc' st', import_row club (stats, temp) row st = (Returns acc', st').
Proof.
  intros [Hadd Hjoin]. destruct (status row) eqn:Hs.
  - pose proof (club_row_new stats temp row st Hs) as E. cbn zeta in E.
    pose proof (Hadd (new_participant_fields club (data row)) (Some (Club.id club))
                  (world st)) as Hr.
    destruct (addParticipant _ _ _) as [[[p|]|] w]; rewrite E; simpl in Hr;
      [eauto|eauto|done].
  - rewrite (club_row_existing stats temp row st Hs).
    destruct (List.find _ temp) as [p|]; [|eauto].
    pose proof (Hjoin (Participant.id p) (Club.id club) (world st)) as Hr.
    destruct (addClubMembership _ _ _) as [[[|]|] w]; simpl in Hr; [eauto|eauto|done].
  - rewrite club_row_skipped by auto. eauto.
  - rewrite club_row_skipped by auto. eauto.
Qed.

(** The loop: what holds of a row holds of the rows in order. *)
Lemma club_loop_returns rows : forall stats temp (st : IOState W) stats' temp' st',
  for_of (import_row club) rows (stats, temp) st = (Returns (stats', temp'), st') ->
  Spec.club_total stats' = length rows + Spec.club_total stats
  /\ exists log, calls st' = (calls st ++ log)%list
                 /\ temp' = (temp ++ Spec.created_participants log)%list.
Proof.
  induction rows as [|row rows IH]; intros stats temp st stats' temp' st'; cbn [for_of].
  - unfold ret. intros [= <- <- <-]. split; [reflexivity|].
    exists []. now rewrite !app_nil_r.
  - unfold bind at 1.
    destruct (import_row club (stats, temp) row st) as [[[stats1 temp1]|] st1] eqn:E1;
      [|intros [=]].
    intros E. apply club_row_returns in E1 as (Hc1 & log1 & Hl1 & Ht1).
    apply IH in E as (Hc & log & Hl & Ht). split; [cbn [length]; lia|].
    exists (log1 ++ log)%list. rewrite Hl, Hl1, Ht, Ht1.
    unfold Spec.created_participants. rewrite omap_app, !app_assoc. done.
Qed.

Lemma club_loop_total rows : forall acc (st : IOState W),
  Spec.club_calls_return W ->
  exists acc' st', for_of (import_row club) rows acc st = (Returns acc', st').
Proof.
  induction rows as [|row rows IH]; intros [stats temp] st Hret; cbn [for_of].
  - unfold ret. eauto.
  - unfold bind at 1.
    destruct (club_row_total stats temp row st Hret) as (acc1 & st1 & ->).
    now apply IH.
Qed.
End Club.

(** *** The volunteers import *)
Section Volunteers.
Import ImportVolunteersModal.
Context {W : Type} `{Persistence W} `{Runtime}.
Variable participants : list Participant.t.

Lemma volunteers_row_skipped stats row (st : IOState W) :
  status row = InvalidData \/ status row = AlreadyAVolunteer ->
  import_row participants stats row st
  = (Returns (mkStats (new stats) (existing stats) (S (skipped stats)) (failed stats)),
     st).
Proof. unfold import_row. now intros [-> | ->]. Qed.

(** Reading the start date makes no call. *)
Lemma start_date_state row (st : IOState W) : snd (start_date row st) = st.
Proof.
  unfold start_date. async_unfold.
  destruct (row !! "StartDate") as [[|? ?]|]; try reflexivity.
  destruct (Date_parse _); reflexivity.
Qed.

(** A new row: an invalid start date fails the row before any call;
    otherwise [addParticipant] is called, and [addVolunteer] after it
    when it returned a participant. The row counts as new when both
    calls return, and as failed otherwise. *)
Lemma volunteers_row_new stats row (st : IOState W) :
  status row = NewParticipant ->
  let fields := new_participant_fields (data row) in
  let failed_row :=
    Returns (mkStats (new stats) (existing stats) (skipped stats) (S (failed stats))) in
  import_row participants stats row st
  = match fst (start_date (data row) st) with
    | Throws => (failed_row, st)
    | Returns startDate =>
        let '(r, w) := addParticipant fields None (world st) in
        match r with
        | Returns (Some p) =>
            let volunteer :=
              NewVolunteer.mk (Participant.id p) (data row !! "Role") Active startDate in
            let '(r', w') := addVolunteer volunteer w in
            (match r' with
             | Returns _ =>
                 Returns (mkStats (S (new stats)) (existing stats) (skipped stats)
                            (failed stats))
             | Throws => failed_row
             end,
             mkIO w' (calls st ++ [CallAddParticipant fields None r;
                                   CallAddVolunteer volunteer r'])%list)
        | _ => (failed_row, mkIO w (calls st ++ [CallAddParticipant fields None r])%list)
        end
    end.
Proof.
  intros Hs. cbn zeta. unfold import_row, try_row. rewrite Hs.
  pose proof (start_date_state (data row) st) as Hst.
  unfold try_catch, bind at 1.
  destruct (start_date (data row) st) as [[d|] st0]; simpl in Hst; subst st0;
    [|reflexivity].
  cbn [fst]. async_unfold.
  destruct (addParticipant _ _ _) as [[[p|]|] w]; try reflexivity. cbn.
  destruct (addVolunteer _ _) as [[[]|] w']; cbn; rewrite <- app_assoc; reflexivity.
Qed.

(** An existing row: it is looked up by
    [lowercase(Name) + "_" + lowercase(Contact)] in the map of the
    participants the dialog was given; when it is found the only call is
    [addVolunteer], and when it is not the row fails. *)
Lemma volunteers_row_existing stats row (st : IOState W) :
  status row = ExistingParticipant ->
  let failed_row :=
    Returns (mkStats (new stats) (existing stats) (skipped stats) (S (failed stats))) in
  import_row participants stats row st
  = match fst (start_date (data row) st) with
    | Throws => (failed_row, st)
    | Returns startDate =>
        match data row !! "Name", data row !! "Contact" with
        | Some name, Some contact =>
            match participantMap participants
                  !! (toLowerCase name ++ "_" ++ toLowerCase contact) with
            | Some participant =>
                let volunteer :=
                  NewVolunteer.mk (Participant.id participant) (data row !! "Role")
                    Active startDate in
                let '(r, w) := addVolunteer volunteer (world st) in
                (match r with
                 | Returns _ =>
                     Returns (mkStats (new stats) (S (existing stats)) (skipped stats)
                                (failed stats))
                 | Throws => failed_row
                 end,
                 mkIO w (calls st ++ [CallAddVolunteer volunteer r])%list)
            | None => (failed_row, st)
            end
        | _, _ => (failed_row, st)
        end
    end.
Proof.
  intros Hs. cbn zeta. unfold import_row, try_row. rewrite Hs.
  pose proof (start_date_state (data row) st) as Hst.
  unfold try_catch, bind at 1.
  destruct (start_date (data row) st) as [[d|] st0]; simpl in Hst; subst st0;
    [|reflexivity].
  cbn [fst].
  destruct (data row !! "Name") as [n|]; [|reflexivity].
  destruct (data row !! "Contact") as [c|]; [|reflexivity].
  destruct (participantMap participants !! _) as [p|]; [|reflexivity].
  async_unfold. destruct (addVolunteer _ _) as [[[]|] w]; reflexivity.
Qed.

(** Every row is processed and counted once, whatever the calls do. *)
Lemma volunteers_row_counted stats row (st : IOState W) :
  exists stats' st',
    import_row participants stats row st = (Returns stats', st')
    /\ Spec.volunteers_total stats' = S (Spec.volunteers_total stats).
Proof.
  unfold Spec.volunteers_total. destruct (status row) eqn:Hs.
  - rewrite (volunteers_row_new stats row st Hs). cbn zeta.
    destruct (fst (start_date _ _)); [|eexists _, _; split; [reflexivity|simpl; lia]].
    destruct (addParticipant _ _ _) as [[[p|]|] w];
      [|eexists _, _; split; [reflexivity|simpl; lia]..].
    destruct (addVolunteer _ _) as [[[]|] w'];
      eexists _, _; (split; [reflexivity|simpl; lia]).
  - rewrite (volunteers_row_existing stats row st Hs). cbn zeta.
    destruct (fst (start_date _ _)); [|eexists _, _; split; [reflexivity|simpl; lia]].
    destruct (data row !! "Name"); [|eexists _, _; split; [reflexivity|simpl; lia]].
    destruct (data row !! "Contact"); [|eexists _, _; split; [reflexivity|simpl; lia]].
    destruct (participantMap participants !! _);
      [|eexists _, _; split; [reflexivity|simpl; lia]].
    destruct (addVolunteer _ _) as [[[]|] w'];
      eexists _, _; (split; [reflexivity|simpl; lia]).
  - rewrite volunteers_row_skipped by auto.
    eexists _, _; split; [reflexivity|simpl; lia].
  - rewrite volunteers_row_skipped by auto.
    eexists _, _; split; [reflexivity|simpl; lia].
Qed.

(** Every row increments exactly one counter. *)
Lemma volunteers_row_one_counter stats row (st : IOState W) stats' st' :
  import_row participants stats row st = (Returns stats', st') ->
  stats' = mkStats (S (new stats)) (existing stats) (skipped stats) (failed stats)
  \/ stats' = mkStats (new stats) (S (existing stats)) (skipped stats) (failed stats)
  \/ stats' = mkStats (new stats) (existing stats) (S (skipped stats)) (failed stats)
  \/ stats' = mkStats (new stats) (existing stats) (skipped stats) (S (failed stats)).
Proof.
  destruct (status row) eqn:Hs.
  - rewrite (volunteers_row_new stats row st Hs). cbn zeta.
    destruct (fst (start_date _ _)); [|intros [= <- <-]; auto].
    destruct (addParticipant _ _ _) as [[[p|]|] w]; [|intros [= <- <-]; auto..].
    destruct (addVolunteer _ _) as [[[]|] w']; intros [= <- <-]; auto.
  - rewrite (volunteers_row_existing stats row st Hs). cbn zeta.
    destruct (fst (start_date _ _)); [|intros [= <- <-]; auto].
    destruct (data row !! "Name"); [|intros [= <- <-]; auto].
    destruct (data row !! "Contact"); [|intros [= <- <-]; auto].
    destruct (participantMap participants !! _); [|intros [= <- <-]; auto].
    destruct (addVolunteer _ _) as [[[]|] w']; intros [= <- <-]; auto.
  - rewrite volunteers_row_skipped by auto. intros [= <- <-]. auto.
  - rewrite volunteers_row_skipped by auto. intros [= <- <-]. auto.
Qed.

Lemma volunteers_loop_counted rows : forall stats (st : IOState W),
  exists stats' st',
    for_of (import_row participants) rows stats st = (Returns stats', st')
    /\ Spec.volunteers_total stats' = length rows + Spec.volunteers_total stats.
Proof.
  induction rows as [|row rows IH]; intros stats st; cbn [for_of].
  - unfold ret. eexists _, _; split; reflexivity.
  - unfold bind at 1.
    destruct (volunteers_row_counted stats row st) as (stats1 & st1 & -> & Hc1).
    destruct (IH stats1 st1) as (stats' & st' & -> & Hc).
    eexists _, _; split; [reflexivity|]. cbn [length]. lia.
Qed.
End Volunteers.

(** *** Loops *)

Lemma for_of_app {W A R} (body : A -> R -> Async W A) (before after : list R) :
  forall acc st,
    for_of body (before ++ after) acc st
    = bind (for_of body before acc) (for_of body after) st.
Proof.
  induction before as [|row before IH]; intros acc st; cbn [for_of app].
  - reflexivity.
  - unfold bind. destruct (body acc row st) as [[acc1|] st1]; [|reflexivity].
    rewrite IH. reflexivity.
Qed.

(** A throw in the body ends the loop: the rows after it are not
    processed. *)
Lemma for_of_throws {W A R} (body : A -> R -> Async W A) (before after : list R)
    (row : R) acc acc1 (st st1 st2 : IOState W) :
  for_of body before acc st = (Returns acc1, st1) ->
  body acc1 row st1 = (Throws, st2) ->
  for_of body (before ++ row :: after) acc st = (Throws, st2).
Proof.
  intros Hbefore Hrow. rewrite for_of_app. unfold bind at 1. rewrite Hbefore.
  cbn [for_of]. unfold bind at 1. now rewrite Hrow.
Qed.

End ImportFacts.

(** ** The claims on the import loops *)

(** In the club import a rejected call ends the run: no later row is
    processed and no summary is produced. *)
Lemma club_import_stops_at_throw {W : Type} `{Persistence W}
    (club : Club.t) (participants : list Participant.t)
    (before after : list ImportMembersModal.PreviewRow) (row : ImportMembersModal.PreviewRow)
    acc1 (st st1 st2 : IOState W) :
  for_of (ImportMembersModal.import_row club) before
    (ImportMembersModal.mkStats 0 0 0, participants) st = (JS.Returns acc1, st1) ->
  ImportMembersModal.import_row club acc1 row st1 = (JS.Throws, st2) ->
  ImportMembersModal.handleImport club participants (before ++ row :: after) st
  = (JS.Throws, st2).
Proof.
  intros Hbefore Hrow. unfold ImportMembersModal.handleImport, bind.
  now rewrite (ImportFacts.for_of_throws _ before after row _ _ st st1 st2 Hbefore Hrow).
Qed.

(** In the volunteers import every run ends with a summary. *)
Lemma volunteers_import_returns {W : Type} `{Persistence W} `{Runtime}
    (participants : list Participant.t)
    (previewData : list ImportVolunteersModal.PreviewRow) (st : IOState W) :
  exists stats st',
    ImportVolunteersModal.handleImport participants previewData st = (JS.Returns stats, st').
Proof.
  destruct (ImportFacts.volunteers_loop_counted participants previewData
              (ImportVolunteersModal.mkStats 0 0 0 0) st) as (stats & st' & E & _).
  eauto.
Qed.

(** C4, on the failing input: two new rows, and a persistence layer whose
    first call rejects. The club import ends at the first row: the run
    throws, its log holds that one call, and nothing was written for the
    second row. The volunteers import on the same script counts the first row
    as failed and goes on to create the second. *)
Theorem C4_club_import_aborts :
  let faulty : Faulty.t := (Store.empty, [Faulty.Reject]) in
  let club_run :=
    run (ImportMembersModal.handleImport Sample.debate []
           [Sample.club_new_jane; Sample.club_new_bob]) faulty in
  let volunteers_run :=
    run (ImportVolunteersModal.handleImport []
           [Sample.volunteer_new_bob; Sample.volunteer_new_bob]) faulty in
  fst club_run = JS.Throws
  /\ length (calls (snd club_run)) = 1
  /\ Store.participants (world (snd club_run)).1 = []
  /\ fst volunteers_run = JS.Returns (ImportVolunteersModal.mkStats 1 0 0 1)
  /\ length (Store.participants (world (snd volunteers_run)).1) = 1.
Proof. cbn zeta. repeat split; vm_compute; reflexivity. Qed.

(** C10: in the club import a row that is processed increments exactly one
    of new, existing and skipped, and when its awaited calls return the import
    ends with a summary in which new + existing + skipped is the number of
    preview rows; in the volunteers import every row is processed and
    increments exactly one of new, existing, skipped and failed, and the
    import always ends with a summary in which
    new + existing + skipped + failed is the number of preview rows. *)
Theorem C10_every_row_counted_once
    (W : Type) (P : Persistence W) (R : Runtime)
    (club : Club.t) (participants : list Participant.t)
    (clubPreview : list ImportMembersModal.PreviewRow)
    (volunteersPreview : list ImportVolunteersModal.PreviewRow) (st : IOState W) :
  (forall stats temp row (st1 st2 : IOState W) stats' temp',
      ImportMembersModal.import_row club (stats, temp) row st1
      = (JS.Returns (stats', temp'), st2) ->
      stats' = ImportMembersModal.mkStats (S (ImportMembersModal.new stats))
                 (ImportMembersModal.existing stats) (ImportMembersModal.skipped stats)
      \/ stats' = ImportMembersModal.mkStats (ImportMembersModal.new stats)
                    (S (ImportMembersModal.existing stats))
                    (ImportMembersModal.skipped stats)
      \/ stats' = ImportMembersModal.mkStats (ImportMembersModal.new stats)
                    (ImportMembersModal.existing stats)
                    (S (ImportMembersModal.skipped stats)))
  /\ (Spec.club_calls_return W ->
      exists stats st',
        ImportMembersModal.handleImport club participants clubPreview st
        = (JS.Returns stats, st')
        /\ ImportMembersModal.new stats + ImportMembersModal.existing stats
           + ImportMembersModal.skipped stats = length clubPreview)
  /\ (forall stats row (st1 : IOState W),
        exists stats' st2,
          ImportVolunteersModal.import_row participants stats row st1
          = (JS.Returns stats', st2)
          /\ (stats' = ImportVolunteersModal.mkStats (S (ImportVolunteersModal.new stats))
                         (ImportVolunteersModal.existing stats)
                         (ImportVolunteersModal.skipped stats)
                         (ImportVolunteersModal.failed stats)
              \/ stats' = ImportVolunteersModal.mkStats (ImportVolunteersModal.new stats)
                            (S (ImportVolunteersModal.existing stats))
                            (ImportVolunteersModal.skipped stats)
                            (ImportVolunteersModal.failed stats)
              \/ stats' = ImportVolunteersModal.mkStats (ImportVolunteersModal.new stats)
                            (ImportVolunteersModal.existing stats)
                            (S (ImportVolunteersModal.skipped stats))
                            (ImportVolunteersModal.failed stats)
              \/ stats' = ImportVolunteersModal.mkStats (ImportVolunteersModal.new stats)
                            (ImportVolunteersModal.existing stats)
                            (ImportVolunteersModal.skipped stats)
                            (S (ImportVolunteersModal.failed stats))))
  /\ (exists stats st',
        ImportVolunteersModal.handleImport participants volunteersPreview st
        = (JS.Returns stats, st')
        /\ ImportVolunteersModal.new stats + ImportVolunteersModal.existing stats
           + ImportVolunteersModal.skipped stats + ImportVolunteersModal.failed stats
           = length volunteersPreview).
Proof.
  split; [|split; [|split]].
  - intros stats temp row st1 st2 stats' temp'.
    apply ImportFacts.club_row_one_counter.
  - intros Hret. unfold ImportMembersModal.handleImport, bind, ret.
    destruct (ImportFacts.club_loop_total club clubPreview
                (ImportMembersModal.mkStats 0 0 0, participants) st Hret)
      as ([stats temp] & st' & E).
    rewrite E. exists stats, st'. split; [reflexivity|].
    apply ImportFacts.club_loop_returns in E as [Hc _].
    unfold Spec.club_total in Hc. simpl in Hc. lia.
  - intros stats row st1.
    destruct (ImportFacts.volunteers_row_counted participants stats row st1)
      as (stats' & st2 & E & _).
    exists stats', st2. split; [exact E|].
    exact (ImportFacts.volunteers_row_one_counter participants stats row st1 stats' st2 E).
  - destruct (ImportFacts.volunteers_loop_counted participants volunteersPreview
                (ImportVolunteersModal.mkStats 0 0 0 0) st) as (stats & st' & E & Hc).
    exists stats, st'. split; [exact E|].
    unfold Spec.volunteers_total in Hc. simpl in Hc. lia.
Qed.

Lemma Store_calls_return : Spec.club_calls_return Store.t.
Proof.
  split.
  - intros fields clubId w. unfold addParticipant, Store.persistence.
    destruct (Store.add_participant fields clubId w). discriminate.
  - intros participantId clubId w. unfold addClubMembership, Store.persistence.
    destruct (Store.add_club_membership participantId clubId w). discriminate.
Qed.

Lemma C10_every_row_counted_once_witness :
  exists stats st',
    ImportMembersModal.handleImport Sample.debate [Sample.jane]
      [Sample.club_new_bob; Sample.club_existing_jane] (mkIO Store.empty [])
    = (JS.Returns stats, st')
    /\ ImportMembersModal.new stats + ImportMembersModal.existing stats
       + ImportMembersModal.skipped stats = 2.
Proof.
  apply (proj1 (proj2 (C10_every_row_counted_once Store.t Store.persistence
                         ExampleHost.runtime Sample.debate [Sample.jane]
                         [Sample.club_new_bob; Sample.club_existing_jane] []
                         (mkIO Store.empty [])))).
  exact Store_calls_return.
Defined.

(** C3, counterexample: in the club import an existing row that is not found
    in the shadow copy is counted as skipped, the summary having no failed
    counter: Bob is in the preview as an existing participant and is gone
    from the participants when the import runs. In the volunteers import an
    existing row whose participant is found is not attached when the start
    date of the row cannot be read: the row is counted as failed and no call
    is made. *)
Lemma C3_counterexample :
  (let preview :=
     ImportMembersModal.processFile Sample.debate [Sample.bob] [] [Sample.row_bob] in
   let out := run (ImportMembersModal.handleImport Sample.debate [] preview) Store.empty in
   map ImportMembersModal.status preview = [ImportMembersModal.ExistingParticipant]
   /\ fst out = JS.Returns (ImportMembersModal.mkStats 0 0 1)
   /\ calls (snd out) = [])
  /\ (let row := <["StartDate" := "soon"]> Sample.row_jane_mentor in
      exists preview,
        ImportVolunteersModal.processFile [Sample.jane] [] [row] = Some preview
        /\ map ImportVolunteersModal.status preview
           = [ImportVolunteersModal.ExistingParticipant]
        /\ ImportVolunteersModal.participantMap [Sample.jane]
             !! (JS.toLowerCase "Jane Doe" ++ "_" ++ JS.toLowerCase "X")
           = Some Sample.jane
        /\ (let out :=
              run (ImportVolunteersModal.handleImport [Sample.jane] preview) Store.empty in
            fst out = JS.Returns (ImportVolunteersModal.mkStats 0 0 0 1)
            /\ calls (snd out) = [])).
Proof.
  split.
  - cbn zeta. repeat split; vm_compute; reflexivity.
  - cbn zeta. eexists. split; [reflexivity|]. repeat split; vm_compute; reflexivity.
Qed.

(** C3, as amended: in the club import an existing row is resolved by looking
    up its Name and Contact in the shadow copy, which is the list of
    participants given to the dialog extended with every participant created
    by the earlier rows of the run; when it is found the only call is
    [addClubMembership] for that participant, and the row counts as existing
    when the call returns true and as skipped when it returns false; when it
    is not found the row counts as skipped and no call is made. In the
    volunteers import an existing row whose Name and Contact carry no
    surrounding white space fails without a call when its start date cannot
    be read; otherwise it is resolved by looking up
    [lowercase(trim(Name)) + "_" + lowercase(trim(Contact))], the key of the
    preview, in the map of the participants given to the dialog; when it is
    found the only call is [addVolunteer] for that participant, and when it
    is not found failed is incremented and no call is made. *)
Theorem C3_existing_rows
    (W : Type) (P : Persistence W) (R : Runtime)
    (club : Club.t) (participants : list Participant.t) :
  (forall (before : list ImportMembersModal.PreviewRow) (row : ImportMembersModal.PreviewRow)
      (st st1 : IOState W) stats temp,
      ImportMembersModal.status row = ImportMembersModal.ExistingParticipant ->
      for_of (ImportMembersModal.import_row club) before
        (ImportMembersModal.mkStats 0 0 0, participants) st
      = (JS.Returns (stats, temp), st1) ->
      (exists log, calls st1 = (calls st ++ log)%list
                   /\ temp = (participants ++ Spec.created_participants log)%list)
      /\ match List.find (ImportMembersModal.same_person (ImportMembersModal.data row)) temp
         with
         | Some participant =>
             exists r w,
               ImportMembersModal.import_row club (stats, temp) row st1
               = (match r with
                  | JS.Returns true =>
                      JS.Returns
                        (ImportMembersModal.mkStats (ImportMembersModal.new stats)
                           (S (ImportMembersModal.existing stats))
                           (ImportMembersModal.skipped stats), temp)
                  | JS.Returns false =>
                      JS.Returns
                        (ImportMembersModal.mkStats (ImportMembersModal.new stats)
                           (ImportMembersModal.existing stats)
                           (S (ImportMembersModal.skipped stats)), temp)
                  | JS.Throws => JS.Throws
                  end,
                  mkIO w (calls st1
                          ++ [CallAddClubMembership (Participant.id participant)
                                (Club.id club) r])%list)
         | None =>
             ImportMembersModal.import_row club (stats, temp) row st1
             = (JS.Returns
                  (ImportMembersModal.mkStats (ImportMembersModal.new stats)
                     (ImportMembersModal.existing stats)
                     (S (ImportMembersModal.skipped stats)), temp), st1)
         end)
  /\ (forall (row : ImportVolunteersModal.PreviewRow) (st : IOState W) stats
        (name contact : string),
      ImportVolunteersModal.status row = ImportVolunteersModal.ExistingParticipant ->
      ImportVolunteersModal.data row !! "Name" = Some name ->
      ImportVolunteersModal.data row !! "Contact" = Some contact ->
      JS.trim name = name -> JS.trim contact = contact ->
      let failed_row :=
        JS.Returns
          (ImportVolunteersModal.mkStats (ImportVolunteersModal.new stats)
             (ImportVolunteersModal.existing stats) (ImportVolunteersModal.skipped stats)
             (S (ImportVolunteersModal.failed stats))) in
      let resolve := fun startDate : JSDate =>
        match ImportVolunteersModal.participantMap participants
              !! (JS.toLowerCase (JS.trim name) ++ "_" ++ JS.toLowerCase (JS.trim contact))
        with
        | Some participant =>
            let volunteer :=
              NewVolunteer.mk (Participant.id participant)
                (ImportVolunteersModal.data row !! "Role") Active startDate in
            (match fst (addVolunteer volunteer (world st)) with
             | JS.Returns _ =>
                 JS.Returns
                   (ImportVolunteersModal.mkStats (ImportVolunteersModal.new stats)
                      (S (ImportVolunteersModal.existing stats))
                      (ImportVolunteersModal.skipped stats)
                      (ImportVolunteersModal.failed stats))
             | JS.Throws => failed_row
             end,
             mkIO (snd (addVolunteer volunteer (world st)))
               (calls st ++ [CallAddVolunteer volunteer
                               (fst (addVolunteer volunteer (world st)))])%list)
        | None => (failed_row, st)
        end in
      ImportVolunteersModal.import_row participants stats row st
      = match ImportVolunteersModal.data row !! "StartDate" with
        | Some (String _ _ as s) =>
            match Date_parse s with
            | Some startDate => resolve startDate
            | None => (failed_row, st)
            end
        | _ => resolve (Date_now (world st))
        end).
Proof.
  split.
  - intros before row st st1 stats temp Hs Hloop. split.
    + apply ImportFacts.club_loop_returns in Hloop as (_ & log & Hl & Ht). eauto.
    + rewrite (ImportFacts.club_row_existing club stats temp row st1 Hs).
      destruct (List.find _ temp) as [p|]; [|reflexivity].
      destruct (addClubMembership _ _ _) as [r w]. exists r, w. reflexivity.
  - intros row st stats name contact Hs Hn Hc Tn Tc. cbn zeta.
    rewrite (ImportFacts.volunteers_row_existing participants stats row st Hs).
    cbn zeta. rewrite Hn, Hc, Tn, Tc.
    assert (forall startDate,
              match ImportVolunteersModal.participantMap participants
                    !! (JS.toLowerCase name ++ "_" ++ JS.toLowerCase contact) with
              | Some participant =>
                  let '(r, w) :=
                    addVolunteer
                      (NewVolunteer.mk (Participant.id participant)
                         (ImportVolunteersModal.data row !! "Role") Active startDate)
                      (world st) in
                  (match r with
                   | JS.Returns _ =>
                       JS.Returns
                         (ImportVolunteersModal.mkStats (ImportVolunteersModal.new stats)
                            (S (ImportVolunteersModal.existing stats))
                            (ImportVolunteersModal.skipped stats)
                            (ImportVolunteersModal.failed stats))
                   | JS.Throws =>
                       JS.Returns
                         (ImportVolunteersModal.mkStats (ImportVolunteersModal.new stats)
                            (ImportVolunteersModal.existing stats)
                            (ImportVolunteersModal.skipped stats)
                            (S (ImportVolunteersModal.failed stats)))
                   end,
                   mkIO w (calls st
                           ++ [CallAddVolunteer
                                 (NewVolunteer.mk (Participant.id participant)
                                    (ImportVolunteersModal.data row !! "Role") Active
                                    startDate) r])%list)
              | None =>
                  (JS.Returns
                     (ImportVolunteersModal.mkStats (ImportVolunteersModal.new stats)
                        (ImportVolunteersModal.existing stats)
                        (ImportVolunteersModal.skipped stats)
                        (S (ImportVolunteersModal.failed stats))), st)
              end
              = match ImportVolunteersModal.participantMap participants
                      !! (JS.toLowerCase name ++ "_" ++ JS.toLowerCase contact) with
                | Some participant =>
                    let volunteer :=
                      NewVolunteer.mk (Participant.id participant)
                        (ImportVolunteersModal.data row !! "Role") Active startDate in
                    (match fst (addVolunteer volunteer (world st)) with
                     | JS.Returns _ =>
                         JS.Returns
                           (ImportVolunteersModal.mkStats (ImportVolunteersModal.new stats)
                              (S (ImportVolunteersModal.existing stats))
                              (ImportVolunteersModal.skipped stats)
                              (ImportVolunteersModal.failed stats))
                     | JS.Throws =>
                         JS.Returns
                           (ImportVolunteersModal.mkStats (ImportVolunteersModal.new stats)
                              (ImportVolunteersModal.existing stats)
                              (ImportVolunteersModal.skipped stats)
                              (S (ImportVolunteersModal.failed stats)))
                     end,
                     mkIO (snd (addVolunteer volunteer (world st)))
                       (calls st ++ [CallAddVolunteer volunteer
                                       (fst (addVolunteer volunteer (world st)))])%list)
                | None =>
                    (JS.Returns
                       (ImportVolunteersModal.mkStats (ImportVolunteersModal.new stats)
                          (ImportVolunteersModal.existing stats)
                          (ImportVolunteersModal.skipped stats)
                          (S (ImportVolunteersModal.failed stats))), st)
                end) as Hresolve.
    { intros startDate.
      destruct (ImportVolunteersModal.participantMap participants !! _) as [p|];
        [|reflexivity].
      cbn zeta. destruct (addVolunteer _ _) as [r w]. reflexivity. }
    unfold ImportVolunteersModal.start_date. ImportFacts.async_unfold.
    destruct (ImportVolunteersModal.data row !! "StartDate") as [[|a s]|];
      cbn [fst]; try apply Hresolve.
    destruct (Date_parse (String a s)); cbn [fst]; [apply Hresolve|reflexivity].
Qed.

Lemma C3_existing_rows_witness :
  let fields := ImportMembersModal.new_participant_fields Sample.debate Sample.row_jane in
  let created := Store.create fields Store.empty in
  let temp := [Sample.bob; created] in
  let st1 :=
    mkIO (snd (Store.add_participant fields (Some "c1") Store.empty))
      [CallAddParticipant fields (Some "c1") (JS.Returns (Some created))] in
  let volunteer := NewVolunteer.mk "p1" (Some "Mentor") Active 0%Z in
  (ImportMembersModal.processFile Sample.debate [Sample.bob] []
     [Sample.row_jane; Sample.row_bob]
   = [Sample.club_new_jane; Sample.club_existing_bob])
  /\ ((exists log, calls st1 = ([] ++ log)%list
                   /\ temp = ([Sample.bob] ++ Spec.created_participants log)%list)
      /\ exists r w,
           ImportMembersModal.import_row Sample.debate
             (ImportMembersModal.mkStats 1 0 0, temp) Sample.club_existing_bob st1
           = (match r with
              | JS.Returns true => JS.Returns (ImportMembersModal.mkStats 1 1 0, temp)
              | JS.Returns false => JS.Returns (ImportMembersModal.mkStats 1 0 1, temp)
              | JS.Throws => JS.Throws
              end,
              mkIO w (calls st1 ++ [CallAddClubMembership "p2" "c1" r])%list))
  /\ ImportVolunteersModal.import_row [Sample.jane] (ImportVolunteersModal.mkStats 0 0 0 0)
       Sample.volunteer_existing_jane (mkIO Store.empty [])
     = (JS.Returns (ImportVolunteersModal.mkStats 0 1 0 0),
        mkIO (Store.add_volunteer volunteer Store.empty)
          [CallAddVolunteer volunteer (JS.Returns tt)]).
Proof.
  cbn zeta. split; [vm_compute; reflexivity|]. split.
  - assert (for_of (ImportMembersModal.import_row Sample.debate) [Sample.club_new_jane]
              (ImportMembersModal.mkStats 0 0 0, [Sample.bob]) (mkIO Store.empty [])
            = (JS.Returns
                 (ImportMembersModal.mkStats 1 0 0,
                  [Sample.bob;
                   Store.create
                     (ImportMembersModal.new_participant_fields Sample.debate
                        Sample.row_jane) Store.empty]),
               mkIO (snd (Store.add_participant
                            (ImportMembersModal.new_participant_fields Sample.debate
                               Sample.row_jane) (Some "c1") Store.empty))
                 [CallAddParticipant
                    (ImportMembersModal.new_participant_fields Sample.debate
                       Sample.row_jane) (Some "c1")
                    (JS.Returns
                       (Some (Store.create
                                (ImportMembersModal.new_participant_fields Sample.debate
                                   Sample.row_jane) Store.empty)))])) as Hloop.
    { vm_compute. reflexivity. }
    exact (proj1 (C3_existing_rows Store.t Store.persistence ExampleHost.runtime
                    Sample.debate [Sample.bob])
             [Sample.club_new_jane] Sample.club_existing_bob (mkIO Store.empty []) _ _ _
             eq_refl Hloop).
  - exact (proj2 (C3_existing_rows Store.t Store.persistence ExampleHost.runtime
                    Sample.debate [Sample.jane])
             Sample.volunteer_existing_jane (mkIO Store.empty [])
             (ImportVolunteersModal.mkStats 0 0 0 0) "Jane Doe" "X"
             eq_refl eq_refl eq_refl eq_refl eq_refl).
Defined.

(** C5, counterexample: in the club import a new row whose creation returns
    no participant increments skipped; the summary has no failed counter. *)
Lemma C5_counterexample :
  fst (run (ImportMembersModal.handleImport Sample.debate [] [Sample.club_new_bob])
         ((Store.empty, [Faulty.Falsy]) : Faulty.t))
  = JS.Returns (ImportMembersModal.mkStats 0 0 1).
Proof. vm_compute. reflexivity. Qed.

(** C5, as amended: in the volunteers import a new row whose start date
    cannot be read increments failed and makes no call. Otherwise
    [addParticipant] is called, with the start date of the row, or the date
    at which the row is reached when the row gives none; when it returns a
    participant [addVolunteer] is called for that participant, and the row
    increments new when that call returns and failed when it throws; when
    [addParticipant] throws or returns no participant the row increments
    failed and [addVolunteer] is not called. No other counter changes. In the
    club import, whose summary has no failed counter, a new row increments new
    when [addParticipant] returns a participant and skipped when it returns
    none. *)
Theorem C5_new_rows
    (W : Type) (P : Persistence W) (R : Runtime)
    (club : Club.t) (participants : list Participant.t) :
  (forall (row : ImportVolunteersModal.PreviewRow) (st : IOState W) stats,
      ImportVolunteersModal.status row = ImportVolunteersModal.NewParticipant ->
      let fields :=
        ImportVolunteersModal.new_participant_fields (ImportVolunteersModal.data row) in
      let failed_row :=
        JS.Returns
          (ImportVolunteersModal.mkStats (ImportVolunteersModal.new stats)
             (ImportVolunteersModal.existing stats) (ImportVolunteersModal.skipped stats)
             (S (ImportVolunteersModal.failed stats))) in
      let create := fun startDate : JSDate =>
        let created := addParticipant fields None (world st) in
        match fst created with
        | JS.Returns (Some p) =>
            let volunteer :=
              NewVolunteer.mk (Participant.id p) (ImportVolunteersModal.data row !! "Role")
                Active startDate in
            let added := addVolunteer volunteer (snd created) in
            (match fst added with
             | JS.Returns _ =>
                 JS.Returns
                   (ImportVolunteersModal.mkStats (S (ImportVolunteersModal.new stats))
                      (ImportVolunteersModal.existing stats)
                      (ImportVolunteersModal.skipped stats)
                      (ImportVolunteersModal.failed stats))
             | JS.Throws => failed_row
             end,
             mkIO (snd added)
               (calls st ++ [CallAddParticipant fields None (fst created);
                             CallAddVolunteer volunteer (fst added)])%list)
        | _ =>
            (failed_row,
             mkIO (snd created)
               (calls st ++ [CallAddParticipant fields None (fst created)])%list)
        end in
      ImportVolunteersModal.import_row participants stats row st
      = match ImportVolunteersModal.data row !! "StartDate" with
        | Some (String _ _ as s) =>
            match Date_parse s with
            | Some startDate => create startDate
            | None => (failed_row, st)
            end
        | _ => create (Date_now (world st))
        end)
  /\ (forall (row : ImportMembersModal.PreviewRow) (st : IOState W) stats temp,
      ImportMembersModal.status row = ImportMembersModal.NewParticipant ->
      let fields := ImportMembersModal.new_participant_fields club (ImportMembersModal.data row) in
      exists r w,
        addParticipant fields (Some (Club.id club)) (world st) = (r, w)
        /\ ImportMembersModal.import_row club (stats, temp) row st
           = (match r with
              | JS.Returns (Some p) =>
                  JS.Returns
                    (ImportMembersModal.mkStats (S (ImportMembersModal.new stats))
                       (ImportMembersModal.existing stats)
                       (ImportMembersModal.skipped stats), (temp ++ [p])%list)
              | JS.Returns None =>
                  JS.Returns
                    (ImportMembersModal.mkStats (ImportMembersModal.new stats)
                       (ImportMembersModal.existing stats)
                       (S (ImportMembersModal.skipped stats)), temp)
              | JS.Throws => JS.Throws
              end,
              mkIO w (calls st ++ [CallAddParticipant fields (Some (Club.id club)) r])%list)).
Proof.
  split.
  - intros row st stats Hs. cbn zeta.
    rewrite (ImportFacts.volunteers_row_new participants stats row st Hs). cbn zeta.
    assert (forall startDate,
              (let '(r, w) :=
                 addParticipant
                   (ImportVolunteersModal.new_participant_fields
                      (ImportVolunteersModal.data row)) None (world st) in
               match r with
               | JS.Returns (Some p) =>
                   let '(r', w') :=
                     addVolunteer
                       (NewVolunteer.mk (Participant.id p)
                          (ImportVolunteersModal.data row !! "Role") Active startDate) w in
                   (match r' with
                    | JS.Returns _ =>
                        JS.Returns
                          (ImportVolunteersModal.mkStats
                             (S (ImportVolunteersModal.new stats))
                             (ImportVolunteersModal.existing stats)
                             (ImportVolunteersModal.skipped stats)
                             (ImportVolunteersModal.failed stats))
                    | JS.Throws =>
                        JS.Returns
                          (ImportVolunteersModal.mkStats (ImportVolunteersModal.new stats)
                             (ImportVolunteersModal.existing stats)
                             (ImportVolunteersModal.skipped stats)
                             (S (ImportVolunteersModal.failed stats)))
                    end,
                    mkIO w'
                      (calls st
                       ++ [CallAddParticipant
                             (ImportVolunteersModal.new_participant_fields
                                (ImportVolunteersModal.data row)) None r;
                           CallAddVolunteer
                             (NewVolunteer.mk (Participant.id p)
                                (ImportVolunteersModal.data row !! "Role") Active
                                startDate) r'])%list)
               | _ =>
                   (JS.Returns
                      (ImportVolunteersModal.mkStats (ImportVolunteersModal.new stats)
                         (ImportVolunteersModal.existing stats)
                         (ImportVolunteersModal.skipped stats)
                         (S (ImportVolunteersModal.failed stats))),
                    mkIO w
                      (calls st
                       ++ [CallAddParticipant
                             (ImportVolunteersModal.new_participant_fields
                                (ImportVolunteersModal.data row)) None r])%list)
               end)
              = match fst (addParticipant
                             (ImportVolunteersModal.new_participant_fields
                                (ImportVolunteersModal.data row)) None (world st)) with
                | JS.Returns (Some p) =>
                    (match fst (addVolunteer
                                  (NewVolunteer.mk (Participant.id p)
                                     (ImportVolunteersModal.data row !! "Role") Active
                                     startDate)
                                  (snd (addParticipant
                                          (ImportVolunteersModal.new_participant_fields
                                             (ImportVolunteersModal.data row)) None
                                          (world st)))) with
                     | JS.Returns _ =>
                         JS.Returns
                           (ImportVolunteersModal.mkStats
                              (S (ImportVolunteersModal.new stats))
                              (ImportVolunteersModal.existing stats)
                              (ImportVolunteersModal.skipped stats)
                              (ImportVolunteersModal.failed stats))
                     | JS.Throws =>
                         JS.Returns
                           (ImportVolunteersModal.mkStats (ImportVolunteersModal.new stats)
                              (ImportVolunteersModal.existing stats)
                              (ImportVolunteersModal.skipped stats)
                              (S (ImportVolunteersModal.failed stats)))
                     end,
                     mkIO (snd (addVolunteer
                                  (NewVolunteer.mk (Participant.id p)
                                     (ImportVolunteersModal.data row !! "Role") Active
                                     startDate)
                                  (snd (addParticipant
                                          (ImportVolunteersModal.new_participant_fields
                                             (ImportVolunteersModal.data row)) None
                                          (world st)))))
                       (calls st
                        ++ [CallAddParticipant
                              (ImportVolunteersModal.new_participant_fields
                                 (ImportVolunteersModal.data row)) None
                              (fst (addParticipant
                                      (ImportVolunteersModal.new_participant_fields
                                         (ImportVolunteersModal.data row)) None
                                      (world st)));
                            CallAddVolunteer
                              (NewVolunteer.mk (Participant.id p)
                                 (ImportVolunteersModal.data row !! "Role") Active
                                 startDate)
                              (fst (addVolunteer
                                      (NewVolunteer.mk (Participant.id p)
                                         (ImportVolunteersModal.data row !! "Role") Active
                                         startDate)
                                      (snd (addParticipant
                                              (ImportVolunteersModal.new_participant_fields
                                                 (ImportVolunteersModal.data row)) None
                                              (world st)))))])%list)
                | _ =>
                    (JS.Returns
                       (ImportVolunteersModal.mkStats (ImportVolunteersModal.new stats)
                          (ImportVolunteersModal.existing stats)
                          (ImportVolunteersModal.skipped stats)
                          (S (ImportVolunteersModal.failed stats))),
                     mkIO (snd (addParticipant
                                  (ImportVolunteersModal.new_participant_fields
                                     (ImportVolunteersModal.data row)) None (world st)))
                       (calls st
                        ++ [CallAddParticipant
                              (ImportVolunteersModal.new_participant_fields
                                 (ImportVolunteersModal.data row)) None
                              (fst (addParticipant
                                      (ImportVolunteersModal.new_participant_fields
                                         (ImportVolunteersModal.data row)) None
                                      (world st)))])%list)
                end) as Hcreate.
    { intros startDate. destruct (addParticipant _ _ _) as [[[p|]|] w]; try reflexivity.
      cbn [fst snd]. destruct (addVolunteer _ _) as [r' w']. reflexivity. }
    unfold ImportVolunteersModal.start_date. ImportFacts.async_unfold.
    destruct (ImportVolunteersModal.data row !! "StartDate") as [[|a s]|];
      cbn [fst]; try apply Hcreate.
    destruct (Date_parse (String a s)); cbn [fst]; [apply Hcreate|reflexivity].
  - intros row st stats temp Hs. cbn zeta.
    pose proof (ImportFacts.club_row_new club stats temp row st Hs) as E. cbn zeta in E.
    destruct (addParticipant _ _ _) as [r w]. exists r, w. split; [reflexivity|exact E].
Qed.

Lemma C5_new_rows_witness :
  (let fields := ImportVolunteersModal.new_participant_fields Sample.row_bob_mentor in
   let created := Store.create fields Store.empty in
   let volunteer := NewVolunteer.mk (Participant.id created) (Some "Mentor") Active 0%Z in
   ImportVolunteersModal.import_row [] (ImportVolunteersModal.mkStats 0 0 0 0)
     Sample.volunteer_new_bob
     (mkIO ((Store.empty, [Faulty.Pass; Faulty.Reject]) : Faulty.t) [])
   = (JS.Returns (ImportVolunteersModal.mkStats 0 0 0 1),
      mkIO ((snd (Store.add_participant fields None Store.empty), []) : Faulty.t)
        [CallAddParticipant fields None (JS.Returns (Some created));
         CallAddVolunteer volunteer JS.Throws]))
  /\ (let row :=
        ImportVolunteersModal.mkRow (<["StartDate" := "soon"]> Sample.row_bob_mentor)
          ImportVolunteersModal.NewParticipant
          "Will be created and added as a volunteer." in
      ImportVolunteersModal.import_row [] (ImportVolunteersModal.mkStats 0 0 0 0) row
        (mkIO Store.empty [])
      = (JS.Returns (ImportVolunteersModal.mkStats 0 0 0 1), mkIO Store.empty []))
  /\ exists r w,
       addParticipant
         (ImportMembersModal.new_participant_fields Sample.debate Sample.row_bob)
         (Some "c1") ((Store.empty, [Faulty.Falsy]) : Faulty.t) = (r, w)
       /\ ImportMembersModal.import_row Sample.debate (ImportMembersModal.mkStats 0 0 0, [])
            Sample.club_new_bob (mkIO ((Store.empty, [Faulty.Falsy]) : Faulty.t) [])
          = (match r with
             | JS.Returns (Some p) => JS.Returns (ImportMembersModal.mkStats 1 0 0, [p])
             | JS.Returns None => JS.Returns (ImportMembersModal.mkStats 0 0 1, [])
             | JS.Throws => JS.Throws
             end,
             mkIO w [CallAddParticipant
                       (ImportMembersModal.new_participant_fields Sample.debate
                          Sample.row_bob) (Some "c1") r]).
Proof.
  cbn zeta. split; [|split].
  - exact (proj1 (C5_new_rows Faulty.t Faulty.persistence ExampleHost.runtime
                    Sample.debate [])
             Sample.volunteer_new_bob
             (mkIO ((Store.empty, [Faulty.Pass; Faulty.Reject]) : Faulty.t) [])
             (ImportVolunteersModal.mkStats 0 0 0 0) eq_refl).
  - exact (proj1 (C5_new_rows Store.t Store.persistence ExampleHost.runtime
                    Sample.debate [])
             (ImportVolunteersModal.mkRow (<["StartDate" := "soon"]> Sample.row_bob_mentor)
                ImportVolunteersModal.NewParticipant
                "Will be created and added as a volunteer.")
             (mkIO Store.empty []) (ImportVolunteersModal.mkStats 0 0 0 0) eq_refl).
  - exact (proj2 (C5_new_rows Faulty.t Faulty.persistence ExampleHost.runtime
                    Sample.debate [])
             Sample.club_new_bob (mkIO ((Store.empty, [Faulty.Falsy]) : Faulty.t) [])
             (ImportMembersModal.mkStats 0 0 0) [] eq_refl).
Defined.

(** ** The export *)

Module ExportFacts.
Import ExportParticipantsModal.

Lemma get_set_property (o : list (string * value)) (h h' : string) (v : value) :
  get_property (set_property o h v) h'
  = if String.eqb h h' then Some v else get_property o h'.
Proof.
  induction o as [|[h0 v0] o IH]; simpl.
  - destruct (String.eqb h h'); reflexivity.
  - destruct (String.eqb h0 h) eqn:E0; simpl.
    + apply String.eqb_eq in E0 as ->. destruct (String.eqb h h'); reflexivity.
    + rewrite IH. destruct (String.eqb h0 h') eqn:E1; [|reflexivity].
      apply String.eqb_eq in E1 as ->. now rewrite String.eqb_sym, E0.
Qed.

(** No two columns share a header. *)
Lemma label_inj (key key' : ColumnKey) : label key = label key' -> key = key'.
Proof. destruct key, key'; intros E; try reflexivity; vm_compute in E; discriminate. Qed.

Lemma every_key_listed (key : ColumnKey) : In key (map fst ALL_COLUMNS).
Proof. destruct key; simpl; tauto. Qed.

Lemma orderedColumns_spec (selectedColumns : gset ColumnKey) (key : ColumnKey) :
  In key (orderedColumns selectedColumns) <-> key ∈ selectedColumns.
Proof.
  unfold orderedColumns. rewrite filter_In. split.
  - intros [_ Hsel]. now apply bool_decide_eq_true in Hsel.
  - intros Hsel. split; [apply every_key_listed|now apply bool_decide_eq_true].
Qed.

(** Once the properties of [keys] are set, the header of each of them holds
    the value set for it. *)
Lemma get_after_assignments (f : ColumnKey -> value) (key : ColumnKey) (keys : list ColumnKey) :
  forall row : list (string * value),
    In key keys \/ get_property row (label key) = Some (f key) ->
    get_property (foldl (fun row k => set_property row (label k) (f k)) row keys) (label key)
    = Some (f key).
Proof.
  induction keys as [|k keys IH]; intros row Hk; simpl.
  - destruct Hk as [[]|Hk]. exact Hk.
  - apply IH. destruct (in_dec ColumnKey_eq_dec key keys) as [Hin|Hnin]; [now left|right].
    rewrite get_set_property. destruct (String.eqb (label k) (label key)) eqn:E.
    + apply String.eqb_eq, label_inj in E. now subst.
    + destruct Hk as [[->|Hin]|Hk]; [|contradiction|exact Hk].
      now rewrite String.eqb_refl in E.
Qed.

Section Formatting.
Context `{Runtime}.

Lemma exported_cell (selectedColumns : gset ColumnKey) (participant : Participant.t)
    (key : ColumnKey) :
  key ∈ selectedColumns ->
  get_property (exportedRow selectedColumns participant) (label key)
  = Some (format (field participant key)).
Proof.
  intros Hsel. unfold exportedRow.
  apply (get_after_assignments (fun k => format (field participant k))).
  left. now apply orderedColumns_spec.
Qed.

Lemma handleExport_exports (participantsToExport : list Participant.t)
    (selectedColumns : gset ColumnKey) (participant : Participant.t) (key : ColumnKey) :
  participant ∈ participantsToExport -> key ∈ selectedColumns ->
  handleExport participantsToExport selectedColumns
  = Exported (map (exportedRow selectedColumns) participantsToExport).
Proof.
  intros Hp Hk. unfold handleExport.
  destruct participantsToExport as [|p ps]; [now apply elem_of_nil in Hp|].
  cbn [length Nat.eqb].
  destruct (size selectedColumns) eqn:Esize; [|reflexivity].
  apply size_empty_inv in Esize. apply Esize in Hk. now apply not_elem_of_empty in Hk.
Qed.
End Formatting.

End ExportFacts.

(** C9: when there is a participant to export and a column is selected, the
    export produces one row per participant, in order, and in the row of a
    participant the cell under the header of a selected column is: the locale
    date string for a date, "Yes" for true and "No" for false, the empty
    string for undefined or null, and the value itself otherwise. *)
Theorem C9_export_formatting
    (R : Runtime) (participantsToExport : list Participant.t)
    (selectedColumns : gset ExportParticipantsModal.ColumnKey)
    (i : nat) (participant : Participant.t) (key : ExportParticipantsModal.ColumnKey) :
  participantsToExport !! i = Some participant ->
  key ∈ selectedColumns ->
  exists dataToExport exportedRow,
    ExportParticipantsModal.handleExport participantsToExport selectedColumns
    = ExportParticipantsModal.Exported dataToExport
    /\ length dataToExport = length participantsToExport
    /\ dataToExport !! i = Some exportedRow
    /\ let cell :=
         ExportParticipantsModal.get_property exportedRow
           (ExportParticipantsModal.label key) in
       match ExportParticipantsModal.field participant key with
       | ExportParticipantsModal.VDate d =>
           cell = Some (ExportParticipantsModal.VString (toLocaleDateString d))
       | ExportParticipantsModal.VBoolean true =>
           cell = Some (ExportParticipantsModal.VString "Yes")
       | ExportParticipantsModal.VBoolean false =>
           cell = Some (ExportParticipantsModal.VString "No")
       | ExportParticipantsModal.VUndefined | ExportParticipantsModal.VNull =>
           cell = Some (ExportParticipantsModal.VString "")
       | v => cell = Some v
       end.
Proof.
  intros Hi Hk.
  exists (map (ExportParticipantsModal.exportedRow selectedColumns) participantsToExport),
    (ExportParticipantsModal.exportedRow selectedColumns participant).
  split; [|split; [|split]].
  - apply (ExportFacts.handleExport_exports _ _ participant key); [|exact Hk].
    apply list_elem_of_lookup. eauto.
  - apply length_map.
  - change (map ?f ?l) with (f <$> l). now rewrite list_lookup_fmap, Hi.
  - cbn zeta. rewrite (ExportFacts.exported_cell selectedColumns participant key Hk).
    destruct (ExportParticipantsModal.field participant key) as [s|n|[|]|d| |]; reflexivity.
Qed.

Lemma C9_export_formatting_witness :
  exists dataToExport exportedRow,
    ExportParticipantsModal.handleExport [Sample.jane]
      ExportParticipantsModal.default_columns
    = ExportParticipantsModal.Exported dataToExport
    /\ length dataToExport = 1
    /\ dataToExport !! 0 = Some exportedRow
    /\ ExportParticipantsModal.get_property exportedRow "Membership Status"
       = Some (ExportParticipantsModal.VString "Yes").
Proof.
  apply (C9_export_formatting ExampleHost.runtime [Sample.jane]
           ExportParticipantsModal.default_columns 0 Sample.jane
           ExportParticipantsModal.membershipStatus).
  - reflexivity.
  - refine (bool_decide_unpack _ _). vm_compute. exact I.
Defined.

(** ** Importing a file again *)

Module ReimportFacts.
Import JS JSFacts ImportParticipantsModal.

(** What [Store] holds after [addMultipleParticipants]: the participants it
    held, followed by one participant per element, with the name and contact
    passed for it. *)
Lemma add_multiple_participants_spec (fields : list NewParticipant.t) : forall s : Store.t,
  exists created,
    Store.participants (snd (Store.add_multiple_participants fields s))
    = (Store.participants s ++ created)%list
    /\ Forall2 (fun p f => Participant.name p = default "" (NewParticipant.name f)
                           /\ Participant.contact p = default "" (NewParticipant.contact f))
         created fields.
Proof.
  unfold Store.add_multiple_participants. cbn [snd].
  induction fields as [|f fields IH]; intros s; cbn [foldl].
  - exists []. split; [now rewrite app_nil_r|constructor].
  - destruct (IH (Store.add_participant f None s).2) as (created & E & Hall).
    exists (Store.create f s :: created). split.
    + rewrite E. cbn. now rewrite <- app_assoc.
    + constructor; [split; reflexivity|exact Hall].
Qed.

Section Snapshots.
Variables participants participants' : list Participant.t.

(** A row that matched keeps matching when the snapshot only grows. *)
Lemma existing_stays (row : Row) :
  (forall p, p ∈ participants -> p ∈ participants') ->
  status <$> validate participants row = Some ParticipantAlreadyExists ->
  status <$> validate participants' row = Some ParticipantAlreadyExists.
Proof.
  intros Hsub. unfold validate.
  destruct (negb _ && negb _ && _); [discriminate|].
  destruct (row_name row) as [[|a n]|], (row_contact row) as [[|b c]|]; try discriminate.
  case_bool_decide as Hin; [|discriminate]. intros _.
  rewrite bool_decide_eq_true_2; [reflexivity|].
  apply ClassifyFacts.participantMap_has in Hin as (p & Hp & Hk).
  apply ClassifyFacts.participantMap_has. eauto.
Qed.

(** A new row whose participant is in the grown snapshot, with the name and
    contact that [handleImport] passes for it, is classified as already
    existing, provided the classifier read the cells that were written. *)
Lemma new_row_absorbed (row : Row) (p : Participant.t) :
  status <$> validate participants row = Some NewParticipant ->
  Spec.reads_what_it_writes row ->
  p ∈ participants' ->
  Some (Participant.name p) = NewParticipant.name (new_participant_fields row) ->
  Some (Participant.contact p) = NewParticipant.contact (new_participant_fields row) ->
  status <$> validate participants' row = Some ParticipantAlreadyExists.
Proof.
  intros Hnew [Hrn Hrc] Hp Hname Hcontact. cbn in Hname, Hcontact.
  rewrite <- Hname in Hrn. rewrite <- Hcontact in Hrc. cbn in Hrn, Hrc.
  assert (JS.trim (Participant.name p) <> "" /\ JS.trim (Participant.contact p) <> "")
    as [Hn Hc].
  { revert Hnew. unfold validate. rewrite Hrn, Hrc.
    destruct (negb _ && negb _ && _); [discriminate|].
    destruct (JS.trim (Participant.name p)); [discriminate|].
    destruct (JS.trim (Participant.contact p)); [discriminate|].
    split; discriminate. }
  rewrite (ClassifyFacts.participants_valid participants' row _ _ Hrn Hrc Hn Hc).
  rewrite bool_decide_eq_true_2; [reflexivity|].
  apply ClassifyFacts.participantMap_has. exists p. split; [exact Hp|reflexivity].
Qed.
End Snapshots.

(** *** The club import on the in-memory store *)
Section ClubStore.
Import ImportMembersModal.
Variable club : Club.t.

Lemma clubMemberIds_spec (ms : list ClubMembership.t) (pid : UUID) :
  pid ∈ clubMemberIds club ms
  <-> exists cm, cm ∈ ms /\ ClubMembership.clubId cm = Club.id club
                 /\ ClubMembership.participantId cm = pid.
Proof.
  unfold clubMemberIds. rewrite elem_of_list_to_set, list_elem_of_In, in_map_iff.
  split.
  - intros (cm & E & Hin). apply list_elem_of_In, list_elem_of_filter in Hin as [Hc Hin].
    eauto.
  - intros (cm & Hin & Hc & E). exists cm. split; [exact E|].
    apply list_elem_of_In, list_elem_of_filter. auto.
Qed.

Lemma is_member_spec (pid cid : UUID) (s : Store.t) :
  Store.is_member pid cid s = true
  <-> exists cm, cm ∈ Store.clubMemberships s /\ ClubMembership.clubId cm = cid
                 /\ ClubMembership.participantId cm = pid.
Proof.
  unfold Store.is_member. rewrite existsb_exists. split.
  - intros (cm & Hin & Hb). apply andb_true_iff in Hb as [E1 E2].
    apply String.eqb_eq in E1, E2. exists cm. rewrite list_elem_of_In. auto.
  - intros (cm & Hin & E1 & E2). exists cm. rewrite <- list_elem_of_In.
    split; [exact Hin|]. apply andb_true_iff. now rewrite !String.eqb_eq.
Qed.

Lemma find_app {A} (f : A -> bool) (l1 l2 : list A) :
  List.find f (l1 ++ l2)
  = match List.find f l1 with Some x => Some x | None => List.find f l2 end.
Proof. induction l1 as [|x l1 IH]; simpl; [reflexivity|]. now destruct (f x). Qed.

Lemma validate_data ps ms (row : Row) : data (validate club ps ms row) = row.
Proof. unfold validate. repeat case_match; reflexivity. Qed.

(** A settled row stays settled when participants and memberships are added
    after the ones it was classified against. *)
Lemma settled_stable ps ps' ms ms' (row : Row) :
  (forall cm, cm ∈ ms -> cm ∈ ms') ->
  Spec.settled (status (validate club ps ms row)) ->
  Spec.settled (status (validate club (ps ++ ps') ms' row)).
Proof.
  intros Hsub. unfold validate, Spec.settled.
  destruct (negb _ || negb _); [auto|]. rewrite find_app.
  destruct (List.find _ ps) as [p|]; [|intros [?|?]; discriminate].
  case_bool_decide as Hm; [|intros [?|?]; discriminate]. intros _.
  rewrite bool_decide_eq_true_2; [auto|].
  apply clubMemberIds_spec in Hm as (cm & Hin & Hc & E).
  apply clubMemberIds_spec. eauto.
Qed.

(** One row of the first import, run on the store: the store grows, the
    shadow copy stays the participants of the store, every participant
    created during the run is a member of the club, and the row is settled
    for the store as it is after the row. *)
Lemma club_row_settles (s0 cur : Store.t) (row : Row) extra stats log :
  Store.participants cur = (Store.participants s0 ++ extra)%list ->
  (forall cm, cm ∈ Store.clubMemberships s0 -> cm ∈ Store.clubMemberships cur) ->
  (forall p, p ∈ extra ->
             Participant.id p ∈ clubMemberIds club (Store.clubMemberships cur)) ->
  exists stats' cur' log' more,
    import_row club (stats, Store.participants cur)
      (validate club (Store.participants s0) (Store.clubMemberships s0) row) (mkIO cur log)
    = (Returns (stats', Store.participants cur'), mkIO cur' log')
    /\ Store.participants cur' = (Store.participants cur ++ more)%list
    /\ (forall cm, cm ∈ Store.clubMemberships cur -> cm ∈ Store.clubMemberships cur')
    /\ (forall p, p ∈ (extra ++ more)%list ->
                  Participant.id p ∈ clubMemberIds club (Store.clubMemberships cur'))
    /\ Spec.settled
         (status (validate club (Store.participants cur') (Store.clubMemberships cur') row)).
Proof.
  intros Hcur Hsub Hextra.
  set (pr := validate club (Store.participants s0) (Store.clubMemberships s0) row).
  assert (data pr = row) as Hdata by apply validate_data.
  destruct (status pr) eqn:Hs.
  - (* new: the participant is created and joins the club *)
    set (fields := new_participant_fields club row).
    set (p := Store.create fields cur).
    eexists _, (Store.join (Participant.id p) (Club.id club)
                  (Store.mk (Store.participants cur ++ [p]) (Store.clubMemberships cur)
                     (Store.volunteers cur) (Store.clock cur))), _, [p].
    split.
    { unfold import_row. rewrite Hs, Hdata. ImportFacts.async_unfold. reflexivity. }
    assert (Participant.name p = default "" (row !! "Name")) as Hname by reflexivity.
    assert (Participant.contact p = default "" (row !! "Contact")) as Hcontact
      by reflexivity.
    clearbody p. cbn. split; [reflexivity|]. split.
    { intros cm Hcm. apply elem_of_app. now left. }
    assert (forall q, q ∈ (extra ++ [p])%list ->
                      Participant.id q
                      ∈ clubMemberIds club
                          (Store.clubMemberships cur
                           ++ [ClubMembership.mk (Participant.id p) (Club.id club)
                                 (Store.clock cur)])) as Hmembers.
    { intros q Hq. apply clubMemberIds_spec. apply elem_of_app in Hq as [Hq|Hq].
      - apply Hextra, clubMemberIds_spec in Hq as (cm & Hin & Hc & E').
        exists cm. rewrite elem_of_app. auto.
      - apply list_elem_of_singleton in Hq as ->. eexists. split.
        + apply elem_of_app. right. apply list_elem_of_singleton. reflexivity.
        + split; reflexivity. }
    split; [exact Hmembers|].
    (* the row now matches a participant created during the run *)
    revert Hs. subst pr. unfold validate at 1 2, Spec.settled.
    destruct (negb _ || negb _) eqn:Hguard; [auto|].
    destruct (List.find (same_person row) (Store.participants s0)) eqn:Hfind0.
    { case_bool_decide; discriminate. }
    intros _. rewrite Hcur, <- app_assoc, find_app, Hfind0.
    apply orb_false_iff in Hguard as [Hn Hc].
    apply negb_false_iff, JSFacts.truthy_spec in Hn as (a & n & Hn).
    apply negb_false_iff, JSFacts.truthy_spec in Hc as (b & c & Hc).
    assert (same_person row p = true) as Hsame.
    { apply ClassifyFacts.same_person_spec. now rewrite Hname, Hcontact, Hn, Hc. }
    destruct (List.find (same_person row) (extra ++ [p])) as [q|] eqn:Hfind.
    + apply find_some in Hfind as [Hq _]. apply list_elem_of_In in Hq.
      right. now rewrite bool_decide_eq_true_2 by now apply Hmembers.
    + exfalso. assert (In p (extra ++ [p])) as Hin by (apply in_or_app; right; now left).
      apply (find_none _ _ Hfind) in Hin. congruence.
  - (* existing: the participant of the snapshot joins the club *)
    pose proof (ImportFacts.club_row_existing club stats (Store.participants cur) pr
                  (mkIO cur log) Hs) as E.
    rewrite Hdata in E. remember (import_row club _ pr _) as result eqn:Eresult.
    clear Eresult. revert Hs. subst pr. unfold validate at 1.
    destruct (negb _ || negb _) eqn:Hguard; [discriminate|].
    destruct (List.find (same_person row) (Store.participants s0)) as [p0|] eqn:Hfind0;
      [|discriminate].
    case_bool_decide; [discriminate|]. intros _.
    assert (List.find (same_person row) (Store.participants cur) = Some p0) as Hfind
      by now rewrite Hcur, find_app, Hfind0.
    rewrite Hfind in E.
    unfold addClubMembership, Store.persistence, Store.add_club_membership in E.
    cbn [world] in E.
    destruct (Store.is_member (Participant.id p0) (Club.id club) cur) eqn:Hmem;
      cbn [calls] in E; subst result.
    + eexists _, cur, _, []. split; [reflexivity|]. rewrite !app_nil_r.
      split; [reflexivity|]. split; [auto|]. split; [exact Hextra|].
      unfold validate, Spec.settled. rewrite Hguard, Hfind.
      right. rewrite bool_decide_eq_true_2; [reflexivity|].
      apply clubMemberIds_spec. now apply is_member_spec.
    + eexists _, (Store.join (Participant.id p0) (Club.id club) cur), _, [].
      split; [reflexivity|]. cbn. rewrite !app_nil_r. split; [reflexivity|]. split.
      { intros cm Hcm. apply elem_of_app. now left. }
      split.
      { intros q Hq. apply Hextra, clubMemberIds_spec in Hq as (cm & Hin & Hc & E').
        apply clubMemberIds_spec. exists cm. rewrite elem_of_app. auto. }
      unfold validate, Spec.settled. rewrite Hguard, Hfind.
      right. rewrite bool_decide_eq_true_2; [reflexivity|].
      apply clubMemberIds_spec. eexists. split.
      * apply elem_of_app. right. apply list_elem_of_singleton. reflexivity.
      * split; reflexivity.
  - (* already a member *)
    rewrite ImportFacts.club_row_skipped by auto.
    eexists _, cur, _, []. split; [reflexivity|]. rewrite !app_nil_r.
    split; [reflexivity|]. split; [auto|]. split; [exact Hextra|].
    rewrite Hcur.
    apply (settled_stable _ _ (Store.clubMemberships s0)); [exact Hsub|]. right. exact Hs.
  - (* invalid *)
    rewrite ImportFacts.club_row_skipped by auto.
    eexists _, cur, _, []. split; [reflexivity|]. rewrite !app_nil_r.
    split; [reflexivity|]. split; [auto|]. split; [exact Hextra|].
    rewrite Hcur.
    apply (settled_stable _ _ (Store.clubMemberships s0)); [exact Hsub|]. left. exact Hs.
Qed.

(** The rows of a file, in order. *)
Lemma club_rows_settle (s0 : Store.t) (file : list Row) :
  forall (cur : Store.t) extra stats log,
    Store.participants cur = (Store.participants s0 ++ extra)%list ->
    (forall cm, cm ∈ Store.clubMemberships s0 -> cm ∈ Store.clubMemberships cur) ->
    (forall p, p ∈ extra ->
               Participant.id p ∈ clubMemberIds club (Store.clubMemberships cur)) ->
    exists stats' cur' log',
      for_of (import_row club)
        (processFile club (Store.participants s0) (Store.clubMemberships s0) file)
        (stats, Store.participants cur) (mkIO cur log)
      = (Returns (stats', Store.participants cur'), mkIO cur' log')
      /\ (exists more, Store.participants cur' = (Store.participants cur ++ more)%list)
      /\ (forall cm, cm ∈ Store.clubMemberships cur -> cm ∈ Store.clubMemberships cur')
      /\ forall row, row ∈ file ->
           Spec.settled
             (status (validate club (Store.participants cur') (Store.clubMemberships cur')
                        row)).
Proof.
  induction file as [|row file IH]; intros cur extra stats log Hcur Hsub Hextra.
  - eexists stats, cur, log. split; [reflexivity|]. split; [exists []; now rewrite app_nil_r|].
    split; [auto|]. intros row Hrow. now apply elem_of_nil in Hrow.
  - cbn [processFile map for_of]. unfold bind at 1.
    destruct (club_row_settles s0 cur row extra stats log Hcur Hsub Hextra)
      as (stats1 & cur1 & log1 & more1 & E1 & Hp1 & Hm1 & Hx1 & Hrow1).
    rewrite E1.
    destruct (IH cur1 (extra ++ more1)%list stats1 log1) as
      (stats' & cur' & log' & E & (more & Hp) & Hm & Hrows).
    { now rewrite Hp1, Hcur, app_assoc. }
    { auto. }
    { exact Hx1. }
    exists stats', cur', log'. split; [exact E|]. split.
    { exists (more1 ++ more)%list. now rewrite Hp, Hp1, app_assoc. }
    split; [auto|]. intros r Hr. apply elem_of_cons in Hr as [->|Hr]; [|now apply Hrows].
    rewrite Hp. now apply (settled_stable _ _ (Store.clubMemberships cur1)).
Qed.
End ClubStore.

End ReimportFacts.

(** X17: the participants importer, with the writes of a first import
    absorbed by the store: when every row of the file has its name and
    contact read from the cells that are written, no row of the file is
    classified as new the second time. *)
Lemma participants_reimport (s : Store.t) (file : list Row)
    (preview preview' : list ImportParticipantsModal.PreviewRow) :
  (forall row, row ∈ file -> Spec.reads_what_it_writes row) ->
  ImportParticipantsModal.processFile (Store.participants s) file = Some preview ->
  let s' :=
    snd (Store.add_multiple_participants
           (ImportParticipantsModal.participantsToCreate preview) s) in
  ImportParticipantsModal.processFile (Store.participants s') file = Some preview' ->
  forall r, r ∈ preview' ->
            ImportParticipantsModal.status r <> ImportParticipantsModal.NewParticipant.
Proof.
  intros Hrw Hfirst s' Hsecond r Hr Hnew.
  destruct file as [|row0 file0]; [discriminate|].
  remember (row0 :: file0) as file eqn:Efile. clear Efile row0 file0.
  assert (preview = omap (ImportParticipantsModal.validate (Store.participants s)) file)
    as -> by (destruct file; simplify_eq/=; reflexivity).
  assert (preview' = omap (ImportParticipantsModal.validate (Store.participants s')) file)
    as -> by (destruct file; simplify_eq/=; reflexivity).
  clear Hfirst Hsecond.
  apply list_elem_of_omap in Hr as (row & Hrow & Hv').
  destruct (ReimportFacts.add_multiple_participants_spec
              (ImportParticipantsModal.participantsToCreate
                 (omap (ImportParticipantsModal.validate (Store.participants s)) file)) s)
    as (created & Es' & Hcreated). fold s' in Es'.
  assert (ImportParticipantsModal.status
            <$> ImportParticipantsModal.validate (Store.participants s') row
          = Some ImportParticipantsModal.NewParticipant) as Hsecond
    by now rewrite Hv', <- Hnew.
  destruct (ImportParticipantsModal.validate (Store.participants s) row) as [r1|] eqn:Hv.
  2:{ apply ClassifyFacts.participants_dropped_iff in Hv.
      apply (ClassifyFacts.participants_dropped_iff (Store.participants s')) in Hv.
      congruence. }
  assert (ImportParticipantsModal.data r1 = row) as Hdata.
  { revert Hv. unfold ImportParticipantsModal.validate.
    repeat case_match; intros; simplify_eq; reflexivity. }
  destruct (ImportParticipantsModal.status r1) eqn:Hs1.
  - (* new the first time: its participant was created *)
    assert (ImportParticipantsModal.new_participant_fields row
            ∈ ImportParticipantsModal.participantsToCreate
                (omap (ImportParticipantsModal.validate (Store.participants s)) file))
      as Hin.
    { unfold ImportParticipantsModal.participantsToCreate.
      apply list_elem_of_In, in_map_iff. exists r1. split; [now rewrite Hdata|].
      apply List.filter_In. split.
      - apply list_elem_of_In, list_elem_of_omap. eauto.
      - unfold ImportParticipantsModal.is_new. now rewrite Hs1. }
    apply list_elem_of_lookup in Hin as (i & Hi).
    destruct (Forall2_lookup_r _ _ _ _ _ Hcreated Hi) as (p & Hp & Hname & Hcontact).
    assert (ImportParticipantsModal.status
              <$> ImportParticipantsModal.validate (Store.participants s') row
            = Some ImportParticipantsModal.ParticipantAlreadyExists) as Habs.
    { assert (ImportParticipantsModal.status
                <$> ImportParticipantsModal.validate (Store.participants s) row
              = Some ImportParticipantsModal.NewParticipant) as Hfirst
        by (rewrite Hv; cbn; now rewrite Hs1).
      destruct (ClassifyFacts.participants_new_has_cells _ _ Hfirst)
        as (n & c & Hn & Hc & _).
      destruct (Hrw row Hrow) as [Hrn Hrc]. rewrite Hn in Hrn. rewrite Hc in Hrc.
      apply (ReimportFacts.new_row_absorbed (Store.participants s) _ row p).
      - exact Hfirst.
      - now apply Hrw.
      - rewrite Es'. apply elem_of_app; right. apply list_elem_of_lookup. eauto.
      - rewrite Hname. cbn.
        destruct (JS.or_else (row !! "NAMES") (row !! "Name")); [reflexivity|discriminate].
      - rewrite Hcontact. cbn.
        destruct (JS.or_else (row !! "CONTACT") (row !! "Contact"));
          [reflexivity|discriminate]. }
    congruence.
  - (* already existing the first time *)
    assert (ImportParticipantsModal.status
              <$> ImportParticipantsModal.validate (Store.participants s') row
            = Some ImportParticipantsModal.ParticipantAlreadyExists) as Habs.
    { apply (ReimportFacts.existing_stays (Store.participants s)).
      - intros q Hq. rewrite Es'. apply elem_of_app. now left.
      - now rewrite Hv; cbn; rewrite Hs1. }
    congruence.
  - (* invalid the first time: the snapshot is not read *)
    revert Hv Hsecond Hs1. unfold ImportParticipantsModal.validate.
    destruct (negb _ && negb _ && _); [discriminate|].
    destruct (ImportParticipantsModal.row_name row) as [[|a n]|],
      (ImportParticipantsModal.row_contact row) as [[|b c]|];
      try discriminate.
    all: repeat case_bool_decide; intros; simplify_eq/=.
    all: rewrite <- Hv in Hs1; discriminate.
Qed.

Lemma participants_reimport_witness :
  Forall (fun r => ImportParticipantsModal.status r
                   <> ImportParticipantsModal.NewParticipant)
    [ImportParticipantsModal.mkRow Sample.row_bob
       ImportParticipantsModal.ParticipantAlreadyExists "Will be skipped"].
Proof.
  apply Forall_forall.
  apply (participants_reimport Store.empty [Sample.row_bob]
           [ImportParticipantsModal.mkRow Sample.row_bob
              ImportParticipantsModal.NewParticipant "Will be created"]
           [ImportParticipantsModal.mkRow Sample.row_bob
              ImportParticipantsModal.ParticipantAlreadyExists "Will be skipped"]).
  - intros row Hin. apply list_elem_of_singleton in Hin as ->. split; reflexivity.
  - vm_compute. reflexivity.
  - vm_compute. reflexivity.
Defined.

(** X16: the club import, with the writes of a first import absorbed by the
    store: the import ends with a summary, and classified again against the
    store as the import left it, every row of the file is invalid or already
    a member. *)
Lemma club_reimport (club : Club.t) (s : Store.t) (file : list Row) :
  let preview :=
    ImportMembersModal.processFile club (Store.participants s) (Store.clubMemberships s)
      file in
  exists stats out,
    run (ImportMembersModal.handleImport club (Store.participants s) preview) s
    = (JS.Returns stats, out)
    /\ forall r,
         r ∈ ImportMembersModal.processFile club (Store.participants (world out))
               (Store.clubMemberships (world out)) file ->
         ImportMembersModal.status r <> ImportMembersModal.NewParticipant
         /\ ImportMembersModal.status r <> ImportMembersModal.ExistingParticipant.
Proof.
  cbn zeta. unfold run, ImportMembersModal.handleImport, bind, ret.
  destruct (ReimportFacts.club_rows_settle club s file s []
              (ImportMembersModal.mkStats 0 0 0) [])
    as (stats & cur & log & E & _ & _ & Hrows).
  { now rewrite app_nil_r. }
  { auto. }
  { intros p Hp. now apply elem_of_nil in Hp. }
  rewrite E. exists stats, (mkIO cur log). split; [reflexivity|].
  intros r Hr. cbn in Hr. unfold ImportMembersModal.processFile in Hr.
  apply list_elem_of_In, in_map_iff in Hr as (row & <- & Hrow).
  apply list_elem_of_In, Hrows in Hrow. destruct Hrow as [Hs|Hs]; rewrite Hs;
    split; discriminate.
Qed.

(** C6, on the failing inputs. The participants importer, on a file with one
    row that has both a NAMES and a Name column, NAMES holding two spaces:
    the row is classified as new; the import creates its participant, with
    the name of two spaces that [handleImport] passes; classified again
    against the store that absorbed the write, the row is new once more. The
    volunteers importer, on a file with one row whose Name has a leading
    space: the row is classified as new and imported, and classified again
    against the participants and volunteers of the store, it is new once
    more. *)
Theorem C6_reimport_classifies_new_again :
  (let file := [Sample.row_two_name_columns] in
   let preview := omap (ImportParticipantsModal.validate []) file in
   let out := run (ImportParticipantsModal.handleImport preview) Store.empty in
   ImportParticipantsModal.processFile [] file = Some preview
   /\ map ImportParticipantsModal.status preview = [ImportParticipantsModal.NewParticipant]
   /\ fst out = JS.Returns (ImportParticipantsModal.ImportSuccessful 1)
   /\ map Participant.name (Store.participants (world (snd out))) = ["  "]
   /\ map ImportParticipantsModal.status
        <$> ImportParticipantsModal.processFile (Store.participants (world (snd out))) file
      = Some [ImportParticipantsModal.NewParticipant])
  /\ (let file := [Sample.row_padded_bob_mentor] in
      let preview := map (ImportVolunteersModal.validate [] []) file in
      let out := run (ImportVolunteersModal.handleImport [] preview) Store.empty in
      ImportVolunteersModal.processFile [] [] file = Some preview
      /\ map ImportVolunteersModal.status preview = [ImportVolunteersModal.NewParticipant]
      /\ fst out = JS.Returns (ImportVolunteersModal.mkStats 1 0 0 0)
      /\ map Participant.name (Store.participants (world (snd out))) = [" Bob"]
      /\ map Volunteer.participantId (Store.volunteers (world (snd out)))
         = map Participant.id (Store.participants (world (snd out)))
      /\ map ImportVolunteersModal.status
           <$> ImportVolunteersModal.processFile (Store.participants (world (snd out)))
                 (Store.volunteers (world (snd out))) file
         = Some [ImportVolunteersModal.NewParticipant]).
Proof. cbn zeta. repeat split; vm_compute; reflexivity. Qed.

(** * Further properties of the components *)

(** ** Arrays and sets *)

Module ArrayFacts.
Import JS.

Lemma elem_of_List_filter {A} (f : A -> bool) (l : list A) (x : A) :
  x ∈ List.filter f l <-> x ∈ l /\ f x = true.
Proof. now rewrite !list_elem_of_In, List.filter_In. Qed.

Lemma elem_of_List_map {A B} (f : A -> B) (l : list A) (y : B) :
  y ∈ map f l <-> exists x, x ∈ l /\ f x = y.
Proof.
  rewrite list_elem_of_In, in_map_iff. split; intros (x & H1 & H2); exists x;
    [rewrite list_elem_of_In|rewrite <- list_elem_of_In]; tauto.
Qed.

Lemma sort_insert_perm {A} (compareFn : A -> A -> Z) (x : A) (sorted : list A) :
  sort_insert compareFn x sorted ≡ₚ x :: sorted.
Proof.
  induction sorted as [|y rest IH]; simpl; [reflexivity|].
  destruct (compareFn x y <? 0)%Z; [reflexivity|]. rewrite IH. apply Permutation_swap.
Qed.

(** Sorting rearranges: nothing is added, dropped or repeated. *)
Lemma sort_perm {A} (compareFn : A -> A -> Z) (array : list A) :
  sort compareFn array ≡ₚ array.
Proof.
  unfold sort.
  enough (forall acc, foldl (fun sorted x => sort_insert compareFn x sorted) acc array
                      ≡ₚ acc ++ array) as Hgen by apply (Hgen []).
  induction array as [|x array IH]; intros acc; simpl.
  - now rewrite app_nil_r.
  - rewrite IH, sort_insert_perm. simpl. apply Permutation_middle.
Qed.

Lemma elem_of_sort {A} (compareFn : A -> A -> Z) (array : list A) (x : A) :
  x ∈ sort compareFn array <-> x ∈ array.
Proof. now rewrite sort_perm. Qed.

Lemma includes_empty (s : string) : includes s "" = true.
Proof. destruct s; reflexivity. Qed.

Lemma Set_has_true (s : list string) (x : string) : Set_has s x = true <-> x ∈ s.
Proof. unfold Set_has. apply bool_decide_eq_true. Qed.

Lemma elem_of_Set_add (s : list string) (x y : string) :
  y ∈ Set_add s x <-> y = x \/ y ∈ s.
Proof.
  unfold Set_add. destruct (Set_has s x) eqn:E.
  - apply Set_has_true in E. split; [auto|]. intros [->|?]; auto.
  - rewrite elem_of_app, list_elem_of_singleton. tauto.
Qed.

Lemma elem_of_Set_delete (s : list string) (x y : string) :
  y ∈ Set_delete s x <-> y <> x /\ y ∈ s.
Proof.
  unfold Set_delete. rewrite elem_of_List_filter, negb_true_iff, String.eqb_neq. tauto.
Qed.

Lemma NoDup_Set_add (s : list string) (x : string) : NoDup s -> NoDup (Set_add s x).
Proof.
  intros Hs. unfold Set_add. destruct (Set_has s x) eqn:E; [exact Hs|].
  apply NoDup_app. split; [exact Hs|]. split; [|apply NoDup_singleton].
  intros y Hy Hx. apply list_elem_of_singleton in Hx as ->.
  apply Set_has_true in Hy. congruence.
Qed.

Lemma NoDup_Set_delete (s : list string) (x : string) : NoDup s -> NoDup (Set_delete s x).
Proof.
  unfold Set_delete. induction 1 as [|y s Hy Hs IH]; simpl; [constructor|].
  destruct (negb (String.eqb y x)); [|exact IH].
  constructor; [|exact IH]. intros Hin. apply elem_of_List_filter in Hin as [Hin _].
  contradiction.
Qed.

Lemma Set_delete_absent (s : list string) (x : string) : x ∉ s -> Set_delete s x = s.
Proof.
  unfold Set_delete. induction s as [|y s IH]; intros Hx; simpl; [reflexivity|].
  apply not_elem_of_cons in Hx as [Hne Hx].
  destruct (String.eqb y x) eqn:E; [apply String.eqb_eq in E; congruence|].
  simpl. now rewrite IH.
Qed.

Lemma length_Set_delete (s : list string) (x : string) :
  NoDup s -> x ∈ s -> S (length (Set_delete s x)) = length s.
Proof.
  unfold Set_delete. induction 1 as [|y s Hy Hs IH]; intros Hx; simpl.
  - now apply elem_of_nil in Hx.
  - destruct (String.eqb y x) eqn:E; simpl.
    + apply String.eqb_eq in E as ->. pose proof (Set_delete_absent s x Hy) as Ha.
      unfold Set_delete in Ha. now rewrite Ha.
    + apply elem_of_cons in Hx as [->|Hx]; [now rewrite String.eqb_refl in E|].
      now rewrite IH.
Qed.

(** [new Set(array)] of an array without duplicates holds its elements in
    order. *)
Lemma Set_of_NoDup (array : list string) : NoDup array -> Set_of array = array.
Proof.
  unfold Set_of.
  enough (forall acc, NoDup (acc ++ array) -> foldl Set_add acc array = (acc ++ array)%list)
    as Hgen by (intros Hn; now apply (Hgen [])).
  induction array as [|x array IH]; intros acc Hn; simpl; [now rewrite app_nil_r|].
  assert (Set_add acc x = (acc ++ [x])%list) as ->.
  { unfold Set_add. destruct (Set_has acc x) eqn:E; [|reflexivity].
    apply Set_has_true in E. apply NoDup_app in Hn as (_ & Hdisj & _).
    exfalso. apply (Hdisj x E). now left. }
  rewrite IH; rewrite <- app_assoc; [reflexivity|exact Hn].
Qed.

End ArrayFacts.

(** ** The add-member dialog *)

(** X18: the add-member dialog offers exactly the participants of the club's
    institution that are not members of the club and whose name contains the
    search term, without regard to case; it never offers a member or a
    participant of another institution. *)
Theorem X18_availableParticipants
    (L : Locale) (club : Club.t) (participants : list Participant.t)
    (currentMemberIds : gset UUID) (searchTerm : string) (p : Participant.t) :
  p ∈ AddMemberModal.availableParticipants club participants currentMemberIds searchTerm
  <-> p ∈ participants
      /\ Participant.institution p = Club.institution club
      /\ (Participant.id p ∉ currentMemberIds)
      /\ JS.includes (JS.toLowerCase (Participant.name p)) (JS.toLowerCase searchTerm)
         = true.
Proof.
  unfold AddMemberModal.availableParticipants, AddMemberModal.is_available.
  rewrite ArrayFacts.elem_of_sort, ArrayFacts.elem_of_List_filter.
  rewrite !andb_true_iff, String.eqb_eq, negb_true_iff, bool_decide_eq_false. tauto.
Qed.

(** X19: when [handleAddExisting] ends with a count, it has made exactly one
    call per selected id, in the order of the selection, each one
    [addClubMembership] for the dialog's club, and the count is the number of
    calls that returned true. *)
Theorem X19_handleAddExisting
    (W : Type) (P : Persistence W) (club : Club.t) (selectedIds : list UUID)
    (st st' : IOState W) (addedCount : nat) :
  AddMemberModal.handleAddExisting club selectedIds st = (JS.Returns addedCount, st') ->
  exists results : list bool,
    length results = length selectedIds
    /\ calls st'
       = (calls st
          ++ zip_with (fun pid r => CallAddClubMembership pid (Club.id club) (JS.Returns r))
               selectedIds results)%list
    /\ addedCount = length (List.filter (fun r => r) results).
Proof.
  unfold AddMemberModal.handleAddExisting.
  enough (forall count0 st0,
             for_of (fun addedCount pid =>
                       (success <- await_addClubMembership pid (Club.id club) ;;
                        ret (if success : bool then S addedCount else addedCount))%async)
               selectedIds count0 st0 = (JS.Returns addedCount, st') ->
             exists results : list bool,
               length results = length selectedIds
               /\ calls st'
                  = (calls st0
                     ++ zip_with (fun pid r =>
                                    CallAddClubMembership pid (Club.id club) (JS.Returns r))
                          selectedIds results)%list
               /\ addedCount = count0 + length (List.filter (fun r => r) results)) as Hgen.
  { intros E. destruct (Hgen 0 st E) as (results & ? & ? & ?). eauto. }
  induction selectedIds as [|pid ids IH]; intros count0 st0; cbn [for_of].
  - unfold ret. intros [= <- <-]. exists []. simpl. now rewrite app_nil_r, Nat.add_0_r.
  - unfold bind at 1. unfold bind at 1, await_addClubMembership, ret.
    destruct (addClubMembership pid (Club.id club) (world st0)) as [[success|] w];
      [|intros [=]].
    intros E. apply IH in E as (results & Hlen & Hcalls & Hcount).
    exists (success :: results). cbn [length zip_with calls] in *.
    split; [now rewrite Hlen|]. split.
    + now rewrite Hcalls, <- app_assoc.
    + rewrite Hcount. destruct success; simpl; lia.
Qed.

Lemma X19_handleAddExisting_witness :
  exists results : list bool,
    length results = 2
    /\ calls (snd (run (AddMemberModal.handleAddExisting Sample.debate ["p1"; "p1"])
                     Store.empty))
       = zip_with (fun pid r => CallAddClubMembership pid "c1" (JS.Returns r))
           ["p1"; "p1"] results
    /\ 1 = length (List.filter (fun r => r) results).
Proof.
  exact (X19_handleAddExisting Store.t Store.persistence Sample.debate ["p1"; "p1"]
           (mkIO Store.empty [])
           (snd (run (AddMemberModal.handleAddExisting Sample.debate ["p1"; "p1"])
                   Store.empty))
           1 eq_refl).
Defined.

(** X20: toggling an id in a selection ([handleSelect] of the add-member
    dialog, [handleSelectOne] of the participants view) removes it when it is
    selected and adds it when it is not, leaves every other id as it was, and
    keeps the selection free of duplicates, so the size changes by exactly
    one. *)
Theorem X20_toggle_selection (id : UUID) (prev : list UUID) :
  NoDup prev ->
  AddMemberModal.handleSelect id prev = ParticipantsView.handleSelectOne id prev
  /\ NoDup (ParticipantsView.handleSelectOne id prev)
  /\ (id ∈ ParticipantsView.handleSelectOne id prev <-> id ∉ prev)
  /\ (forall other, other <> id ->
        (other ∈ ParticipantsView.handleSelectOne id prev <-> other ∈ prev))
  /\ length (ParticipantsView.handleSelectOne id prev)
     = (if JS.Set_has prev id then length prev - 1 else length prev + 1).
Proof.
  intros Hn. split; [reflexivity|]. unfold ParticipantsView.handleSelectOne.
  destruct (JS.Set_has prev id) eqn:E.
  - apply ArrayFacts.Set_has_true in E. split; [now apply ArrayFacts.NoDup_Set_delete|].
    split; [rewrite ArrayFacts.elem_of_Set_delete; tauto|]. split.
    + intros other Hne. rewrite ArrayFacts.elem_of_Set_delete. tauto.
    + pose proof (ArrayFacts.length_Set_delete prev id Hn E). unfold UUID in *. lia.
  - assert (id ∉ prev) as Hid.
    { intros Hin. apply ArrayFacts.Set_has_true in Hin. congruence. }
    split; [now apply ArrayFacts.NoDup_Set_add|].
    split; [rewrite ArrayFacts.elem_of_Set_add; tauto|]. split.
    + intros other Hne. rewrite ArrayFacts.elem_of_Set_add. tauto.
    + unfold JS.Set_add. rewrite E, length_app. cbv iota. reflexivity.
Qed.

Lemma X20_toggle_selection_witness :
  AddMemberModal.handleSelect "p1" ["p1"; "p2"]
  = ParticipantsView.handleSelectOne "p1" ["p1"; "p2"]
  /\ NoDup (ParticipantsView.handleSelectOne "p1" ["p1"; "p2"])
  /\ ("p1" ∈ ParticipantsView.handleSelectOne "p1" ["p1"; "p2"] <-> "p1" ∉ ["p1"; "p2"])
  /\ (forall other, other <> "p1" ->
        (other ∈ ParticipantsView.handleSelectOne "p1" ["p1"; "p2"]
         <-> other ∈ ["p1"; "p2"]))
  /\ length (ParticipantsView.handleSelectOne "p1" ["p1"; "p2"]) = 1.
Proof.
  apply (X20_toggle_selection "p1" ["p1"; "p2"]).
  apply NoDup_cons. split; [|apply NoDup_singleton].
  intros Hin. apply list_elem_of_singleton in Hin. discriminate.
Defined.

(** ** The event panel *)

Module EventFacts.
Import EventDetailPanel.

Section Panel.
Context `{Locale}.
Variable event : Event.t.
Variable participants : list Participant.t.
Variable participations : list Participation.t.

Lemma registered_id (pid : UUID) :
  pid ∈ (list_to_set
           (map Participation.participantId
              (List.filter (fun p => String.eqb (Participation.eventId p) (Event.id event))
                 participations)) : gset UUID)
  <-> exists r, r ∈ participations /\ Participation.eventId r = Event.id event
                /\ Participation.participantId r = pid.
Proof.
  rewrite elem_of_list_to_set, ArrayFacts.elem_of_List_map. split.
  - intros (r & Hr & E). apply ArrayFacts.elem_of_List_filter in Hr as [Hr He].
    apply String.eqb_eq in He. eauto.
  - intros (r & Hr & He & E). exists r. split; [|exact E].
    apply ArrayFacts.elem_of_List_filter. split; [exact Hr|]. now apply String.eqb_eq.
Qed.

Lemma attendees_spec (p : Participant.t) :
  p ∈ attendees event participants participations
  <-> p ∈ participants
      /\ exists r, r ∈ participations /\ Participation.eventId r = Event.id event
                   /\ Participation.participantId r = Participant.id p.
Proof.
  unfold attendees. cbn zeta.
  now rewrite ArrayFacts.elem_of_sort, ArrayFacts.elem_of_List_filter, bool_decide_eq_true,
    registered_id.
Qed.

Lemma availableToRegister_spec (searchExisting : string) (p : Participant.t) :
  p ∈ availableToRegister event participants participations searchExisting
  <-> p ∈ participants
      /\ (forall a, a ∈ attendees event participants participations ->
                    Participant.id a <> Participant.id p)
      /\ JS.includes (JS.toLowerCase (Participant.name p)) (JS.toLowerCase searchExisting)
         = true.
Proof.
  unfold availableToRegister. cbn zeta.
  rewrite ArrayFacts.elem_of_sort, ArrayFacts.elem_of_List_filter, andb_true_iff,
    negb_true_iff, bool_decide_eq_false, elem_of_list_to_set, ArrayFacts.elem_of_List_map.
  split.
  - intros (Hp & Hno & Hs). repeat split; try done. intros a Ha E. apply Hno. eauto.
  - intros (Hp & Hno & Hs). repeat split; try done. intros (a & Ha & E).
    now apply (Hno a Ha).
Qed.
End Panel.

End EventFacts.

(** X21: the attendees of an event are exactly the participants for which
    there is a registration with their id and the id of the event. *)
Theorem X21_attendees
    (L : Locale) (event : Event.t) (participants : list Participant.t)
    (participations : list Participation.t) (p : Participant.t) :
  p ∈ EventDetailPanel.attendees event participants participations
  <-> p ∈ participants
      /\ exists r, r ∈ participations /\ Participation.eventId r = Event.id event
                   /\ Participation.participantId r = Participant.id p.
Proof. apply EventFacts.attendees_spec. Qed.

(** X22: the event panel never offers an attendee for registration, whatever
    the search term, and with an empty search term every participant is
    either an attendee or offered for registration. *)
Theorem X22_register_partition
    (L : Locale) (event : Event.t) (participants : list Participant.t)
    (participations : list Participation.t) (p : Participant.t) :
  p ∈ participants ->
  (forall searchExisting,
      p ∈ EventDetailPanel.availableToRegister event participants participations
            searchExisting ->
      p ∉ EventDetailPanel.attendees event participants participations)
  /\ (p ∈ EventDetailPanel.attendees event participants participations
      \/ p ∈ EventDetailPanel.availableToRegister event participants participations "").
Proof.
  intros Hp. split.
  - intros searchExisting Hav Hat.
    apply EventFacts.availableToRegister_spec in Hav as (_ & Hno & _).
    now apply (Hno p Hat).
  - destruct (decide (Participant.id p
                      ∈ (list_to_set
                           (map Participation.participantId
                              (List.filter
                                 (fun r => String.eqb (Participation.eventId r)
                                             (Event.id event))
                                 participations)) : gset UUID))) as [Hin|Hnot].
    + left. apply EventFacts.attendees_spec. split; [exact Hp|].
      now apply EventFacts.registered_id.
    + right. apply EventFacts.availableToRegister_spec. split; [exact Hp|]. split.
      * intros a Ha E. apply Hnot, EventFacts.registered_id.
        apply EventFacts.attendees_spec in Ha as (_ & r & Hr & He & Hid).
        exists r. rewrite <- E. auto.
      * apply ArrayFacts.includes_empty.
Qed.

Lemma X22_register_partition_witness :
  (forall searchExisting,
      Sample.bob ∈ EventDetailPanel.availableToRegister Sample.gala
                     [Sample.jane; Sample.bob] [Sample.jane_at_gala] searchExisting ->
      Sample.bob ∉ EventDetailPanel.attendees Sample.gala [Sample.jane; Sample.bob]
                     [Sample.jane_at_gala])
  /\ (Sample.bob ∈ EventDetailPanel.attendees Sample.gala [Sample.jane; Sample.bob]
                     [Sample.jane_at_gala]
      \/ Sample.bob ∈ EventDetailPanel.availableToRegister Sample.gala
                        [Sample.jane; Sample.bob] [Sample.jane_at_gala] "").
Proof.
  apply (X22_register_partition ExampleLocale.locale Sample.gala [Sample.jane; Sample.bob]
           [Sample.jane_at_gala] Sample.bob).
  apply elem_of_cons. right. apply elem_of_cons. left. reflexivity.
Defined.

(** X23: the attendees shown are attendees, in the order of the attendee
    list, and an empty search term shows them all. *)
Theorem X23_filteredAttendees
    (L : Locale) (event : Event.t) (participants : list Participant.t)
    (participations : list Participation.t) (searchAttendees : string) :
  EventDetailPanel.filteredAttendees event participants participations searchAttendees
    `sublist_of` EventDetailPanel.attendees event participants participations
  /\ EventDetailPanel.filteredAttendees event participants participations ""
     = EventDetailPanel.attendees event participants participations.
Proof.
  unfold EventDetailPanel.filteredAttendees.
  generalize (EventDetailPanel.attendees event participants participations) as l.
  intros l. split.
  - induction l as [|a l IH]; simpl; [constructor|].
    destruct (JS.includes _ _); [now constructor|now constructor].
  - change (JS.toLowerCase "") with "".
    induction l as [|a l IH]; simpl; [reflexivity|].
    now rewrite ArrayFacts.includes_empty, IH.
Qed.

(** X24: marking a participant for registration adds its id once, unmarking
    removes it, every other id is left as it was, doing either twice is doing
    it once, and a selection without duplicates stays so. *)
Theorem X24_handleSelectForRegistration (participantId : UUID) (prev : list UUID) :
  (forall y, y ∈ EventDetailPanel.handleSelectForRegistration participantId true prev
             <-> y = participantId \/ y ∈ prev)
  /\ (forall y, y ∈ EventDetailPanel.handleSelectForRegistration participantId false prev
                <-> y <> participantId /\ y ∈ prev)
  /\ (forall isSelected,
        EventDetailPanel.handleSelectForRegistration participantId isSelected
          (EventDetailPanel.handleSelectForRegistration participantId isSelected prev)
        = EventDetailPanel.handleSelectForRegistration participantId isSelected prev)
  /\ (forall isSelected,
        NoDup prev ->
        NoDup (EventDetailPanel.handleSelectForRegistration participantId isSelected prev)).
Proof.
  unfold EventDetailPanel.handleSelectForRegistration. split; [|split; [|split]].
  - intros y. apply ArrayFacts.elem_of_Set_add.
  - intros y. apply ArrayFacts.elem_of_Set_delete.
  - intros [|].
    + unfold JS.Set_add at 1.
      assert (JS.Set_has (JS.Set_add prev participantId) participantId = true) as ->;
        [|reflexivity].
      apply ArrayFacts.Set_has_true, ArrayFacts.elem_of_Set_add. now left.
    + apply ArrayFacts.Set_delete_absent. rewrite ArrayFacts.elem_of_Set_delete. tauto.
  - intros [|] Hn; [now apply ArrayFacts.NoDup_Set_add|now apply ArrayFacts.NoDup_Set_delete].
Qed.

(** ** The participants view *)

(** X25: the participants view lists exactly the participants that pass the
    event filter (all events, or a registration for the selected event) and
    the search filter (no term, or the term contained in the name or in the
    institution, without regard to case); with no filter it lists every
    participant once, rearranged by the sort. *)
Theorem X25_filteredParticipants
    (L : Locale) (participants : list Participant.t)
    (participations : list Participation.t) (searchTerm selectedEventId : string) :
  (forall p,
      p ∈ ParticipantsView.filteredParticipants participants participations searchTerm
            selectedEventId
      <-> p ∈ participants
          /\ (selectedEventId = "all"
              \/ exists r, r ∈ participations
                           /\ Participation.eventId r = selectedEventId
                           /\ Participation.participantId r = Participant.id p)
          /\ (searchTerm = ""
              \/ JS.includes (JS.toLowerCase (Participant.name p))
                   (JS.toLowerCase searchTerm) = true
              \/ JS.includes (JS.toLowerCase (Participant.institution p))
                   (JS.toLowerCase searchTerm) = true))
  /\ ParticipantsView.filteredParticipants participants participations "" "all"
     ≡ₚ participants.
Proof.
  split; [|apply ArrayFacts.sort_perm].
  intros p. unfold ParticipantsView.filteredParticipants. cbn zeta.
  rewrite ArrayFacts.elem_of_sort.
  set (event_ok := fun q : Participant.t =>
         selectedEventId = "all"
         \/ exists r, r ∈ participations /\ Participation.eventId r = selectedEventId
                      /\ Participation.participantId r = Participant.id q).
  assert (forall q,
             q ∈ (if negb (String.eqb selectedEventId "all") then
                    List.filter
                      (fun p => bool_decide
                                  (Participant.id p
                                   ∈ (list_to_set
                                        (map Participation.participantId
                                           (List.filter
                                              (fun p => String.eqb (Participation.eventId p)
                                                          selectedEventId)
                                              participations)) : gset UUID)))
                      participants
                  else participants)
             <-> q ∈ participants /\ event_ok q) as Hevent.
  { intros q. unfold event_ok. destruct (String.eqb selectedEventId "all") eqn:E; simpl.
    - apply String.eqb_eq in E. tauto.
    - apply String.eqb_neq in E.
      rewrite ArrayFacts.elem_of_List_filter, bool_decide_eq_true,
        (EventFacts.registered_id (Event.mk selectedEventId "" 0%Z 0%Z "" "")). cbn.
      tauto. }
  destruct searchTerm as [|c term].
  - rewrite Hevent. unfold event_ok. tauto.
  - rewrite ArrayFacts.elem_of_List_filter, Hevent, orb_true_iff. unfold event_ok.
    split.
    + intros [[Hp He] Hs]. auto.
    + intros (Hp & He & [Hs|Hs]); [discriminate|auto].
Qed.

(** X26: selecting all when the list is not empty and its ids are distinct
    selects the id of every listed participant, and then the header checkbox
    is checked and not indeterminate; deselecting all leaves it neither
    checked nor indeterminate. *)
Theorem X26_select_all (filteredParticipants : list Participant.t) :
  filteredParticipants <> [] ->
  NoDup (map Participant.id filteredParticipants) ->
  let selectedIds := ParticipantsView.handleSelectAll true filteredParticipants in
  (forall p, p ∈ filteredParticipants -> JS.Set_has selectedIds (Participant.id p) = true)
  /\ ParticipantsView.allVisibleSelected filteredParticipants selectedIds = true
  /\ ParticipantsView.isIndeterminate filteredParticipants selectedIds = false
  /\ ParticipantsView.allVisibleSelected filteredParticipants
       (ParticipantsView.handleSelectAll false filteredParticipants) = false
  /\ ParticipantsView.isIndeterminate filteredParticipants
       (ParticipantsView.handleSelectAll false filteredParticipants) = false.
Proof.
  intros Hne Hn. cbn zeta. unfold ParticipantsView.handleSelectAll.
  rewrite (ArrayFacts.Set_of_NoDup _ Hn).
  assert (ParticipantsView.allVisibleSelected filteredParticipants
            (map Participant.id filteredParticipants) = true) as Hall.
  { unfold ParticipantsView.allVisibleSelected. rewrite length_map, Nat.eqb_refl.
    destruct filteredParticipants; [done|reflexivity]. }
  split; [|split; [exact Hall|split; [|split]]].
  - intros p Hp. apply ArrayFacts.Set_has_true, ArrayFacts.elem_of_List_map. eauto.
  - unfold ParticipantsView.isIndeterminate. rewrite Hall. apply andb_false_r.
  - unfold ParticipantsView.allVisibleSelected.
    destruct filteredParticipants; [done|reflexivity].
  - reflexivity.
Qed.

Lemma X26_select_all_witness :
  let selectedIds := ParticipantsView.handleSelectAll true [Sample.jane; Sample.bob] in
  (forall p, p ∈ [Sample.jane; Sample.bob]
             -> JS.Set_has selectedIds (Participant.id p) = true)
  /\ ParticipantsView.allVisibleSelected [Sample.jane; Sample.bob] selectedIds = true
  /\ ParticipantsView.isIndeterminate [Sample.jane; Sample.bob] selectedIds = false
  /\ ParticipantsView.allVisibleSelected [Sample.jane; Sample.bob]
       (ParticipantsView.handleSelectAll false [Sample.jane; Sample.bob]) = false
  /\ ParticipantsView.isIndeterminate [Sample.jane; Sample.bob]
       (ParticipantsView.handleSelectAll false [Sample.jane; Sample.bob]) = false.
Proof.
  apply (X26_select_all [Sample.jane; Sample.bob]); [discriminate|].
  apply NoDup_cons. split; [|apply NoDup_singleton].
  intros Hin. apply list_elem_of_singleton in Hin. discriminate.
Defined.

(** ** The export dialog *)

Module ExportColumnFacts.
Import ExportParticipantsModal.

Lemma get_property_None (o : list (string * value)) (h : string) :
  get_property o h = None <-> h ∉ map fst o.
Proof.
  induction o as [|[h0 v0] o IH]; simpl.
  - split; [intros _ Hin; now apply elem_of_nil in Hin|reflexivity].
  - rewrite not_elem_of_cons. destruct (String.eqb h0 h) eqn:E.
    + apply String.eqb_eq in E. split; [discriminate|]. intros [Hne _]. congruence.
    + apply String.eqb_neq in E. rewrite IH. split; [intros Hn; split; congruence|tauto].
Qed.

(** Setting a property that the object does not have adds it last. *)
Lemma set_property_fresh (o : list (string * value)) (h : string) (v : value) :
  h ∉ map fst o -> set_property o h v = (o ++ [(h, v)])%list.
Proof.
  induction o as [|[h0 v0] o IH]; simpl; [reflexivity|].
  rewrite not_elem_of_cons. intros [Hne Hnot].
  destruct (String.eqb h0 h) eqn:E; [apply String.eqb_eq in E; congruence|].
  now rewrite IH.
Qed.

Lemma headers_after_assignments (f : ColumnKey -> value) (keys : list ColumnKey) :
  forall row : list (string * value),
    NoDup keys ->
    (forall k, k ∈ keys -> label k ∉ map fst row) ->
    map fst (foldl (fun row k => set_property row (label k) (f k)) row keys)
    = (map fst row ++ map label keys)%list.
Proof.
  induction keys as [|k keys IH]; intros row Hn Hfresh; simpl.
  - now rewrite app_nil_r.
  - apply NoDup_cons in Hn as [Hk Hn].
    rewrite (set_property_fresh row (label k) (f k)) by (apply Hfresh; now left).
    rewrite IH; [|exact Hn|].
    + rewrite map_app, <- app_assoc. reflexivity.
    + intros k' Hk'. rewrite map_app, elem_of_app. simpl.
      rewrite list_elem_of_singleton. intros [Hin|E].
      * apply (Hfresh k'); [now right|exact Hin].
      * apply ExportFacts.label_inj in E. congruence.
Qed.

Lemma NoDup_keys : NoDup (map fst ALL_COLUMNS).
Proof. apply (bool_decide_unpack _). vm_compute. exact I. Qed.

Lemma NoDup_orderedColumns (selectedColumns : gset ColumnKey) :
  NoDup (orderedColumns selectedColumns).
Proof.
  unfold orderedColumns. generalize NoDup_keys.
  generalize (map fst ALL_COLUMNS) as keys.
  induction 1 as [|k keys Hk Hn IH]; simpl; [constructor|].
  destruct (bool_decide _); [|exact IH].
  constructor; [|exact IH]. intros Hin.
  apply ArrayFacts.elem_of_List_filter in Hin as [Hin _]. contradiction.
Qed.

End ExportColumnFacts.

(** X1: the headers of an exported row are the labels of the selected columns
    in the order of [ALL_COLUMNS], whatever the order in which the columns
    were selected; each selected column appears once, and no other column
    appears. *)
Theorem X1_export_columns
    (R : Runtime) (selectedColumns : gset ExportParticipantsModal.ColumnKey)
    (participant : Participant.t) :
  map fst (ExportParticipantsModal.exportedRow selectedColumns participant)
  = map ExportParticipantsModal.label
      (ExportParticipantsModal.orderedColumns selectedColumns)
  /\ ExportParticipantsModal.orderedColumns selectedColumns
       `sublist_of` map fst ExportParticipantsModal.ALL_COLUMNS
  /\ (forall key, key ∈ ExportParticipantsModal.orderedColumns selectedColumns
                  <-> key ∈ selectedColumns)
  /\ NoDup (map fst (ExportParticipantsModal.exportedRow selectedColumns participant))
  /\ (forall key, key ∉ selectedColumns ->
        ExportParticipantsModal.get_property
          (ExportParticipantsModal.exportedRow selectedColumns participant)
          (ExportParticipantsModal.label key) = None).
Proof.
  assert (map fst (ExportParticipantsModal.exportedRow selectedColumns participant)
          = map ExportParticipantsModal.label
              (ExportParticipantsModal.orderedColumns selectedColumns)) as Hheaders.
  { unfold ExportParticipantsModal.exportedRow.
    rewrite (ExportColumnFacts.headers_after_assignments
               (fun k => ExportParticipantsModal.format
                           (ExportParticipantsModal.field participant k))).
    - reflexivity.
    - apply ExportColumnFacts.NoDup_orderedColumns.
    - intros k _ Hin. now apply elem_of_nil in Hin. }
  assert (forall key, key ∈ ExportParticipantsModal.orderedColumns selectedColumns
                      <-> key ∈ selectedColumns) as Hkeys.
  { intros key. rewrite list_elem_of_In. apply ExportFacts.orderedColumns_spec. }
  split; [exact Hheaders|]. split; [|split; [exact Hkeys|split]].
  - unfold ExportParticipantsModal.orderedColumns.
    generalize (map fst ExportParticipantsModal.ALL_COLUMNS) as keys.
    induction keys as [|k keys IH]; simpl; [constructor|].
    destruct (bool_decide _); now constructor.
  - rewrite Hheaders. apply NoDup_fmap_2_strong.
    + intros k k' _ _. apply ExportFacts.label_inj.
    + apply ExportColumnFacts.NoDup_orderedColumns.
  - intros key Hnot. apply ExportColumnFacts.get_property_None. rewrite Hheaders.
    intros Hin. apply ArrayFacts.elem_of_List_map in Hin as (k & Hk & E).
    apply ExportFacts.label_inj in E. subst k. now apply Hkeys in Hk.
Qed.

(** X2: the export reports an error and exports nothing when there is no
    participant, or when there is one but no column is selected; otherwise it
    exports one row per participant, in order. *)
Theorem X2_export_guards
    (R : Runtime) (participantsToExport : list Participant.t)
    (selectedColumns : gset ExportParticipantsModal.ColumnKey) :
  ExportParticipantsModal.handleExport participantsToExport selectedColumns
  = match participantsToExport with
    | [] => ExportParticipantsModal.NoParticipants
    | _ =>
        if decide (selectedColumns = ∅) then ExportParticipantsModal.NoColumns
        else ExportParticipantsModal.Exported
               (map (ExportParticipantsModal.exportedRow selectedColumns)
                  participantsToExport)
    end.
Proof.
  unfold ExportParticipantsModal.handleExport.
  destruct participantsToExport as [|p ps]; [reflexivity|]. cbn [length Nat.eqb].
  destruct (decide (selectedColumns = ∅)) as [->|Hne]; [reflexivity|].
  destruct (size selectedColumns) eqn:Esize; [|reflexivity].
  apply size_empty_inv in Esize. exfalso. apply Hne. now apply leibniz_equiv.
Qed.

(** X3: ticking a column changes the selection of that column and of no
    other, and ticking it twice restores the selection. *)
Theorem X3_handleColumnChange
    (key : ExportParticipantsModal.ColumnKey)
    (prev : gset ExportParticipantsModal.ColumnKey) :
  (key ∈ ExportParticipantsModal.handleColumnChange key prev <-> key ∉ prev)
  /\ (forall other, other <> key ->
        (other ∈ ExportParticipantsModal.handleColumnChange key prev <-> other ∈ prev))
  /\ ExportParticipantsModal.handleColumnChange key
       (ExportParticipantsModal.handleColumnChange key prev) = prev.
Proof.
  unfold ExportParticipantsModal.handleColumnChange.
  destruct (decide (key ∈ prev)) as [Hin|Hnot].
  - rewrite (bool_decide_eq_true_2 _ Hin).
    assert (key ∉ prev ∖ {[key]}) as Hgone.
    { rewrite elem_of_difference, elem_of_singleton. tauto. }
    rewrite (bool_decide_eq_false_2 _ Hgone).
    split; [tauto|]. split.
    + intros other Hne. rewrite elem_of_difference, elem_of_singleton. tauto.
    + apply leibniz_equiv. intros x.
      rewrite elem_of_union, elem_of_difference, elem_of_singleton.
      destruct (decide (x = key)) as [->|Hne]; tauto.
  - rewrite (bool_decide_eq_false_2 _ Hnot).
    assert (key ∈ prev ∪ {[key]}) as Hthere.
    { rewrite elem_of_union, elem_of_singleton. tauto. }
    rewrite (bool_decide_eq_true_2 _ Hthere).
    split; [tauto|]. split.
    + intros other Hne. rewrite elem_of_union, elem_of_singleton. tauto.
    + apply leibniz_equiv. intros x.
      rewrite elem_of_difference, elem_of_union, elem_of_singleton.
      destruct (decide (x = key)) as [->|Hne]; tauto.
Qed.

(** ** The participants import *)

Module ParticipantsImportFacts.
Import JS ImportParticipantsModal.

Lemma importSummary_from (previewData : list PreviewRow) : forall acc : nat * nat,
  foldl (fun acc row => if is_new row then (S acc.1, acc.2) else (acc.1, S acc.2))
    acc previewData
  = (acc.1 + length (List.filter is_new previewData),
     acc.2 + length (List.filter (fun row => negb (is_new row)) previewData)).
Proof.
  induction previewData as [|row rows IH]; intros [n k]; cbn [foldl List.filter].
  - cbn. f_equal; lia.
  - rewrite IH. destruct (is_new row); cbn; f_equal; lia.
Qed.

Lemma importSummary_spec (previewData : list PreviewRow) :
  importSummary previewData
  = (length (List.filter is_new previewData),
     length (List.filter (fun row => negb (is_new row)) previewData)).
Proof. unfold importSummary. now rewrite importSummary_from. Qed.

Lemma length_filter_split {A} (f : A -> bool) (l : list A) :
  length (List.filter f l) + length (List.filter (fun x => negb (f x)) l) = length l.
Proof. induction l as [|x l IH]; simpl; [reflexivity|]. destruct (f x); simpl; lia. Qed.

(** A row is dropped exactly when every cell of it is empty. *)
Lemma validate_None (participants : list Participant.t) (row : Row) :
  validate participants row = None <-> every_cell_empty row = true.
Proof.
  rewrite ClassifyFacts.participants_dropped_iff. unfold every_cell_empty, Spec.fully_blank.
  now rewrite bool_decide_eq_true.
Qed.

Lemma participants_validate_data (participants : list Participant.t) (row : Row) (r : PreviewRow) :
  validate participants row = Some r -> data r = row.
Proof. unfold validate. repeat case_match; intros; simplify_eq; reflexivity. Qed.

Lemma preview_data (participants : list Participant.t) (rows : list Row) :
  map data (omap (validate participants) rows)
  = List.filter (fun row => negb (every_cell_empty row)) rows.
Proof.
  induction rows as [|row rows IH]; csimpl; [reflexivity|].
  destruct (validate participants row) as [r|] eqn:E; csimpl.
  - destruct (every_cell_empty row) eqn:Ee.
    + apply (validate_None participants) in Ee. congruence.
    + cbn. now rewrite IH, (participants_validate_data _ _ _ E).
  - apply validate_None in E. now rewrite E.
Qed.

End ParticipantsImportFacts.

(** X4: the participants import never throws and makes at most one call to
    the persistence layer. When no row of the preview is new it makes no call
    and reports that there is nothing to import. Otherwise the one call is
    [addMultipleParticipants], with one entry per new row of the preview, in
    the order of the preview, as many as the summary announced; the import
    reports the number the call returned, or a failure when the call
    throws. *)
Theorem X4_participants_import_one_call
    {W : Type} `{Persistence W}
    (previewData : list ImportParticipantsModal.PreviewRow) (st : IOState W) :
  let toCreate := ImportParticipantsModal.participantsToCreate previewData in
  length toCreate = (ImportParticipantsModal.importSummary previewData).1
  /\ exists toast st',
       ImportParticipantsModal.handleImport previewData st = (JS.Returns toast, st')
       /\ ((toCreate = [] /\ toast = ImportParticipantsModal.NoNewParticipants /\ st' = st)
           \/ (toCreate <> []
               /\ exists r,
                    calls st' = (calls st ++ [CallAddMultipleParticipants toCreate r])%list
                    /\ (r, world st') = addMultipleParticipants toCreate (world st)
                    /\ toast = match r with
                               | JS.Returns created =>
                                   ImportParticipantsModal.ImportSuccessful created
                               | JS.Throws => ImportParticipantsModal.ImportFailed
                               end)).
Proof.
  cbn zeta. split.
  - rewrite ParticipantsImportFacts.importSummary_spec.
    unfold ImportParticipantsModal.participantsToCreate. now rewrite length_map.
  - unfold ImportParticipantsModal.handleImport.
    destruct (ImportParticipantsModal.participantsToCreate previewData) as [|f fs] eqn:E.
    + eexists _, _. split; [reflexivity|]. left. auto.
    + ImportFacts.async_unfold.
      destruct (addMultipleParticipants (f :: fs) (world st)) as [[n|] w] eqn:Ecall;
        eexists _, _; (split; [reflexivity|]); right; (split; [discriminate|]);
        eexists; (split; [reflexivity|]); split; reflexivity.
Qed.

(** X5: the preview of the participants import lists the rows of the file
    that have a non-empty cell, in the order of the file, and its summary
    counts each of them once, as new or as skipped. *)
Theorem X5_participants_preview
    (participants : list Participant.t) (parsedRows : list Row)
    (previewData : list ImportParticipantsModal.PreviewRow) :
  ImportParticipantsModal.processFile participants parsedRows = Some previewData ->
  map ImportParticipantsModal.data previewData
  = List.filter (fun row => negb (ImportParticipantsModal.every_cell_empty row)) parsedRows
  /\ (ImportParticipantsModal.importSummary previewData).1
     + (ImportParticipantsModal.importSummary previewData).2
     = length previewData
  /\ length previewData <= length parsedRows.
Proof.
  intros E.
  assert (previewData
          = omap (ImportParticipantsModal.validate participants) parsedRows) as ->.
  { destruct parsedRows; [discriminate|].
    unfold ImportParticipantsModal.processFile in E. congruence. }
  split; [apply ParticipantsImportFacts.preview_data|]. split.
  - rewrite ParticipantsImportFacts.importSummary_spec. cbn [fst snd].
    apply ParticipantsImportFacts.length_filter_split.
  - apply ClassifyFacts.length_omap_le.
Qed.

Lemma X5_participants_preview_witness :
  map ImportParticipantsModal.data
    [ImportParticipantsModal.mkRow Sample.row_bob ImportParticipantsModal.NewParticipant
       "Will be created"]
  = List.filter (fun row => negb (ImportParticipantsModal.every_cell_empty row))
      [Sample.row_empty_cells; Sample.row_bob]
  /\ (ImportParticipantsModal.importSummary
        [ImportParticipantsModal.mkRow Sample.row_bob
           ImportParticipantsModal.NewParticipant "Will be created"]).1
     + (ImportParticipantsModal.importSummary
          [ImportParticipantsModal.mkRow Sample.row_bob
             ImportParticipantsModal.NewParticipant "Will be created"]).2
     = 1
  /\ 1 <= 2.
Proof.
  apply (X5_participants_preview [Sample.jane] [Sample.row_empty_cells; Sample.row_bob]).
  vm_compute. reflexivity.
Defined.

(** X6: when the participants the dialog is given grow, the classification
    of a row of the participants import changes in one way only: a row that
    was new may become one that already exists. Dropped rows, invalid rows and
    rows that already exist stay as they are. *)
Theorem X6_participants_snapshot_grows
    (participants participants' : list Participant.t) (row : Row) :
  (forall p, p ∈ participants -> p ∈ participants') ->
  ImportParticipantsModal.validate participants' row
  = ImportParticipantsModal.validate participants row
  \/ (ImportParticipantsModal.status <$> ImportParticipantsModal.validate participants row
      = Some ImportParticipantsModal.NewParticipant
      /\ ImportParticipantsModal.status
           <$> ImportParticipantsModal.validate participants' row
         = Some ImportParticipantsModal.ParticipantAlreadyExists).
Proof.
  intros Hsub. unfold ImportParticipantsModal.validate.
  destruct (negb _ && negb _ && _); [now left|].
  destruct (ImportParticipantsModal.row_name row) as [[|a n]|]; [now left| |now left].
  destruct (ImportParticipantsModal.row_contact row) as [[|b c]|]; [now left| |now left].
  case_bool_decide as Hin'; case_bool_decide as Hin; auto.
  exfalso. apply Hin'.
  apply ClassifyFacts.participantMap_has in Hin as (p & Hp & Hk).
  apply ClassifyFacts.participantMap_has. exists p. split; [now apply Hsub|exact Hk].
Qed.

Lemma X6_participants_snapshot_grows_witness :
  ImportParticipantsModal.validate [Sample.jane; Sample.bob] Sample.row_bob
  = ImportParticipantsModal.validate [Sample.jane] Sample.row_bob
  \/ (ImportParticipantsModal.status
        <$> ImportParticipantsModal.validate [Sample.jane] Sample.row_bob
      = Some ImportParticipantsModal.NewParticipant
      /\ ImportParticipantsModal.status
           <$> ImportParticipantsModal.validate [Sample.jane; Sample.bob] Sample.row_bob
         = Some ImportParticipantsModal.ParticipantAlreadyExists).
Proof.
  apply (X6_participants_snapshot_grows [Sample.jane] [Sample.jane; Sample.bob]).
  intros p Hp. apply list_elem_of_singleton in Hp as ->. now left.
Defined.

(** ** The club import and its summary *)

Module ClubImportFacts.
Import JS ImportMembersModal.

Local Abbreviation summary_step :=
  (fun (acc : Stats) (row : PreviewRow) =>
     match status row with
     | NewParticipant => mkStats (S (new acc)) (existing acc) (skipped acc)
     | ExistingParticipant => mkStats (new acc) (S (existing acc)) (skipped acc)
     | _ => mkStats (new acc) (existing acc) (S (skipped acc))
     end).

(** The summary counts every row once, and no counter goes down. *)
Lemma summary_from (rows : list PreviewRow) : forall acc : Stats,
  let total := foldl summary_step acc rows in
  new acc <= new total /\ existing acc <= existing total /\ skipped acc <= skipped total
  /\ Spec.club_total total = length rows + Spec.club_total acc.
Proof.
  unfold Spec.club_total.
  induction rows as [|row rows IH]; intros acc; cbn zeta; cbn [foldl length]; [lia|].
  specialize (IH (summary_step acc row)). cbv beta zeta in *.
  revert IH. destruct (status row); cbn [new existing skipped]; lia.
Qed.

Lemma joined_ids_app (log1 log2 : list Call) :
  Spec.joined_ids (log1 ++ log2) = (Spec.joined_ids log1 ++ Spec.joined_ids log2)%list.
Proof. apply omap_app. Qed.

Lemma created_participants_app (log1 log2 : list Call) :
  Spec.created_participants (log1 ++ log2)
  = (Spec.created_participants log1 ++ Spec.created_participants log2)%list.
Proof. apply omap_app. Qed.

Lemma find_some_elem {A} (f : A -> bool) (l : list A) (x : A) :
  List.find f l = Some x -> x ∈ l /\ f x = true.
Proof. intros E. apply List.find_some in E as [Hin Hf]. now rewrite list_elem_of_In. Qed.

Section Club.
Context {W : Type} `{Persistence W}.
Variable club : Club.t.

(** What one row does, whether the calls return or throw, next to what the
    summary counts for it. *)
Lemma club_row_effect stats temp row (st : IOState W) r st' (acc : Stats) :
  import_row club (stats, temp) row st = (r, st') ->
  let acc1 := summary_step acc row in
  exists log,
    calls st' = (calls st ++ log)%list
    /\ Forall (Spec.club_call club) log
    /\ (forall pid, pid ∈ Spec.joined_ids log -> pid ∈ map Participant.id temp)
    /\ length log + new acc + existing acc <= new acc1 + existing acc1
    /\ match r with
       | Returns (stats', temp') =>
           temp' = (temp ++ Spec.created_participants log)%list
           /\ new stats' + new acc <= new acc1 + new stats
           /\ existing stats' + existing acc <= existing acc1 + existing stats
           /\ skipped acc1 + skipped stats <= skipped stats' + skipped acc
       | Throws => True
       end.
Proof.
  cbv beta zeta. destruct (status row) eqn:Hs.
  - pose proof (club_row_new_eq := ImportFacts.club_row_new club stats temp row st Hs).
    cbn zeta in club_row_new_eq.
    destruct (addParticipant _ _ _) as [r0 w]. rewrite club_row_new_eq.
    intros [= <- <-]. eexists [_]. split; [reflexivity|]. split.
    { constructor; [|constructor]. cbn. auto. }
    split.
    { intros pid Hin. cbn in Hin. now apply elem_of_nil in Hin. }
    split; [cbn; lia|].
    destruct r0 as [[p|]|]; [| |exact I]; cbn; rewrite ?app_nil_r;
      (split; [reflexivity|lia]).
  - rewrite (ImportFacts.club_row_existing club stats temp row st Hs).
    destruct (List.find _ temp) as [p|] eqn:Efind.
    + destruct (addClubMembership _ _ _) as [r0 w]. intros [= <- <-].
      eexists [_]. split; [reflexivity|]. split.
      { constructor; [|constructor]. cbn. reflexivity. }
      split.
      { intros pid Hin. cbn in Hin. apply list_elem_of_singleton in Hin as ->.
        apply find_some_elem in Efind as [Hin _].
        apply ArrayFacts.elem_of_List_map. eauto. }
      split; [cbn; lia|].
      destruct r0 as [[|]|]; [| |exact I]; cbn; rewrite ?app_nil_r;
        (split; [reflexivity|lia]).
    + intros [= <- <-]. exists []. rewrite !app_nil_r. split; [reflexivity|].
      split; [constructor|]. split.
      { intros pid Hin. now apply elem_of_nil in Hin. }
      cbn. split; [lia|]. split; [reflexivity|lia].
  - rewrite ImportFacts.club_row_skipped by auto. intros [= <- <-].
    exists []. rewrite !app_nil_r. split; [reflexivity|].
    split; [constructor|]. split.
    { intros pid Hin. now apply elem_of_nil in Hin. }
    cbn. split; [lia|]. split; [reflexivity|lia].
  - rewrite ImportFacts.club_row_skipped by auto. intros [= <- <-].
    exists []. rewrite !app_nil_r. split; [reflexivity|].
    split; [constructor|]. split.
    { intros pid Hin. now apply elem_of_nil in Hin. }
    cbn. split; [lia|]. split; [reflexivity|lia].
Qed.

(** The rows in order. *)
Lemma club_loop_effect rows : forall stats temp (st : IOState W) r st' (acc : Stats),
  for_of (import_row club) rows (stats, temp) st = (r, st') ->
  let total := foldl summary_step acc rows in
  exists log,
    calls st' = (calls st ++ log)%list
    /\ Forall (Spec.club_call club) log
    /\ (forall pid, pid ∈ Spec.joined_ids log ->
          pid ∈ map Participant.id (temp ++ Spec.created_participants log))
    /\ length log + new acc + existing acc <= new total + existing total
    /\ match r with
       | Returns (stats', temp') =>
           temp' = (temp ++ Spec.created_participants log)%list
           /\ new stats' + new acc <= new total + new stats
           /\ existing stats' + existing acc <= existing total + existing stats
           /\ skipped total + skipped stats <= skipped stats' + skipped acc
       | Throws => True
       end.
Proof.
  induction rows as [|row rows IH]; intros stats temp st r st' acc; cbn [for_of foldl].
  - unfold ret. intros [= <- <-]. exists []. rewrite !app_nil_r.
    split; [reflexivity|]. split; [constructor|]. split.
    { intros pid Hin. now apply elem_of_nil in Hin. }
    cbn. split; [lia|]. split; [reflexivity|lia].
  - unfold bind at 1.
    destruct (import_row club (stats, temp) row st) as [r1 st1] eqn:E1.
    apply (club_row_effect _ _ _ _ _ _ acc) in E1
      as (log1 & Hl1 & Hc1 & Hj1 & Hn1 & Hr1).
    pose proof (summary_from rows (summary_step acc row)) as Hmono.
    cbv beta zeta in *.
    destruct r1 as [[stats1 temp1]|].
    + destruct Hr1 as (-> & Hnew1 & Hex1 & Hsk1). intros E.
      apply (IH _ _ _ _ _ (summary_step acc row)) in E
        as (log2 & Hl2 & Hc2 & Hj2 & Hn2 & Hr2). cbv beta zeta in *.
      exists (log1 ++ log2)%list. rewrite Hl2, Hl1, <- app_assoc.
      split; [reflexivity|]. split; [now apply Forall_app|].
      rewrite created_participants_app, app_assoc. split.
      { intros pid Hin. rewrite joined_ids_app in Hin.
        apply elem_of_app in Hin as [Hin|Hin]; [|now apply Hj2].
        apply Hj1 in Hin. rewrite !map_app, !elem_of_app. auto. }
      rewrite length_app. split; [lia|].
      destruct r as [[stats' temp']|]; [|exact I].
      destruct Hr2 as (-> & Hnew2 & Hex2 & Hsk2). split; [reflexivity|lia].
    + intros [= <- <-]. exists log1. split; [exact Hl1|]. split; [exact Hc1|]. split.
      { intros pid Hin. apply Hj1 in Hin. rewrite map_app, elem_of_app. auto. }
      split; [lia|exact I].
Qed.

(** A row of the preview that is an existing participant has its
    participant among the ones it was classified against. *)
Lemma existing_found participants clubMemberships (row : Row) :
  status (validate club participants clubMemberships row) = ExistingParticipant ->
  exists p, List.find (same_person row) participants = Some p.
Proof.
  unfold validate. destruct (negb _ || negb _); [discriminate|].
  destruct (List.find _ participants) as [p|]; [eauto|discriminate].
Qed.

(** When every call does what it is asked, the counters move as the
    summary does. *)
Lemma club_loop_exact participants clubMemberships (rows : list Row) :
  forall stats extra (st : IOState W) stats' temp' st' (acc : Stats),
    for_of (import_row club) (processFile club participants clubMemberships rows)
      (stats, (participants ++ extra)%list) st
    = (Returns (stats', temp'), st') ->
    Forall Spec.call_succeeded (calls st') ->
    let total :=
      foldl summary_step acc (processFile club participants clubMemberships rows) in
    new stats' + new acc = new total + new stats
    /\ existing stats' + existing acc = existing total + existing stats
    /\ skipped stats' + skipped acc = skipped total + skipped stats.
Proof.
  unfold processFile.
  induction rows as [|row rows IH]; intros stats extra st stats' temp' st' acc;
    cbn [map for_of foldl].
  - unfold ret. intros [= <- <- <-] _. cbn. lia.
  - unfold bind at 1.
    set (prow := validate club participants clubMemberships row).
    destruct (import_row club (stats, (participants ++ extra)%list) prow st)
      as [[[stats1 temp1]|] st1] eqn:E1; [|intros [=]].
    intros E Hok.
    assert (Forall Spec.call_succeeded (calls st1)) as Hok1.
    { destruct (ImportFacts.club_loop_returns club _ _ _ _ _ _ _ E)
        as (_ & log2 & Hl2 & _).
      rewrite Hl2 in Hok. now apply Forall_app in Hok as [Hok _]. }
    assert (exists extra1, temp1 = (participants ++ extra1)%list) as (extra1 & ->).
    { destruct (ImportFacts.club_row_returns club _ _ _ _ _ _ _ E1)
        as (_ & log1 & _ & ->).
      rewrite <- app_assoc. eauto. }
    specialize (IH _ _ _ _ _ _ (summary_step acc prow) E Hok). cbv beta zeta in IH.
    assert (new stats1 + new acc = new (summary_step acc prow) + new stats
            /\ existing stats1 + existing acc
               = existing (summary_step acc prow) + existing stats
            /\ skipped stats1 + skipped acc
               = skipped (summary_step acc prow) + skipped stats) as Hrow; [|lia].
    clear IH E Hok. revert E1. cbv beta. destruct (status prow) eqn:Hs.
    + pose proof (club_row_new_eq :=
                    ImportFacts.club_row_new club stats (participants ++ extra)%list
                      prow st Hs).
      cbn zeta in club_row_new_eq. destruct (addParticipant _ _ _) as [r0 w].
      rewrite club_row_new_eq. intros [= Er <-]. cbn [calls] in Hok1.
      apply Forall_app in Hok1 as [_ Hcall]. apply Forall_cons in Hcall as [[p ->] _].
      injection Er as <- _. cbn. lia.
    + rewrite (ImportFacts.club_row_existing club _ _ _ _ Hs).
      unfold prow at 1. rewrite ReimportFacts.validate_data.
      destruct (existing_found _ _ _ Hs) as (p & Efind).
      rewrite ReimportFacts.find_app, Efind.
      destruct (addClubMembership _ _ _) as [r0 w]. intros [= Er <-].
      cbn [calls] in Hok1.
      apply Forall_app in Hok1 as [_ Hcall]. apply Forall_cons in Hcall as [-> _].
      injection Er as <- _. cbn. lia.
    + rewrite ImportFacts.club_row_skipped by auto. intros [= <- _ <-]. cbn. lia.
    + rewrite ImportFacts.club_row_skipped by auto. intros [= <- _ <-]. cbn. lia.
Qed.
End Club.

End ClubImportFacts.

(** X7: when the club import ends with its toast, the counters of the toast
    stay within the summary that the preview showed: no more rows are created
    or added than the summary announced, no fewer are skipped, and both count
    the same number of rows. *)
Theorem X7_club_summary_bounds
    {W : Type} `{Persistence W} (club : Club.t) (participants : list Participant.t)
    (previewData : list ImportMembersModal.PreviewRow) (st : IOState W)
    (stats : ImportMembersModal.Stats) :
  fst (ImportMembersModal.handleImport club participants previewData st)
  = JS.Returns stats ->
  let summary := ImportMembersModal.importSummary previewData in
  ImportMembersModal.new stats <= ImportMembersModal.new summary
  /\ ImportMembersModal.existing stats <= ImportMembersModal.existing summary
  /\ ImportMembersModal.skipped summary <= ImportMembersModal.skipped stats
  /\ Spec.club_total stats = Spec.club_total summary.
Proof.
  unfold ImportMembersModal.handleImport, bind, ret.
  destruct (for_of _ _ _ st) as [[[stats' temp']|] st'] eqn:E; [|discriminate].
  cbn [fst]. intros [= <-].
  pose proof (ClubImportFacts.club_loop_effect club previewData _ _ _ _ _
                (ImportMembersModal.mkStats 0 0 0) E) as (log & _ & _ & _ & _ & Hr).
  destruct Hr as (_ & Hnew & Hex & Hsk). cbn zeta in *.
  apply ImportFacts.club_loop_returns in E as [Htotal _].
  pose proof (ClubImportFacts.summary_from previewData (ImportMembersModal.mkStats 0 0 0))
    as (_ & _ & _ & Hsum).
  unfold ImportMembersModal.importSummary. cbn in *. lia.
Qed.

Lemma X7_club_summary_bounds_witness :
  let summary :=
    ImportMembersModal.importSummary [Sample.club_new_bob; Sample.club_existing_jane] in
  1 <= ImportMembersModal.new summary
  /\ 0 <= ImportMembersModal.existing summary
  /\ ImportMembersModal.skipped summary <= 1
  /\ Spec.club_total (ImportMembersModal.mkStats 1 0 1) = Spec.club_total summary.
Proof.
  apply (X7_club_summary_bounds Sample.debate []
           [Sample.club_new_bob; Sample.club_existing_jane] (mkIO Store.empty [])
           (ImportMembersModal.mkStats 1 0 1)).
  vm_compute. reflexivity.
Defined.

(** X8: when the preview of the club import was made from the participants
    the import starts from, and every call of the import did what it was
    asked, the counters of the toast are the summary that the preview
    showed. *)
Theorem X8_club_summary_exact
    {W : Type} `{Persistence W} (club : Club.t) (participants : list Participant.t)
    (clubMemberships : list ClubMembership.t) (rows : list Row) (w : W)
    (stats : ImportMembersModal.Stats) :
  let previewData :=
    ImportMembersModal.processFile club participants clubMemberships rows in
  let out := run (ImportMembersModal.handleImport club participants previewData) w in
  fst out = JS.Returns stats ->
  Forall Spec.call_succeeded (calls (snd out)) ->
  stats = ImportMembersModal.importSummary previewData.
Proof.
  cbn zeta. unfold run, ImportMembersModal.handleImport, bind, ret.
  destruct (for_of _ _ _ (mkIO w [])) as [[[stats' temp']|] st'] eqn:E; [|discriminate].
  cbn [fst snd]. intros [= <-] Hok.
  rewrite <- (app_nil_r participants) in E at 2.
  pose proof (ClubImportFacts.club_loop_exact club participants clubMemberships rows
                _ _ _ _ _ _ (ImportMembersModal.mkStats 0 0 0) E Hok)
    as (Hnew & Hex & Hsk).
  cbn zeta in *. unfold ImportMembersModal.importSummary.
  destruct (foldl _ _ _) as [n e k]. destruct stats' as [n' e' k'].
  cbn in *. f_equal; lia.
Qed.

Lemma X8_club_summary_exact_witness :
  ImportMembersModal.mkStats 1 1 0
  = ImportMembersModal.importSummary
      (ImportMembersModal.processFile Sample.debate [Sample.jane] []
         [Sample.row_bob; Sample.row_jane]).
Proof.
  apply (X8_club_summary_exact Sample.debate [Sample.jane] []
           [Sample.row_bob; Sample.row_jane] Store.empty).
  - vm_compute. reflexivity.
  - vm_compute. repeat constructor. eexists. reflexivity.
Defined.

(** X9: whether the club import ends or throws, every call it makes is for
    its club: a participant is created in the club, at the institution of the
    club and as a member, or a membership of the club is added, for a
    participant the import was given or one it created. It makes no more
    calls than there are rows that the summary counts as new or existing. *)
Theorem X9_club_calls
    {W : Type} `{Persistence W} (club : Club.t) (participants : list Participant.t)
    (previewData : list ImportMembersModal.PreviewRow) (st : IOState W) :
  let out := ImportMembersModal.handleImport club participants previewData st in
  let summary := ImportMembersModal.importSummary previewData in
  exists log,
    calls (snd out) = (calls st ++ log)%list
    /\ Forall (Spec.club_call club) log
    /\ (forall pid, pid ∈ Spec.joined_ids log ->
          pid ∈ map Participant.id (participants ++ Spec.created_participants log))
    /\ length log <= ImportMembersModal.new summary + ImportMembersModal.existing summary.
Proof.
  cbn zeta. unfold ImportMembersModal.handleImport, bind, ret.
  destruct (for_of _ _ _ st) as [r st'] eqn:E.
  pose proof (ClubImportFacts.club_loop_effect club previewData _ _ _ _ _
                (ImportMembersModal.mkStats 0 0 0) E) as (log & Hl & Hc & Hj & Hn & _).
  cbn zeta in *. exists log.
  assert (calls (snd (match r with
                      | JS.Returns a => (JS.Returns (fst a), st')
                      | JS.Throws => (JS.Throws, st')
                      end)) = calls st') as -> by (now destruct r).
  split; [exact Hl|]. split; [exact Hc|]. split; [exact Hj|].
  unfold ImportMembersModal.importSummary. cbn in Hn. lia.
Qed.

(** X10: when participants are added after the ones the club import was
    given, and memberships are added, the classification of a row only moves
    towards being settled: an invalid row stays invalid and no other row
    becomes invalid, a row that is already a member stays one, and an existing
    participant stays one or becomes already a member. *)
Theorem X10_club_snapshot_grows
    (club : Club.t) (participants added : list Participant.t)
    (clubMemberships clubMemberships' : list ClubMembership.t) (row : Row) :
  (forall cm, cm ∈ clubMemberships -> cm ∈ clubMemberships') ->
  let before :=
    ImportMembersModal.status
      (ImportMembersModal.validate club participants clubMemberships row) in
  let after :=
    ImportMembersModal.status
      (ImportMembersModal.validate club (participants ++ added) clubMemberships' row) in
  (before = ImportMembersModal.InvalidData <-> after = ImportMembersModal.InvalidData)
  /\ (before = ImportMembersModal.AlreadyAMember ->
      after = ImportMembersModal.AlreadyAMember)
  /\ (before = ImportMembersModal.ExistingParticipant ->
      after = ImportMembersModal.ExistingParticipant
      \/ after = ImportMembersModal.AlreadyAMember).
Proof.
  intros Hsub. cbn zeta. unfold ImportMembersModal.validate.
  destruct (negb _ || negb _); [cbn; intuition discriminate|].
  rewrite ReimportFacts.find_app.
  destruct (List.find _ participants) as [p|].
  - case_bool_decide as Hm.
    + rewrite bool_decide_eq_true_2; [cbn; intuition discriminate|].
      apply ReimportFacts.clubMemberIds_spec in Hm as (cm & Hin & Hc & E).
      apply ReimportFacts.clubMemberIds_spec. eauto.
    + case_bool_decide; cbn; intuition discriminate.
  - destruct (List.find _ added) as [p|]; [case_bool_decide|];
      cbn; intuition discriminate.
Qed.

Lemma X10_club_snapshot_grows_witness :
  let before :=
    ImportMembersModal.status
      (ImportMembersModal.validate Sample.debate [Sample.jane] [] Sample.row_jane) in
  let after :=
    ImportMembersModal.status
      (ImportMembersModal.validate Sample.debate ([Sample.jane] ++ [Sample.bob])
         [Sample.jane_in_debate] Sample.row_jane) in
  (before = ImportMembersModal.InvalidData <-> after = ImportMembersModal.InvalidData)
  /\ (before = ImportMembersModal.AlreadyAMember ->
      after = ImportMembersModal.AlreadyAMember)
  /\ (before = ImportMembersModal.ExistingParticipant ->
      after = ImportMembersModal.ExistingParticipant
      \/ after = ImportMembersModal.AlreadyAMember).
Proof.
  apply (X10_club_snapshot_grows Sample.debate [Sample.jane] [Sample.bob] []
           [Sample.jane_in_debate] Sample.row_jane).
  intros cm Hin. now apply elem_of_nil in Hin.
Defined.

(** ** The volunteers import and its summary *)

Module VolunteersImportFacts.
Import JS ImportVolunteersModal.

Local Abbreviation summary_step :=
  (fun (acc : nat * nat * nat) (row : PreviewRow) =>
     match status row with
     | NewParticipant => (S acc.1.1, acc.1.2, acc.2)
     | ExistingParticipant => (acc.1.1, S acc.1.2, acc.2)
     | _ => (acc.1.1, acc.1.2, S acc.2)
     end).

Lemma volunteered_ids_app (log1 log2 : list Call) :
  Spec.volunteered_ids (log1 ++ log2)
  = (Spec.volunteered_ids log1 ++ Spec.volunteered_ids log2)%list.
Proof. apply omap_app. Qed.

Lemma participantMap_elem (participants : list Participant.t) (k : string)
    (p : Participant.t) :
  participantMap participants !! k = Some p -> p ∈ participants /\ participant_key p = k.
Proof.
  intros E. apply JSFacts.Map_new_lookup_Some in E.
  apply ArrayFacts.elem_of_List_map in E as (q & Hq & [= <- <-]). auto.
Qed.

Lemma volunteers_validate_data participants volunteers (row : Row) :
  data (validate participants volunteers row) = row.
Proof. unfold validate. repeat case_match; reflexivity. Qed.

Section Volunteers.
Context {W : Type} `{Persistence W} `{Runtime}.
Variable participants : list Participant.t.

(** What one row does, next to what the summary counts for it. *)
Lemma volunteers_row_effect stats row (st : IOState W) (acc : nat * nat * nat) :
  let acc1 := summary_step acc row in
  exists stats' st' log,
    import_row participants stats row st = (Returns stats', st')
    /\ calls st' = (calls st ++ log)%list
    /\ Forall Spec.volunteers_call log
    /\ (forall pid, pid ∈ Spec.volunteered_ids log ->
          pid ∈ map Participant.id (participants ++ Spec.created_participants log))
    /\ length log + 2 * acc.1.1 + acc.1.2 <= 2 * acc1.1.1 + acc1.1.2
    /\ skipped stats' + acc.2 = acc1.2 + skipped stats
    /\ new stats' + acc.1.1 <= acc1.1.1 + new stats
    /\ existing stats' + acc.1.2 <= acc1.1.2 + existing stats
    /\ new stats' + existing stats' + failed stats' + acc.1.1 + acc.1.2
       = acc1.1.1 + acc1.1.2 + new stats + existing stats + failed stats.
Proof.
  destruct acc as [[a b] c]. cbv beta zeta. cbn [fst snd].
  assert (forall pid : UUID, pid ∈ @nil UUID ->
            pid ∈ map Participant.id (participants ++ [])) as Hnil.
  { intros pid Hin. now apply elem_of_nil in Hin. }
  destruct (status row) eqn:Hs.
  - rewrite (ImportFacts.volunteers_row_new participants stats row st Hs). cbn zeta.
    destruct (fst (start_date _ _)) as [d|].
    + destruct (addParticipant _ _ _) as [[[p|]|] w].
      * destruct (addVolunteer _ _) as [[[]|] w'];
          (eexists _, _, [_; _]; split; [reflexivity|]; split; [reflexivity|]; split;
           [repeat constructor|]; split; [|cbn; lia]);
          intros pid Hin; cbn in Hin; apply list_elem_of_singleton in Hin as ->;
          cbn; rewrite map_app, elem_of_app; right; cbn; now left.
      * eexists _, _, [_]. split; [reflexivity|]. split; [reflexivity|]. split.
        { repeat constructor. }
        split; [exact Hnil|]. cbn. lia.
      * eexists _, _, [_]. split; [reflexivity|]. split; [reflexivity|]. split.
        { repeat constructor. }
        split; [exact Hnil|]. cbn. lia.
    + eexists _, _, []. split; [reflexivity|]. rewrite app_nil_r.
      split; [reflexivity|]. split; [constructor|]. split; [exact Hnil|]. cbn. lia.
  - rewrite (ImportFacts.volunteers_row_existing participants stats row st Hs). cbn zeta.
    assert (forall stats' : Stats,
              new stats' + existing stats' + failed stats'
              = new stats + existing stats + S (failed stats)
              -> skipped stats' = skipped stats -> new stats' = new stats
              -> existing stats' = existing stats ->
              exists stats'' (st' : IOState W) log,
                (Returns stats', st) = (Returns stats'', st')
                /\ calls st' = (calls st ++ log)%list
                /\ Forall Spec.volunteers_call log
                /\ (forall pid, pid ∈ Spec.volunteered_ids log ->
                      pid ∈ map Participant.id
                              (participants ++ Spec.created_participants log))
                /\ length log + 2 * a + b <= 2 * a + S b
                /\ skipped stats'' + c = c + skipped stats
                /\ new stats'' + a <= a + new stats
                /\ existing stats'' + b <= S b + existing stats
                /\ new stats'' + existing stats'' + failed stats'' + a + b
                   = a + S b + new stats + existing stats + failed stats) as Hfailed.
    { intros stats' E1 E2 E3 E4. exists stats', st, []. split; [reflexivity|].
      rewrite app_nil_r. split; [reflexivity|]. split; [constructor|].
      split; [exact Hnil|]. cbn. lia. }
    destruct (fst (start_date _ _)) as [d|]; [|apply Hfailed; cbn; lia].
    destruct (data row !! "Name") as [n|]; [|apply Hfailed; cbn; lia].
    destruct (data row !! "Contact") as [k|]; [|apply Hfailed; cbn; lia].
    destruct (participantMap participants !! _) as [p|] eqn:Ep;
      [|apply Hfailed; cbn; lia].
    apply participantMap_elem in Ep as [Hp _].
    destruct (addVolunteer _ _) as [[[]|] w];
      (eexists _, _, [_]; split; [reflexivity|]; split; [reflexivity|]; split;
       [repeat constructor|]; split; [|cbn; lia]);
      intros pid Hin; cbn in Hin; apply list_elem_of_singleton in Hin as ->;
      cbn; rewrite app_nil_r; apply ArrayFacts.elem_of_List_map; eauto.
  - rewrite ImportFacts.volunteers_row_skipped by auto.
    eexists _, _, []. split; [reflexivity|]. rewrite app_nil_r.
    split; [reflexivity|]. split; [constructor|]. split; [exact Hnil|]. cbn. lia.
  - rewrite ImportFacts.volunteers_row_skipped by auto.
    eexists _, _, []. split; [reflexivity|]. rewrite app_nil_r.
    split; [reflexivity|]. split; [constructor|]. split; [exact Hnil|]. cbn. lia.
Qed.

(** The rows in order. *)
Lemma volunteers_loop_effect rows :
  forall stats (st : IOState W) (acc : nat * nat * nat),
    let total := foldl summary_step acc rows in
    exists stats' st' log,
      for_of (import_row participants) rows stats st = (Returns stats', st')
      /\ calls st' = (calls st ++ log)%list
      /\ Forall Spec.volunteers_call log
      /\ (forall pid, pid ∈ Spec.volunteered_ids log ->
            pid ∈ map Participant.id (participants ++ Spec.created_participants log))
      /\ length log + 2 * acc.1.1 + acc.1.2 <= 2 * total.1.1 + total.1.2
      /\ skipped stats' + acc.2 = total.2 + skipped stats
      /\ new stats' + acc.1.1 <= total.1.1 + new stats
      /\ existing stats' + acc.1.2 <= total.1.2 + existing stats
      /\ new stats' + existing stats' + failed stats' + acc.1.1 + acc.1.2
         = total.1.1 + total.1.2 + new stats + existing stats + failed stats.
Proof.
  induction rows as [|row rows IH]; intros stats st acc; cbn zeta; cbn [for_of foldl].
  - unfold ret. exists stats, st, []. split; [reflexivity|]. rewrite app_nil_r.
    split; [reflexivity|]. split; [constructor|]. split.
    { intros pid Hin. now apply elem_of_nil in Hin. }
    cbn. lia.
  - unfold bind at 1.
    destruct (volunteers_row_effect stats row st acc)
      as (stats1 & st1 & log1 & -> & Hl1 & Hc1 & Hv1 & Hrow).
    destruct (IH stats1 st1 (summary_step acc row))
      as (stats' & st' & log2 & -> & Hl2 & Hc2 & Hv2 & Hrest).
    cbv beta zeta in *.
    exists stats', st', (log1 ++ log2)%list. split; [reflexivity|].
    rewrite Hl2, Hl1, <- app_assoc. split; [reflexivity|].
    split; [now apply Forall_app|]. split.
    { intros pid Hin. rewrite volunteered_ids_app in Hin.
      rewrite ClubImportFacts.created_participants_app, !map_app, !elem_of_app.
      apply elem_of_app in Hin as [Hin|Hin].
      - apply Hv1 in Hin. rewrite map_app, elem_of_app in Hin. tauto.
      - apply Hv2 in Hin. rewrite map_app, elem_of_app in Hin. tauto. }
    rewrite length_app. lia.
Qed.
End Volunteers.

End VolunteersImportFacts.

(** X11: the volunteers import always ends with its toast, and its counters
    relate to the summary that the preview showed: exactly the rows that the
    summary counts as skipped are skipped; of the rows it counts as new, and
    as existing, none is counted under another of these two headings, and the
    ones that are not counted there are the failed ones. *)
Theorem X11_volunteers_summary
    {W : Type} `{Persistence W} `{Runtime} (participants : list Participant.t)
    (previewData : list ImportVolunteersModal.PreviewRow) (st : IOState W) :
  let summary := ImportVolunteersModal.importSummary previewData in
  exists stats st',
    ImportVolunteersModal.handleImport participants previewData st
    = (JS.Returns stats, st')
    /\ ImportVolunteersModal.skipped stats = summary.2
    /\ ImportVolunteersModal.new stats <= summary.1.1
    /\ ImportVolunteersModal.existing stats <= summary.1.2
    /\ ImportVolunteersModal.new stats + ImportVolunteersModal.existing stats
       + ImportVolunteersModal.failed stats
       = summary.1.1 + summary.1.2.
Proof.
  cbn zeta. unfold ImportVolunteersModal.handleImport, ImportVolunteersModal.importSummary.
  destruct (VolunteersImportFacts.volunteers_loop_effect participants previewData
              (ImportVolunteersModal.mkStats 0 0 0 0) st (0, 0, 0))
    as (stats & st' & log & E & _ & _ & _ & Hrest).
  cbv beta zeta in Hrest. exists stats, st'. split; [exact E|].
  cbn in Hrest. lia.
Qed.

(** X12: every call of the volunteers import creates a participant outside
    any club and as a member, or adds an active volunteer, for a participant
    the import was given or one it created; no club membership is added. It
    makes no more calls than two for each row that the summary counts as new
    and one for each row that it counts as existing. *)
Theorem X12_volunteers_calls
    {W : Type} `{Persistence W} `{Runtime} (participants : list Participant.t)
    (previewData : list ImportVolunteersModal.PreviewRow) (st : IOState W) :
  let out := ImportVolunteersModal.handleImport participants previewData st in
  let summary := ImportVolunteersModal.importSummary previewData in
  exists log,
    calls (snd out) = (calls st ++ log)%list
    /\ Forall Spec.volunteers_call log
    /\ Spec.joined_ids log = []
    /\ (forall pid, pid ∈ Spec.volunteered_ids log ->
          pid ∈ map Participant.id (participants ++ Spec.created_participants log))
    /\ length log <= 2 * summary.1.1 + summary.1.2.
Proof.
  cbn zeta. unfold ImportVolunteersModal.handleImport, ImportVolunteersModal.importSummary.
  destruct (VolunteersImportFacts.volunteers_loop_effect participants previewData
              (ImportVolunteersModal.mkStats 0 0 0 0) st (0, 0, 0))
    as (stats & st' & log & E & Hl & Hc & Hv & Hn & _).
  cbv beta zeta in Hn. rewrite E. exists log. split; [exact Hl|].
  split; [exact Hc|]. split; [|split; [exact Hv|cbn in Hn; lia]].
  clear -Hc. induction Hc as [|c log Hcall _ IH]; [reflexivity|].
  destruct c; cbn in Hcall; try contradiction; exact IH.
Qed.

(** X13: a row of the volunteers import that is not skipped and whose start
    date cannot be read fails before any call is made. Otherwise the
    volunteer is added with the role cell of the row as it is, and with the
    start date of the row, or with the date at which the row is reached when
    the row gives none. *)
Theorem X13_volunteers_start_date
    {W : Type} `{Persistence W} `{Runtime} (participants : list Participant.t)
    (stats : ImportVolunteersModal.Stats) (row : ImportVolunteersModal.PreviewRow)
    (st : IOState W) :
  ImportVolunteersModal.status row = ImportVolunteersModal.NewParticipant
  \/ ImportVolunteersModal.status row = ImportVolunteersModal.ExistingParticipant ->
  exists stats' st' log,
    ImportVolunteersModal.import_row participants stats row st = (JS.Returns stats', st')
    /\ calls st' = (calls st ++ log)%list
    /\ match ImportVolunteersModal.data row !! "StartDate" with
       | Some (String _ _ as s) =>
           match Date_parse s with
           | Some d =>
               Forall (Spec.volunteer_call_with
                         (ImportVolunteersModal.data row !! "Role") d) log
           | None =>
               st' = st
               /\ stats' = ImportVolunteersModal.mkStats
                             (ImportVolunteersModal.new stats)
                             (ImportVolunteersModal.existing stats)
                             (ImportVolunteersModal.skipped stats)
                             (S (ImportVolunteersModal.failed stats))
           end
       | _ =>
           Forall (Spec.volunteer_call_with
                     (ImportVolunteersModal.data row !! "Role") (Date_now (world st))) log
       end.
Proof.
  intros Hs.
  assert (match ImportVolunteersModal.data row !! "StartDate" with
          | Some (String _ _ as s) =>
              match Date_parse s with
              | Some d =>
                  fst (ImportVolunteersModal.start_date (ImportVolunteersModal.data row) st)
                  = JS.Returns d
              | None =>
                  fst (ImportVolunteersModal.start_date (ImportVolunteersModal.data row) st)
                  = JS.Throws
              end
          | _ =>
              fst (ImportVolunteersModal.start_date (ImportVolunteersModal.data row) st)
              = JS.Returns (Date_now (world st))
          end) as Hdate.
  { unfold ImportVolunteersModal.start_date.
    destruct (ImportVolunteersModal.data row !! "StartDate") as [[|a s]|];
      try reflexivity.
    destruct (Date_parse (String a s)); reflexivity. }
  assert (forall d,
            fst (ImportVolunteersModal.start_date (ImportVolunteersModal.data row) st)
            = JS.Returns d ->
            exists stats' st' log,
              ImportVolunteersModal.import_row participants stats row st
              = (JS.Returns stats', st')
              /\ calls st' = (calls st ++ log)%list
              /\ Forall (Spec.volunteer_call_with
                           (ImportVolunteersModal.data row !! "Role") d) log) as Hcalls.
  { intros d Hd. destruct Hs as [Hs|Hs].
    - rewrite (ImportFacts.volunteers_row_new participants stats row st Hs), Hd.
      cbn zeta. destruct (addParticipant _ _ _) as [[[p|]|] w].
      + destruct (addVolunteer _ _) as [[[]|] w'];
          eexists _, _, [_; _]; (split; [reflexivity|]); (split; [reflexivity|]);
          repeat constructor.
      + eexists _, _, [_]. split; [reflexivity|]. split; [reflexivity|].
        repeat constructor.
      + eexists _, _, [_]. split; [reflexivity|]. split; [reflexivity|].
        repeat constructor.
    - rewrite (ImportFacts.volunteers_row_existing participants stats row st Hs), Hd.
      cbn zeta.
      assert (forall r : JS.result ImportVolunteersModal.Stats,
                (exists stats0, r = JS.Returns stats0) ->
                exists stats' (st' : IOState W) log,
                  (r, st) = (JS.Returns stats', st')
                  /\ calls st' = (calls st ++ log)%list
                  /\ Forall (Spec.volunteer_call_with
                               (ImportVolunteersModal.data row !! "Role") d) log)
        as Hnone.
      { intros r [stats0 ->]. exists stats0, st, []. rewrite app_nil_r.
        split; [reflexivity|]. split; [reflexivity|constructor]. }
      destruct (ImportVolunteersModal.data row !! "Name"); [|apply Hnone; eauto].
      destruct (ImportVolunteersModal.data row !! "Contact"); [|apply Hnone; eauto].
      destruct (ImportVolunteersModal.participantMap participants !! _);
        [|apply Hnone; eauto].
      destruct (addVolunteer _ _) as [[[]|] w];
        eexists _, _, [_]; (split; [reflexivity|]); (split; [reflexivity|]);
        repeat constructor. }
  destruct (ImportVolunteersModal.data row !! "StartDate") as [[|a s]|];
    [now apply Hcalls| |now apply Hcalls].
  destruct (Date_parse (String a s)) as [d|]; [now apply Hcalls|].
  exists (ImportVolunteersModal.mkStats
            (ImportVolunteersModal.new stats) (ImportVolunteersModal.existing stats)
            (ImportVolunteersModal.skipped stats)
            (S (ImportVolunteersModal.failed stats))), st, [].
  rewrite app_nil_r. split; [|auto].
  destruct Hs as [Hs|Hs].
  - rewrite (ImportFacts.volunteers_row_new participants stats row st Hs), Hdate.
    reflexivity.
  - rewrite (ImportFacts.volunteers_row_existing participants stats row st Hs), Hdate.
    reflexivity.
Qed.

Lemma X13_volunteers_start_date_witness :
  let row :=
    ImportVolunteersModal.mkRow (<["StartDate" := "soon"]> Sample.row_bob_mentor)
      ImportVolunteersModal.NewParticipant "Will be created and added as a volunteer." in
  let st := mkIO Store.empty [] in
  exists stats' st' log,
    ImportVolunteersModal.import_row [] (ImportVolunteersModal.mkStats 0 0 0 0) row st
    = (JS.Returns stats', st')
    /\ calls st' = (calls st ++ log)%list
    /\ match ImportVolunteersModal.data row !! "StartDate" with
       | Some (String _ _ as s) =>
           match Date_parse s with
           | Some d =>
               Forall (Spec.volunteer_call_with
                         (ImportVolunteersModal.data row !! "Role") d) log
           | None =>
               st' = st
               /\ stats' = ImportVolunteersModal.mkStats
                             (ImportVolunteersModal.new (ImportVolunteersModal.mkStats 0 0 0 0))
                             (ImportVolunteersModal.existing
                                (ImportVolunteersModal.mkStats 0 0 0 0))
                             (ImportVolunteersModal.skipped
                                (ImportVolunteersModal.mkStats 0 0 0 0))
                             (S (ImportVolunteersModal.failed
                                   (ImportVolunteersModal.mkStats 0 0 0 0)))
           end
       | _ =>
           Forall (Spec.volunteer_call_with
                     (ImportVolunteersModal.data row !! "Role") (Date_now (world st))) log
       end.
Proof.
  apply (@X13_volunteers_start_date Store.t Store.persistence ExampleHost.runtime).
  left. reflexivity.
Defined.

(** X14: classification and import of the volunteers dialog agree on a row
    whose name and contact carry no surrounding white space: when the preview
    calls the row an existing participant, the import finds that participant,
    who is not yet a volunteer. When the start date of the row cannot be read
    the row counts as failed and no call is made; otherwise the one call of
    the row adds the volunteer for that participant, with the start date of
    the row, or the date at which the row is reached when the row gives none,
    and the row counts as existing when the call returns and as failed when
    it throws. *)
Theorem X14_volunteers_existing_lookup
    {W : Type} `{Persistence W} `{Runtime} (participants : list Participant.t)
    (volunteers : list Volunteer.t) (row : Row) (n c : string)
    (stats : ImportVolunteersModal.Stats) (st : IOState W) :
  row !! "Name" = Some n -> row !! "Contact" = Some c ->
  JS.trim n = n -> JS.trim c = c ->
  ImportVolunteersModal.status (ImportVolunteersModal.validate participants volunteers row)
  = ImportVolunteersModal.ExistingParticipant ->
  exists p,
    p ∈ participants
    /\ ImportVolunteersModal.participant_key p
       = JS.toLowerCase n ++ "_" ++ JS.toLowerCase c
    /\ (Participant.id p ∉ ImportVolunteersModal.volunteerParticipantIds volunteers)
    /\ let failed_row :=
         JS.Returns
           (ImportVolunteersModal.mkStats (ImportVolunteersModal.new stats)
              (ImportVolunteersModal.existing stats)
              (ImportVolunteersModal.skipped stats)
              (S (ImportVolunteersModal.failed stats))) in
       let convert := fun startDate : JSDate =>
         let volunteer :=
           NewVolunteer.mk (Participant.id p) (row !! "Role") Active startDate in
         (match fst (addVolunteer volunteer (world st)) with
          | JS.Returns _ =>
              JS.Returns
                (ImportVolunteersModal.mkStats (ImportVolunteersModal.new stats)
                   (S (ImportVolunteersModal.existing stats))
                   (ImportVolunteersModal.skipped stats)
                   (ImportVolunteersModal.failed stats))
          | JS.Throws => failed_row
          end,
          mkIO (snd (addVolunteer volunteer (world st)))
            (calls st ++ [CallAddVolunteer volunteer
                            (fst (addVolunteer volunteer (world st)))])%list) in
       ImportVolunteersModal.import_row participants stats
         (ImportVolunteersModal.validate participants volunteers row) st
       = match row !! "StartDate" with
         | Some (String _ _ as s) =>
             match Date_parse s with
             | Some startDate => convert startDate
             | None => (failed_row, st)
             end
         | _ => convert (Date_now (world st))
         end.
Proof.
  intros Hn Hc Tn Tc Hs.
  assert (exists p,
             ImportVolunteersModal.participantMap participants
               !! (JS.toLowerCase n ++ "_" ++ JS.toLowerCase c) = Some p
             /\ Participant.id p
                ∉ ImportVolunteersModal.volunteerParticipantIds volunteers)
    as (p & Ep & Hp).
  { revert Hs. unfold ImportVolunteersModal.validate. rewrite Hn, Hc.
    cbn [fmap option_fmap option_map].
    rewrite Tn, Tc. destruct n as [|a n]; [discriminate|].
    destruct c as [|b c]; [discriminate|].
    destruct (JS.trim <$> row !! "Role") as [[|r0 r]|]; try discriminate.
    destruct (negb (bool_decide _)); [discriminate|].
    destruct (ImportVolunteersModal.participantMap participants !! _) as [p|];
      [|discriminate].
    case_bool_decide; [discriminate|]. intros _. eauto. }
  exists p.
  destruct (VolunteersImportFacts.participantMap_elem _ _ _ Ep) as [Hin Hkey].
  split; [exact Hin|]. split; [exact Hkey|]. split; [exact Hp|]. cbn zeta.
  rewrite (ImportFacts.volunteers_row_existing participants stats _ st Hs).
  rewrite VolunteersImportFacts.volunteers_validate_data, Hn, Hc, Ep. cbn zeta.
  assert (forall startDate,
            (let '(r, w) :=
               addVolunteer
                 (NewVolunteer.mk (Participant.id p) (row !! "Role") Active startDate)
                 (world st) in
             (match r with
              | JS.Returns _ =>
                  JS.Returns
                    (ImportVolunteersModal.mkStats (ImportVolunteersModal.new stats)
                       (S (ImportVolunteersModal.existing stats))
                       (ImportVolunteersModal.skipped stats)
                       (ImportVolunteersModal.failed stats))
              | JS.Throws =>
                  JS.Returns
                    (ImportVolunteersModal.mkStats (ImportVolunteersModal.new stats)
                       (ImportVolunteersModal.existing stats)
                       (ImportVolunteersModal.skipped stats)
                       (S (ImportVolunteersModal.failed stats)))
              end,
              mkIO w (calls st
                      ++ [CallAddVolunteer
                            (NewVolunteer.mk (Participant.id p) (row !! "Role") Active
                               startDate) r])%list))
            = (match fst (addVolunteer
                            (NewVolunteer.mk (Participant.id p) (row !! "Role") Active
                               startDate) (world st)) with
               | JS.Returns _ =>
                   JS.Returns
                     (ImportVolunteersModal.mkStats (ImportVolunteersModal.new stats)
                        (S (ImportVolunteersModal.existing stats))
                        (ImportVolunteersModal.skipped stats)
                        (ImportVolunteersModal.failed stats))
               | JS.Throws =>
                   JS.Returns
                     (ImportVolunteersModal.mkStats (ImportVolunteersModal.new stats)
                        (ImportVolunteersModal.existing stats)
                        (ImportVolunteersModal.skipped stats)
                        (S (ImportVolunteersModal.failed stats)))
               end,
               mkIO (snd (addVolunteer
                            (NewVolunteer.mk (Participant.id p) (row !! "Role") Active
                               startDate) (world st)))
                 (calls st
                  ++ [CallAddVolunteer
                        (NewVolunteer.mk (Participant.id p) (row !! "Role") Active
                           startDate)
                        (fst (addVolunteer
                                (NewVolunteer.mk (Participant.id p) (row !! "Role") Active
                                   startDate) (world st)))])%list)) as Hconvert.
  { intros startDate. destruct (addVolunteer _ _) as [r w]. reflexivity. }
  unfold ImportVolunteersModal.start_date. ImportFacts.async_unfold.
  destruct (row !! "StartDate") as [[|a s]|]; cbn [fst]; try apply Hconvert.
  destruct (Date_parse (String a s)); cbn [fst]; [apply Hconvert|reflexivity].
Qed.

Lemma X14_volunteers_existing_lookup_witness :
  (exists p,
     p ∈ [Sample.jane]
     /\ ImportVolunteersModal.participant_key p
        = JS.toLowerCase "Jane Doe" ++ "_" ++ JS.toLowerCase "X"
     /\ (Participant.id p ∉ ImportVolunteersModal.volunteerParticipantIds [])
     /\ let volunteer :=
          NewVolunteer.mk (Participant.id p) (Some "Mentor") Active 0%Z in
        ImportVolunteersModal.import_row [Sample.jane]
          (ImportVolunteersModal.mkStats 0 0 0 0)
          (ImportVolunteersModal.validate [Sample.jane] [] Sample.row_jane_mentor)
          (mkIO Store.empty [])
        = (JS.Returns (ImportVolunteersModal.mkStats 0 1 0 0),
           mkIO (Store.add_volunteer volunteer Store.empty)
             [CallAddVolunteer volunteer (JS.Returns tt)]))
  /\ (exists p,
        p ∈ [Sample.jane]
        /\ ImportVolunteersModal.participant_key p
           = JS.toLowerCase "Jane Doe" ++ "_" ++ JS.toLowerCase "X"
        /\ (Participant.id p ∉ ImportVolunteersModal.volunteerParticipantIds [])
        /\ ImportVolunteersModal.import_row [Sample.jane]
             (ImportVolunteersModal.mkStats 0 0 0 0)
             (ImportVolunteersModal.validate [Sample.jane] []
                (<["StartDate" := "soon"]> Sample.row_jane_mentor))
             (mkIO Store.empty [])
           = (JS.Returns (ImportVolunteersModal.mkStats 0 0 0 1), mkIO Store.empty [])).
Proof.
  split.
  - exact (@X14_volunteers_existing_lookup Store.t Store.persistence ExampleHost.runtime
             [Sample.jane] [] Sample.row_jane_mentor "Jane Doe" "X"
             (ImportVolunteersModal.mkStats 0 0 0 0) (mkIO Store.empty [])
             eq_refl eq_refl eq_refl eq_refl eq_refl).
  - exact (@X14_volunteers_existing_lookup Store.t Store.persistence ExampleHost.runtime
             [Sample.jane] [] (<["StartDate" := "soon"]> Sample.row_jane_mentor)
             "Jane Doe" "X"
             (ImportVolunteersModal.mkStats 0 0 0 0) (mkIO Store.empty [])
             eq_refl eq_refl eq_refl eq_refl eq_refl).
Defined.

(** ** The enumerations of [types.ts] in the imports *)

Module EnumFacts.

(** [Object.values(E).includes(v) ? v : fallback], for an enumeration whose
    members have distinct values. *)
Lemma enum_or_spec {E : Type} (values : list E) (value_of : E -> string)
    (v : option string) (fallback e : E) :
  (forall e', e' ∈ values) ->
  (forall a b, value_of a = value_of b -> a = b) ->
  enum_or values value_of v fallback = e
  <-> v = Some (value_of e) \/ (e = fallback /\ forall e', v <> Some (value_of e')).
Proof.
  intros Hall Hinj. unfold enum_or.
  destruct (List.find _ values) as [e0|] eqn:Efind.
  - apply List.find_some in Efind as [_ E0]. apply JSFacts.strict_eq_true in E0.
    split.
    + intros <-. now left.
    + intros [Ev|[_ Hnone]]; [|now destruct (Hnone e0)].
      rewrite Ev in E0. injection E0 as E0. now apply Hinj.
  - assert (forall e', v <> Some (value_of e')) as Hnone.
    { intros e' Ev. pose proof (List.find_none _ _ Efind e') as Hf.
      rewrite <- list_elem_of_In in Hf. specialize (Hf (Hall e')).
      apply JSFacts.strict_eq_true in Ev. congruence. }
    split.
    + intros <-. right. auto.
    + intros [Ev|[-> _]]; [now destruct (Hnone e)|reflexivity].
Qed.

Lemma Gender_values_all (g : Gender) : g ∈ Gender_values.
Proof. destruct g; unfold Gender_values; repeat (try (left; fail); right); left. Qed.

Lemma Region_values_all (r : Region) : r ∈ Region_values.
Proof. destruct r; unfold Region_values; repeat (try (left; fail); right); left. Qed.

Lemma Gender_value_inj (a b : Gender) : Gender_value a = Gender_value b -> a = b.
Proof. destruct a, b; (reflexivity || discriminate). Qed.

Lemma Region_value_inj (a b : Region) : Region_value a = Region_value b -> a = b.
Proof. destruct a, b; (reflexivity || discriminate). Qed.

End EnumFacts.

(** X15: the three imports read the gender and the region of a new
    participant in the same way: the cell must be the value of a member of the
    enumeration, letter for letter, and any other cell, or none, gives
    [Other] and [Greater Accra]. The club import and the volunteers import
    read the cells [Gender] and [Region]; the participants import reads
    [GENDER] and [REGION] first. *)
Theorem X15_enum_cells (club : Club.t) (row : Row) (g : Gender) (r : Region) :
  let gender_is := fun (cell : option string) (chosen : Gender) =>
    chosen = g
    <-> cell = Some (Gender_value g)
        \/ (g = Other /\ forall g', cell <> Some (Gender_value g')) in
  let region_is := fun (cell : option string) (chosen : Region) =>
    chosen = r
    <-> cell = Some (Region_value r)
        \/ (r = GreaterAccra /\ forall r', cell <> Some (Region_value r')) in
  gender_is (row !! "Gender")
    (NewParticipant.gender (ImportMembersModal.new_participant_fields club row))
  /\ region_is (row !! "Region")
       (NewParticipant.region (ImportMembersModal.new_participant_fields club row))
  /\ gender_is (row !! "Gender")
       (NewParticipant.gender (ImportVolunteersModal.new_participant_fields row))
  /\ region_is (row !! "Region")
       (NewParticipant.region (ImportVolunteersModal.new_participant_fields row))
  /\ gender_is (JS.or_else (row !! "GENDER") (row !! "Gender"))
       (NewParticipant.gender (ImportParticipantsModal.new_participant_fields row))
  /\ region_is (JS.or_else (row !! "REGION") (row !! "Region"))
       (NewParticipant.region (ImportParticipantsModal.new_participant_fields row)).
Proof.
  cbn zeta. cbv beta.
  repeat split;
    first [ apply (EnumFacts.enum_or_spec Gender_values Gender_value);
            [apply EnumFacts.Gender_values_all|apply EnumFacts.Gender_value_inj]
          | apply (EnumFacts.enum_or_spec Region_values Region_value);
            [apply EnumFacts.Region_values_all|apply EnumFacts.Region_value_inj] ].
Qed.

(** ** Who may manage what *)

(** X27: participants are managed by super admins and admins only; events are
    managed by these and by organizers; so whoever may manage participants may
    manage events, and an organizer is the only one who may manage events but
    not participants. *)
Theorem X27_permissions (currentUserRole : UserRole) :
  (ParticipantsView.canManage currentUserRole = true
   <-> currentUserRole = SuperAdmin \/ currentUserRole = Admin)
  /\ (EventDetailPanel.canManageEvent currentUserRole = true
      <-> currentUserRole = SuperAdmin \/ currentUserRole = Admin
          \/ currentUserRole = Organizer)
  /\ (ParticipantsView.canManage currentUserRole
      = EventDetailPanel.canManageEvent currentUserRole
      <-> currentUserRole <> Organizer).
Proof.
  destruct currentUserRole; vm_compute; intuition discriminate.
Qed.
